(** * Sherpa conversations interface: preprocessing pipeline and viewer

    A shallow embedding of [preprocess.py] and [app.py].  Conversation
    records are the values that [json.load] produces; every dictionary
    access, truthiness test and comparison of the sources is written with
    an explicit model of the corresponding Python operation, and an
    operation that can raise returns a [result]. *)

From Stdlib Require Import ZArith String Ascii.
From stdpp Require Import base option list gmap strings pretty.

Set Warnings "-register-all".

Local Open Scope string_scope.
Local Open Scope list_scope.
Local Open Scope nat_scope.

(* ===================================================================== *)
(** ** Python values and built-ins *)
(* ===================================================================== *)

Module Py.

(** What [json.load] returns: [None], booleans, integers, strings, lists and
    string-keyed dictionaries (in insertion order, keys pairwise distinct).
    Fractional numbers are left out: the two programs never do arithmetic on
    a field of a record. *)
Inductive value : Type :=
| VNone
| VBool (b : bool)
| VInt (n : Z)
| VStr (s : string)
| VList (items : list value)
| VDict (fields : list (string * value)).

(** The exceptions the two programs can meet.  [StopException] is what
    [st.stop()] raises to end a run of the viewer's script. *)
Inductive exn : Set :=
| KeyError | TypeError | AttributeError | IndexError | ValueError
| OverflowError | FileNotFoundError | StopException.

Inductive result (A : Type) : Type :=
| Ok (a : A)
| Raise (e : exn).
Arguments Ok {A} a.
Arguments Raise {A} e.

#[global] Instance result_ret : MRet result := @Ok.
#[global] Instance result_bind : MBind result :=
  λ A B f m, match m with Ok a => f a | Raise e => Raise e end.
#[global] Instance result_fmap : FMap result :=
  λ A B f m, match m with Ok a => Ok (f a) | Raise e => Raise e end.

#[global] Instance exn_eq_dec : EqDecision exn.
Proof. solve_decision. Defined.

#[global] Instance result_eq_dec {A} `{EqDecision A} : EqDecision (result A).
Proof. solve_decision. Defined.

Definition is_ok {A} (r : result A) : bool :=
  match r with Ok _ => true | Raise _ => false end.

Definition to_option {A} (r : result A) : option A :=
  match r with Ok a => Some a | Raise _ => None end.

(** Statements that read and write a state of type [S] and may raise: an
    exception ends the computation and keeps the state reached. *)
Definition eff (S A : Type) : Type := S → result A * S.

#[global] Instance eff_ret {S} : MRet (eff S) := λ A a s, (Ok a, s).
#[global] Instance eff_bind {S} : MBind (eff S) := λ A B f m s,
  match m s with
  | (Ok a, s') => f a s'
  | (Raise e, s') => (Raise e, s')
  end.

(** A step that only computes (and may raise). *)
Definition lift {S A} (r : result A) : eff S A := λ s, (r, s).

(** [m] leaves the component [f] of the state as it found it. *)
Definition preserves {S A X} (f : S → X) (m : eff S A) : Prop :=
  ∀ s, f (m s).2 = f s.

(** [m] cannot tell two [R]-related states apart: it ends the same way from
    both and leaves them related. *)
Definition respects {S A} (R : S → S → Prop) (m : eff S A) : Prop :=
  ∀ s t, R s t → (m s).1 = (m t).1 ∧ R (m s).2 (m t).2.

(** [d[k]] on the field list of a dictionary. *)
Fixpoint assoc (k : string) (d : list (string * value)) : option value :=
  match d with
  | [] => None
  | (k', v) :: d' => if String.eqb k' k then Some v else assoc k d'
  end.

(** [v.get(k, dflt)]: only a dictionary has the method. *)
Definition dict_get (v : value) (k : string) (dflt : value) : result value :=
  match v with
  | VDict d => Ok (default dflt (assoc k d))
  | _ => Raise AttributeError
  end.

(** [v[k]] for a string [k]: a missing key is a [KeyError]; a list or a
    string takes integer indices only, the other values are not
    subscriptable. *)
Definition subscript (v : value) (k : string) : result value :=
  match v with
  | VDict d => match assoc k d with Some x => Ok x | None => Raise KeyError end
  | _ => Raise TypeError
  end.

(** [bool(v)]. *)
Definition truthy (v : value) : bool :=
  match v with
  | VNone => false
  | VBool b => b
  | VInt n => negb (n =? 0)%Z
  | VStr s => negb (String.eqb s "")
  | VList l => match l with [] => false | _ => true end
  | VDict d => match d with [] => false | _ => true end
  end.

Fixpoint chars (s : string) : list value :=
  match s with
  | EmptyString => []
  | String c s' => VStr (String c EmptyString) :: chars s'
  end.

(** [list(iter(v))]: the items of a list, the keys of a dictionary, the
    characters of a string. *)
Definition iter (v : value) : result (list value) :=
  match v with
  | VList l => Ok l
  | VDict d => Ok (map (λ kv, VStr kv.1) d)
  | VStr s => Ok (chars s)
  | _ => Raise TypeError
  end.

(** [all(v)]. *)
Definition all (v : value) : result bool :=
  forallb truthy <$> iter v.

(** [len(v)]. *)
Definition len (v : value) : result nat :=
  match v with
  | VList l => Ok (length l)
  | VDict d => Ok (length d)
  | VStr s => Ok (String.length s)
  | _ => Raise TypeError
  end.

(** [a == b].  [True] and [False] are the integers 1 and 0; dictionaries
    compare as maps. *)
Fixpoint py_eq (a b : value) : bool :=
  match a, b with
  | VNone, VNone => true
  | VBool x, VBool y => Bool.eqb x y
  | VBool x, VInt y => (Z.b2z x =? y)%Z
  | VInt x, VBool y => (x =? Z.b2z y)%Z
  | VInt x, VInt y => (x =? y)%Z
  | VStr x, VStr y => String.eqb x y
  | VList xs, VList ys =>
      (fix go (xs ys : list value) : bool :=
         match xs, ys with
         | [], [] => true
         | x :: xs', y :: ys' => py_eq x y && go xs' ys'
         | _, _ => false
         end) xs ys
  | VDict d, VDict e =>
      (length d =? length e) &&
      (fix go (d : list (string * value)) : bool :=
         match d with
         | [] => true
         | (k, x) :: d' =>
             match assoc k e with
             | Some y => py_eq x y
             | None => false
             end && go d'
         end) d
  | _, _ => false
  end.

(** Hashable values as dictionary keys.  Python's [hash] and [==] identify
    [True] with [1] and [False] with [0]. *)
Inductive hkey : Set :=
| KNone
| KInt (n : Z)
| KStr (s : string).

#[global] Instance hkey_eq_dec : EqDecision hkey.
Proof. solve_decision. Defined.

#[global] Instance hkey_countable : Countable hkey.
Proof.
  refine (inj_countable'
    (λ k, match k with
          | KNone => inl ()
          | KInt n => inr (inl n)
          | KStr s => inr (inr s)
          end)
    (λ x, match x with
          | inl _ => KNone
          | inr (inl n) => KInt n
          | inr (inr s) => KStr s
          end) _).
  by intros [].
Defined.

(** [hash(v)]: lists and dictionaries are unhashable. *)
Definition hash_key (v : value) : result hkey :=
  match v with
  | VNone => Ok KNone
  | VBool b => Ok (KInt (Z.b2z b))
  | VInt n => Ok (KInt n)
  | VStr s => Ok (KStr s)
  | VList _ | VDict _ => Raise TypeError
  end.

(** [l[i]] on a Python list, for [0 <= i]. *)
Definition index {A} (l : list A) (i : nat) : result A :=
  match l !! i with Some x => Ok x | None => Raise IndexError end.

(** A list comprehension [[x for x in l if p(x)]] whose condition can raise. *)
Fixpoint filterM {A} (p : A → result bool) (l : list A) : result (list A) :=
  match l with
  | [] => Ok []
  | x :: l' =>
      b ← p x;
      r ← filterM p l';
      Ok (if b : bool then x :: r else r)
  end.

End Py.

Import Py.

(* ===================================================================== *)
(** ** The [random] module *)
(* ===================================================================== *)

Module Random.

(** The generator behind [random.seed] and [random.sample]: a state, the
    state a seed fixes, and [_randbelow(n)], which draws a number below [n]
    and advances the state. *)
Class RandomSource (G : Type) : Type := {
  random_seed : Z → G;
  randbelow : nat → G → nat * G;
  randbelow_lt : ∀ n g, 0 < n → (randbelow n g).1 < n
}.

Section sample.
Context {G : Type} `{!RandomSource G} {A : Type}.

(** The selection loop of [random.sample], iteration [i] of [range(k)] with
    [steps] iterations left:
<<
    j = randbelow(n - i)
    result[i] = pool[j]
    pool[j] = pool[n - i - 1]
>>
*)
Fixpoint sample_loop (steps i n : nat) (pool : list A) (g : G)
  : result (list A * G) :=
  match steps with
  | 0 => Ok ([], g)
  | S steps' =>
      let '(j, g1) := randbelow (n - i) g in
      x ← index pool j;
      y ← index pool (n - i - 1);
      '(rest, g2) ← sample_loop steps' (S i) n (<[j := y]> pool) g1;
      Ok (x :: rest, g2)
  end.

(** [random.sample(population, k)]: [ValueError] unless [0 <= k <= n], then
    [k] members at pairwise distinct positions.  The standard library
    selects from a copy of the population (the loop above) when the
    population is small, and by drawing positions again until one is new
    when it is large; the loop is the one modelled, since the other returns
    only under a generator that eventually draws a new position. *)
Definition sample (population : list A) (k : Z) (g : G)
  : result (list A * G) :=
  let n := length population in
  if bool_decide (0 ≤ k ≤ Z.of_nat n)%Z
  then sample_loop (Z.to_nat k) 0 n population g
  else Raise ValueError.

End sample.

(** A linear congruential generator, to run the model on concrete inputs. *)
Definition lcg_next (s : Z) : Z := ((1103515245 * s + 12345) mod 2147483648)%Z.

#[global, refine] Instance lcg : RandomSource Z := {|
  random_seed a := (a mod 2147483648)%Z;
  randbelow n s := (Z.to_nat (lcg_next s mod Z.of_nat n), lcg_next s)
|}.
Proof.
  intros n g Hn. simpl.
  pose proof (Z.mod_pos_bound (lcg_next g) (Z.of_nat n)). lia.
Defined.

End Random.

Import Random.

(* ===================================================================== *)
(** ** preprocess.py *)
(* ===================================================================== *)

Module Preprocess.

(** [has_valid_concepts(conversation)]. *)
Definition has_valid_concepts (conversation : value) : result bool :=
  assignment ← dict_get conversation "assignment" (VDict []);
  concepts ← dict_get assignment "concepts" (VList []);
  if truthy concepts then all concepts else Ok false.

(** [get_student_reading(conversation)]. *)
Definition get_student_reading (conversation : value) : result value :=
  assignment ← dict_get conversation "assignment" (VDict []);
  ty ← dict_get assignment "assignment_type" VNone;
  if py_eq ty (VStr "Reading Responses")
  then dict_get assignment "text" VNone
  else dict_get conversation "student_work" VNone.

(** [conv["assignment"]["_id"]]. *)
Definition assignment_id_of (conv : value) : result value :=
  assignment ← subscript conv "assignment";
  subscript assignment "_id".

(** *** [collections.Counter] over hashable values, in insertion order *)

Definition counter : Type := list (value * nat).

Fixpoint counter_incr (k : value) (c : counter) : counter :=
  match c with
  | [] => [(k, 1)]
  | (k', n) :: c' =>
      if py_eq k' k then (k', S n) :: c' else (k', n) :: counter_incr k c'
  end.

(** [Counter(conv["assignment"]["_id"] for conv in data)]. *)
Fixpoint count_assignments (convs : list value) (c : counter) : result counter :=
  match convs with
  | [] => Ok c
  | conv :: rest =>
      i ← assignment_id_of conv;
      _ ← hash_key i;
      count_assignments rest (counter_incr i c)
  end.

(** [max(items, key=itemgetter(1))]: the first entry with the largest count. *)
Fixpoint max_count (best : value * nat) (c : counter) : value * nat :=
  match c with
  | [] => best
  | x :: c' => max_count (if best.2 <? x.2 then x else best) c'
  end.

(** [c.most_common(1)]. *)
Definition most_common_1 (c : counter) : list (value * nat) :=
  match c with
  | [] => []
  | x :: c' => [max_count x c']
  end.

(** *** The three artifacts *)

(** One row of [conversations.parquet]. *)
Record summary_row : Type := {
  conversation_id : value;
  assignment_id : value;
  assignment_name : value;
  assignment_type : value;
  assignment_subject : value;
  assignment_grade : value;
  has_concepts : bool;
  concepts : value;
  student_id : value;
  student_name : value;
  teacher_id : value;
  teacher_name : value;
  student_reading : value;
  is_popular_assignment : bool
}.

(** A dictionary keyed by conversation id: its entries in insertion order,
    each under the key object it was first stored with. *)
Abbreviation lookup_table := (list (value * value)).

(** The entries of [d] after [d[k] = v] for a hashable [k]: an entry whose
    key equals [k] keeps its place and its key and takes the new value,
    otherwise the entry is added at the end. *)
Fixpoint dict_update (k v : value) (d : lookup_table) : lookup_table :=
  match d with
  | [] => [(k, v)]
  | (k', v') :: d' =>
      if py_eq k' k then (k', v) :: d' else (k', v') :: dict_update k v d'
  end.

(** [d[k] = v]. *)
Definition dict_set (d : lookup_table) (k v : value) : result lookup_table :=
  _ ← hash_key k;
  Ok (dict_update k v d).

(** A JSON object as it stands in a file: its members in order, each a name
    with a value.  Nothing keeps two members from having the same name. *)
Definition json_object : Type := list (string * value).

(** The name [json.dump] writes for a dictionary key: a string as it is, an
    integer in decimal, [True], [False] and [None] as "true", "false" and
    "null"; any other key is refused. *)
Definition json_key (k : value) : result string :=
  match k with
  | VStr s => Ok s
  | VInt n => Ok (pretty n)
  | VBool b => Ok (if b then "true" else "false")
  | VNone => Ok "null"
  | VList _ | VDict _ => Raise TypeError
  end.

(** [json.dump(d, f)] for a dictionary [d]: one member per entry, in
    order. *)
Fixpoint json_dump (d : lookup_table) : result json_object :=
  match d with
  | [] => Ok []
  | (k, v) :: d' =>
      name ← json_key k;
      members ← json_dump d';
      Ok ((name, v) :: members)
  end.

(** The content of [popular_assignment.json]. *)
Record popular_extract : Type := {
  extract_assignment_id : value;
  extract_assignment_name : value;
  extract_conversations : json_object
}.

(** Lines 108-132: the flattened record of one conversation. *)
Definition summary_record (most_popular_assignment_id conv : value)
  : result summary_row :=
  assignment ← dict_get conv "assignment" (VDict []);
  student ← dict_get conv "student" (VDict []);
  teacher ← dict_get conv "teacher" (VDict []);
  reading ← get_student_reading conv;
  conv_id ← dict_get conv "_id" VNone;
  a_id ← dict_get assignment "_id" VNone;
  a_title ← dict_get assignment "title" VNone;
  a_type ← dict_get assignment "assignment_type" VNone;
  a_subject ← dict_get assignment "subject" VNone;
  a_grade ← dict_get assignment "grade" VNone;
  flag ← has_valid_concepts conv;
  a_concepts ← dict_get assignment "concepts" (VList []);
  s_id ← dict_get student "_id" VNone;
  s_name ← dict_get student "name" VNone;
  t_id ← dict_get teacher "_id" VNone;
  t_name ← dict_get teacher "name" VNone;
  i ← assignment_id_of conv;
  Ok {|
    conversation_id := conv_id;
    assignment_id := a_id;
    assignment_name := a_title;
    assignment_type := a_type;
    assignment_subject := a_subject;
    assignment_grade := a_grade;
    has_concepts := flag;
    concepts := a_concepts;
    student_id := s_id;
    student_name := s_name;
    teacher_id := t_id;
    teacher_name := t_name;
    student_reading := reading;
    is_popular_assignment := py_eq i most_popular_assignment_id
  |}.

(** The body of the loop over [sampled_conversations] (lines 107-138). *)
Definition process_conversation (most_popular_assignment_id : value)
    (acc : list summary_row * lookup_table * lookup_table) (conv : value)
  : result (list summary_row * lookup_table * lookup_table) :=
  let '(conversations, raw_conversations, popular_assignment_data) := acc in
  record ← summary_record most_popular_assignment_id conv;
  let conv_id := conversation_id record in
  raw_conversations ← dict_set raw_conversations conv_id conv;
  i ← assignment_id_of conv;
  popular_assignment_data ←
    (if py_eq i most_popular_assignment_id
     then dict_set popular_assignment_data conv_id conv
     else Ok popular_assignment_data);
  Ok (conversations ++ [record], raw_conversations, popular_assignment_data).

(** [for conv in sampled_conversations: ...]. *)
Fixpoint process_conversations (most_popular_assignment_id : value)
    (sampled : list value)
    (acc : list summary_row * lookup_table * lookup_table)
  : result (list summary_row * lookup_table * lookup_table) :=
  match sampled with
  | [] => Ok acc
  | conv :: rest =>
      acc' ← process_conversation most_popular_assignment_id acc conv;
      process_conversations most_popular_assignment_id rest acc'
  end.

(** [s.replace(old, new)] for a non-empty [old]: occurrences are found from
    the left and do not overlap.  [skip] counts the characters of a matched
    occurrence still to be passed over. *)
Fixpoint replace_from (old new : string) (skip : nat) (s : string) : string :=
  match s with
  | EmptyString => EmptyString
  | String c s' =>
      match skip with
      | S k => replace_from old new k s'
      | 0 =>
          if String.prefix old s
          then new +:+ replace_from old new (String.length old - 1) s'
          else String c (replace_from old new 0 s')
      end
  end.

Definition replace (old new s : string) : string := replace_from old new 0 s.

(** The repair of the source text:
    [content.replace(",]", "]").replace(",}", "}")]. *)
Definition repair (content : string) : string :=
  replace ",}" "}" (replace ",]" "]" content).

(** *** The run: files, standard output and the generator *)

(** A file of the output directory. [open(path, "w")] leaves it [Truncated]
    until something is written. *)
Inductive file (A : Type) : Type :=
| Missing
| Truncated
| Holds (content : A).
Arguments Missing {A}.
Arguments Truncated {A}.
Arguments Holds {A} content.

(** What the run prints; the numbers and fields a message interpolates are
    kept, its wording is not. *)
Inductive message : Type :=
| ErrorDecodingJson
| AttemptingFix
| UnableToFix
| InitialCounts (n_with n_without n_popular : nat)
| FinalSampling (n_with n_without n_popular total : nat)
| BreakdownTitle (v : value)
| BreakdownType (v : value)
| BreakdownSubject (v : value)
| BreakdownGrade (v : value)
| StorageInfo.

Section run.
Context {G : Type} `{!RandomSource G}.

(** The JSON decoder of the standard library: [None] for a
    [JSONDecodeError]. *)
Variable json_loads : string → option value.

(** [pd.DataFrame(conversations).to_parquet(path)]: [None] when the
    parquet engine stores the table, and the exception it raises when it
    refuses it: [ArrowInvalid], a [ValueError], or [ArrowTypeError], a
    [TypeError], for a column that mixes types, [OverflowError] for an
    integer beyond 64 bits. *)
Variable to_parquet : list summary_row → option exn.

(** Everything the run reads and writes: the text of [conversations.json]
    (the file is there), the state of the module-level generator, the
    directory [processed_data] with its three files, the lines printed, and
    the texts handed to the JSON decoder so far. *)
Record world : Type := World {
  source : string;
  rng : G;
  processed_data : bool;
  summary_file : file (list summary_row);
  raw_file : file json_object;
  popular_file : file popular_extract;
  stdout : list message;
  decoded : list string
}.

Abbreviation io := (eff world).

Definition with_rng (g : G) (w : world) : world :=
  World (source w) g (processed_data w) (summary_file w) (raw_file w)
    (popular_file w) (stdout w) (decoded w).

Definition with_processed_data (b : bool) (w : world) : world :=
  World (source w) (rng w) b (summary_file w) (raw_file w)
    (popular_file w) (stdout w) (decoded w).

Definition with_summary_file (f : file (list summary_row)) (w : world) : world :=
  World (source w) (rng w) (processed_data w) f (raw_file w)
    (popular_file w) (stdout w) (decoded w).

Definition with_raw_file (f : file json_object) (w : world) : world :=
  World (source w) (rng w) (processed_data w) (summary_file w) f
    (popular_file w) (stdout w) (decoded w).

Definition with_popular_file (f : file popular_extract) (w : world) : world :=
  World (source w) (rng w) (processed_data w) (summary_file w) (raw_file w)
    f (stdout w) (decoded w).

Definition with_stdout (out : list message) (w : world) : world :=
  World (source w) (rng w) (processed_data w) (summary_file w) (raw_file w)
    (popular_file w) out (decoded w).

Definition with_decoded (texts : list string) (w : world) : world :=
  World (source w) (rng w) (processed_data w) (summary_file w) (raw_file w)
    (popular_file w) (stdout w) texts.

Definition print (m : message) : io unit := λ w,
  (Ok (), with_stdout (stdout w ++ [m]) w).

(** [Path("processed_data").mkdir(exist_ok=True)]. *)
Definition mkdir : io unit := λ w, (Ok (), with_processed_data true w).

(** [json.load(f)] and [json.loads(content)]. *)
Definition decode (content : string) : io (option value) := λ w,
  (Ok (json_loads content), with_decoded (decoded w ++ [content]) w).

(** [f.read()] on [conversations.json]. *)
Definition read_source : io string := λ w, (Ok (source w), w).

(** Lines 141-142: the table is written only if the engine takes it. *)
Definition write_summary (conversations : list summary_row) : io unit := λ w,
  match to_parquet conversations with
  | Some e => (Raise e, w)
  | None => (Ok (), with_summary_file (Holds conversations) w)
  end.

Definition set_raw_file (f : file json_object) : io unit := λ w,
  (Ok (), with_raw_file f w).

Definition set_popular_file (f : file popular_extract) : io unit := λ w,
  (Ok (), with_popular_file f w).

(** [random.sample(population, k)] on the module-level generator. *)
Definition random_sample (population : list value) (k : Z) : io (list value) :=
  λ w,
  match sample population k (rng w) with
  | Ok (chosen, g) => (Ok chosen, with_rng g w)
  | Raise e => (Raise e, w)
  end.

(** [random.seed(a)]. *)
Definition seed (a : Z) : io unit := λ w, (Ok (), with_rng (random_seed a) w).

(** Lines 37-53: load the source, with one repair of a malformed text.
    [None] stands for the [return] of line 53. *)
Definition load_conversations : io (option value) :=
  content ← read_source;
  data ← decode content;
  match data with
  | Some data => mret (Some data)
  | None =>
      _ ← print ErrorDecodingJson;
      _ ← print AttemptingFix;
      content ← read_source;
      data ← decode (repair content);
      match data with
      | Some data => mret (Some data)
      | None => _ ← print UnableToFix; mret None
      end
  end.

(** Lines 55-75: the most popular assignment and the three partitions
    [(popular, with_concepts, without_concepts)]. *)
Definition most_popular (convs : list value) : result (value * nat) :=
  assignment_counts ← count_assignments convs [];
  index (most_common_1 assignment_counts) 0.

Definition is_popular (most_popular_assignment_id conv : value) : result bool :=
  i ← assignment_id_of conv;
  Ok (py_eq i most_popular_assignment_id).

Definition partition (most_popular_assignment_id : value) (convs : list value)
  : result (list value * list value * list value) :=
  popular_assignment_conversations ←
    filterM (is_popular most_popular_assignment_id) convs;
  remaining_conversations ←
    filterM (λ conv, negb <$> is_popular most_popular_assignment_id conv) convs;
  with_concepts ← filterM has_valid_concepts remaining_conversations;
  without_concepts ←
    filterM (λ conv, negb <$> has_valid_concepts conv) remaining_conversations;
  Ok (popular_assignment_conversations, with_concepts, without_concepts).

(** Lines 84-87: the two draws. *)
Definition sample_pools (base_conversations : Z)
    (with_concepts without_concepts : list value)
  : io (list value * list value) :=
  let half := (base_conversations `div` 2)%Z in
  with_sampled ←
    random_sample with_concepts (half `min` Z.of_nat (length with_concepts))%Z;
  without_sampled ←
    random_sample without_concepts
      (half `min` Z.of_nat (length without_concepts))%Z;
  mret (with_sampled, without_sampled).

(** [popular_assignment_conversations[0]["assignment"][field]]. *)
Definition first_assignment_field (popular : list value) (field : string)
  : result value :=
  first ← index popular 0;
  assignment ← subscript first "assignment";
  subscript assignment field.

(** The collection a run works on: the decoded source, or the decoded
    repaired source when the source itself does not decode. *)
Definition input_collection (content : string) : option value :=
  match json_loads content with
  | Some data => Some data
  | None => json_loads (repair content)
  end.

(** Lines 140-159: the three files, in the order they are written.  Each
    JSON file is opened (and so emptied) before [json.dump] is given its
    argument. *)
Definition write_artifacts (most_popular_assignment_id : value)
    (popular_assignment_conversations : list value)
    (conversations : list summary_row)
    (raw_conversations popular_assignment_data : lookup_table) : io unit :=
  _ ← write_summary conversations;
  _ ← set_raw_file Truncated;
  members ← lift (json_dump raw_conversations);
  _ ← set_raw_file (Holds members);
  _ ← set_popular_file Truncated;
  title ← lift (first_assignment_field popular_assignment_conversations "title");
  members ← lift (json_dump popular_assignment_data);
  set_popular_file (Holds {|
    extract_assignment_id := most_popular_assignment_id;
    extract_assignment_name := title;
    extract_conversations := members |}).

(** Lines 161-184: the closing report. *)
Definition print_breakdown (popular_assignment_conversations : list value)
  : io unit :=
  title ← lift (first_assignment_field popular_assignment_conversations "title");
  _ ← print (BreakdownTitle title);
  ty ← lift (first_assignment_field popular_assignment_conversations
               "assignment_type");
  _ ← print (BreakdownType ty);
  subject ← lift (first_assignment_field popular_assignment_conversations
                    "subject");
  _ ← print (BreakdownSubject subject);
  grade ← lift (first_assignment_field popular_assignment_conversations "grade");
  _ ← print (BreakdownGrade grade);
  print StorageInfo.

(** Lines 55-184: everything after the source is loaded. *)
Definition process_collection (base_conversations : Z) (data : value)
  : io unit :=
  convs ← lift (iter data);
  '(most_popular_assignment_id, popular_count) ← lift (most_popular convs);
  '(popular_assignment_conversations, with_concepts, without_concepts) ←
    lift (partition most_popular_assignment_id convs);
  _ ← print (InitialCounts (length with_concepts) (length without_concepts)
               (length popular_assignment_conversations));
  '(with_concepts, without_concepts) ←
    sample_pools base_conversations with_concepts without_concepts;
  let sampled_conversations :=
    with_concepts ++ without_concepts ++ popular_assignment_conversations in
  _ ← print (FinalSampling (length with_concepts) (length without_concepts)
               (length popular_assignment_conversations)
               (length sampled_conversations));
  '(conversations, raw_conversations, popular_assignment_data) ←
    lift (process_conversations most_popular_assignment_id
            sampled_conversations ([], [], []));
  _ ← write_artifacts most_popular_assignment_id
        popular_assignment_conversations conversations raw_conversations
        popular_assignment_data;
  print_breakdown popular_assignment_conversations.

(** [preprocess_data(base_conversations)]. *)
Definition preprocess_data (base_conversations : Z) : io unit :=
  _ ← mkdir;
  loaded ← load_conversations;
  match loaded with
  | None => mret ()
  | Some data => process_collection base_conversations data
  end.

End run.

Arguments world G : clear implicits.

End Preprocess.

Import Preprocess.

(* ===================================================================== *)
(** ** app.py *)
(* ===================================================================== *)

Module App.

(** *** More built-ins *)

(** [needle in s] for two strings. *)
Fixpoint is_substring (needle s : string) : bool :=
  String.prefix needle s ||
  match s with
  | EmptyString => false
  | String _ s' => is_substring needle s'
  end.

(** [k in v] for a string [k]. *)
Definition contains (v : value) (k : string) : result bool :=
  match v with
  | VDict d => Ok (bool_decide (is_Some (assoc k d)))
  | VList l => Ok (existsb (λ x, py_eq (VStr k) x) l)
  | VStr s => Ok (is_substring k s)
  | _ => Raise TypeError
  end.

(** [v[i]] for an index [0 <= i]. *)
Definition item (v : value) (i : nat) : result value :=
  match v with
  | VList l => index l i
  | VStr s => index (chars s) i
  | VDict _ => Raise KeyError
  | _ => Raise TypeError
  end.

(** [container[key]] for a key that is itself a value. *)
Definition getitem (container key : value) : result value :=
  match container, key with
  | VDict d, VStr k => subscript container k
  | VDict d, (VList _ | VDict _) => Raise TypeError
  | VDict d, _ => Raise KeyError
  | (VList _ | VStr _), (VInt _ | VBool _) =>
      let i := match key with VInt i => i | VBool b => Z.b2z b | _ => 0%Z end in
      n ← len container;
      if (i <? 0)%Z
      then (if (i + Z.of_nat n <? 0)%Z then Raise IndexError
            else item container (Z.to_nat (i + Z.of_nat n)))
      else item container (Z.to_nat i)
  | _, _ => Raise TypeError
  end.

(** [text + v] for a string literal [text]. *)
Definition concat (text : string) (v : value) : result string :=
  match v with
  | VStr s => Ok (text +:+ s)
  | _ => Raise TypeError
  end.

(** [", ".join(items)]. *)
Fixpoint join (items : list value) : result string :=
  match items with
  | [] => Ok ""
  | [x] => concat "" x
  | x :: rest =>
      first ← concat "" x;
      others ← join rest;
      Ok (first +:+ ", " +:+ others)
  end.

(** *** The page *)

(** What the script puts on the page, in order.  A select box shows each
    option with the assignment name its label is formatted from.  The table
    read from [conversations.parquet] is taken cell by cell as the values of
    its rows, as [pd.read_parquet] returns them: [VNone] stands for a
    missing cell, and a cell that holds a sequence is a numpy array. *)
Inductive element : Type :=
| StError (text : string)
| StSidebarTitle (text : string)
| StSidebarInfo (text : string)
| StSidebarSelectbox (label : string) (options : list string)
| StSidebarMetric (label : string) (n : nat)
| StTitle (text : string)
| StSelectbox (label : string) (options : list (value * value))
| StColumns (n : nat)
| StWriteField (label : string) (v : value)
| StWriteJoined (label text : string)
| StDivider
| StTabs (labels : list string)
| StExpander (label : string)
| StInfo (text : string)
| StWarning (text : string)
| StWrite (text : string)
| StWriteValue (v : value)
| StMarkdown (v : value).

Abbreviation script := (eff (list element)).

Definition show (e : element) : script unit := λ page, (Ok (), page ++ [e]).

(** [st.stop()]. *)
Definition stop : script unit := λ page, (Raise StopException, page).

(** The two files the viewer reads. *)
Record files : Type := Files {
  conversations_parquet : option (list summary_row);
  raw_conversations_json : option value
}.

(** What the user picked in the two select boxes: positions in the lists
    of options, the first option being the default. *)
Record session : Type := Session {
  concept_choice : nat;
  conversation_choice : nat
}.

(** [d[name] = v] while [json.load] builds a dictionary: a name that is
    there keeps its place and takes the new value. *)
Fixpoint put (name : string) (v : value) (d : list (string * value))
  : list (string * value) :=
  match d with
  | [] => [(name, v)]
  | (name', v') :: d' =>
      if String.eqb name' name then (name', v) :: d'
      else (name', v') :: put name v d'
  end.

(** [json.load(f)] on a file that holds a JSON object: a dictionary with
    one key per name. *)
Definition json_load_object (members : json_object) : value :=
  VDict (foldl (λ d member, put member.1 member.2 d) [] members).

(** [load_data()]. *)
Definition load_data (fs : files) : result (list summary_row * value) :=
  df ← match conversations_parquet fs with
       | Some df => Ok df
       | None => Raise FileNotFoundError
       end;
  raw_conversations ← match raw_conversations_json fs with
                      | Some v => Ok v
                      | None => Raise FileNotFoundError
                      end;
  Ok (df, raw_conversations).

Definition concept_options : list string :=
  ["All conversations"; "Teacher-selected questions";
   "100% AI selected questions"].

Definition question_labels : list string :=
  ["I1: Hook Question";
   "BQ1: Recall Question";
   "P1: Probing Question (Follow-up to BQ1)";
   "BQ2: Analytical Question";
   "P2: Probing Question (Follow-up to BQ2)";
   "BQ3: Open-ended Question"].

Definition question_descriptions : list string :=
  ["Intrigues the student about the reading";
   "Simple retrieve and recall question with a discrete answer";
   "Follow-up probing question for Question 2";
   "More challenging analytical question requiring synthesis";
   "Probing question based on the student's response to Question 4";
   "Abstract, open-ended question to stimulate creativity"].

(** The concept a teacher attached to question [i] (lines 123-134), if the
    assignment has a [conversation_flow] entry at position [i - 1]. *)
Definition flow_concept (conversation_data : value) (i : nat) : script unit :=
  assignment ← lift (dict_get conversation_data "assignment" (VDict []));
  has_flow ← lift (contains assignment "conversation_flow");
  in_range ←
    (if has_flow : bool
     then lift (a ← subscript conversation_data "assignment";
                flow ← subscript a "conversation_flow";
                n ← len flow;
                Ok (i - 1 <? n))
     else mret false);
  if in_range : bool
  then
    concept ← lift (a ← subscript conversation_data "assignment";
                    flow ← subscript a "conversation_flow";
                    entry ← item flow (i - 1);
                    dict_get entry "concept" VNone);
    if truthy concept
    then
      text ← lift (concat "**Teacher asked AI to include this concept:** "
                     concept);
      show (StWarning text)
    else mret ()
  else mret ().

(** The body of the loop over the questions (lines 121-141), [i] counting
    from 1. *)
Definition render_question (conversation_data : value) (i : nat)
    (question : value) : script unit :=
  label ← lift (index question_labels (i - 1));
  _ ← show (StExpander label);
  description ← lift (index question_descriptions (i - 1));
  _ ← show (StInfo ("**Question Type:** " +:+ description));
  _ ← flow_concept conversation_data i;
  _ ← show (StWrite "**Question:**");
  q ← lift (subscript question "question");
  _ ← show (StWriteValue q);
  _ ← show (StWrite "**Student Response:**");
  r ← lift (subscript question "response");
  _ ← show (StWriteValue r);
  has_improved ← lift (contains question "improved_response");
  improved ←
    (if has_improved : bool
     then lift (truthy <$> subscript question "improved_response")
     else mret false);
  if improved : bool
  then
    _ ← show (StWrite "**Improved Response (GPT-improved):**");
    v ← lift (subscript question "improved_response");
    show (StWriteValue v)
  else mret ().

(** [for i, question in enumerate(questions, i): ...]. *)
Fixpoint render_questions_from (conversation_data : value) (i : nat)
    (questions : list value) : script unit :=
  match questions with
  | [] => mret ()
  | question :: rest =>
      _ ← render_question conversation_data i question;
      render_questions_from conversation_data (S i) rest
  end.

(** The Questions tab (lines 119-141). *)
Definition render_questions (conversation_data : value) : script unit :=
  questions ← lift (qs ← subscript conversation_data "questions"; iter qs);
  render_questions_from conversation_data 1 questions.

(** One cell of [df[column] == x]: pandas compares a missing cell, and any
    cell with [None], as unequal; the other cells are compared with [==].
    (The column is the one of the conversation ids, which are hashable
    values: no cell of it is a sequence.) *)
Definition cell_eq (cell x : value) : bool :=
  match cell, x with
  | VNone, _ | _, VNone => false
  | _, _ => py_eq cell x
  end.

(** [isinstance(cell, list)] on a cell of the table: a sequence is read
    back as a numpy array, so no cell is a list. *)
Definition is_list_cell (cell : value) : bool := false.

(** [pd.notna(cell) and cell] as the condition of an [if].  A missing cell
    fails the test.  For a sequence, which is an array, [pd.notna] answers
    member by member, and an array has a truth value only when it has
    exactly one member: any other array raises [ValueError] (the empty
    one since numpy 2.2). *)
Definition notna_and_truthy (cell : value) : result bool :=
  match cell with
  | VNone => Ok false
  | VList [x] => Ok (match x with VNone => false | _ => truthy x end)
  | VList _ => Raise ValueError
  | _ => Ok (truthy cell)
  end.

(** [df[df["conversation_id"] == x].iloc[0]]. *)
Definition row_of (df : list summary_row) (x : value) : result summary_row :=
  index (filter (λ r, cell_eq (conversation_id r) x = true) df) 0.

(** The options of the conversation picker, each with the assignment name
    that [format_func] looks up for it in [filtered_df]. *)
Fixpoint option_labels (filtered_df rows : list summary_row)
  : result (list (value * value)) :=
  match rows with
  | [] => Ok []
  | r :: rest =>
      named ← row_of filtered_df (conversation_id r);
      others ← option_labels filtered_df rest;
      Ok ((conversation_id r, assignment_name named) :: others)
  end.

(** The detail view of the selected conversation (lines 73-147). *)
Definition render_conversation (df : list summary_row)
    (raw_conversations selected_conversation : value) : script unit :=
  conversation_data ← lift (getitem raw_conversations selected_conversation);
  metadata ← lift (row_of df selected_conversation);
  let reading_type :=
    if py_eq (assignment_type metadata) (VStr "Reading Responses")
    then "Reading" else "Student Work" in
  _ ← show (StColumns 3);
  _ ← show (StWriteField "**Assignment:**" (assignment_name metadata));
  _ ← show (StWriteField "**Subject:**" (assignment_subject metadata));
  _ ← show (StWriteField "**Grade:**" (assignment_grade metadata));
  _ ← show (StWriteField "**Type:**" (assignment_type metadata));
  _ ← show (StWriteField "**Student:**" (student_name metadata));
  concepts_given ←
    (if is_list_cell (concepts metadata)
     then lift ((λ n, 0 <? n) <$> len (concepts metadata))
     else mret false);
  _ ← (if concepts_given : bool
       then
         text ← lift (items ← iter (concepts metadata); join items);
         show (StWriteJoined "**Concepts:**" text)
       else mret ());
  _ ← show (StWriteField "**Teacher:**" (teacher_name metadata));
  _ ← show StDivider;
  _ ← show (StTabs ["Questions"; reading_type]);
  _ ← render_questions conversation_data;
  has_reading ← lift (notna_and_truthy (student_reading metadata));
  if has_reading : bool
  then show (StMarkdown (student_reading metadata))
  else show (StWrite "No student work/reading available for this conversation.").

(** The script, top to bottom. *)
Definition app (fs : files) (user : session) : script unit :=
  _ ← (if bool_decide (conversations_parquet fs = None)
       then
         _ ← show (StError
                "Preprocessed data not found. Please run preprocess.py first.");
         stop
       else mret ());
  '(df, raw_conversations) ← lift (load_data fs);
  _ ← show (StSidebarTitle "Filters");
  _ ← show (StSidebarInfo
    ("Note about teacher-selected questions: Teachers can specify concepts they want to cover, "
     +:+ "which are then incorporated into the AI's question generation process. While teachers "
     +:+ "cannot directly specify the exact questions, they can influence the conversation by "
     +:+ "suggesting key concepts they want students to explore. The AI still makes the final "
     +:+ "decision on how to frame and ask the questions."));
  _ ← show (StSidebarSelectbox "Concept Filter" concept_options);
  let selected_concepts :=
    default "All conversations" (concept_options !! concept_choice user) in
  let filtered_df :=
    if String.eqb selected_concepts "Teacher-selected questions"
    then filter (λ r, has_concepts r = true) df
    else if String.eqb selected_concepts "100% AI selected questions"
    then filter (λ r, has_concepts r = false) df
    else df in
  _ ← show (StSidebarMetric "Filtered Conversations" (length filtered_df));
  _ ← show (StTitle "Conversation Viewer");
  options ← lift (option_labels filtered_df filtered_df);
  _ ← show (StSelectbox "Select Conversation" options);
  let selected_conversation :=
    match filtered_df with
    | [] => VNone
    | first :: _ =>
        conversation_id (default first (filtered_df !! conversation_choice user))
    end in
  if truthy selected_conversation
  then render_conversation df raw_conversations selected_conversation
  else show (StWrite "Please select a conversation to view.").

(** How a run of the script ends: Streamlit swallows the exception of
    [st.stop()] and displays any other. *)
Inductive outcome : Set :=
| Finished
| Stopped
| Uncaught (e : exn).

Definition run_app (fs : files) (user : session) : outcome * list element :=
  match app fs user [] with
  | (Ok _, page) => (Finished, page)
  | (Raise StopException, page) => (Stopped, page)
  | (Raise e, page) => (Uncaught e, page)
  end.

End App.

Import App.

(* ===================================================================== *)
(** ** A small collection to run the model on *)
(* ===================================================================== *)

Module Examples.

(** A conversation of assignment [aid] with the given concepts. *)
Definition conversation (cid aid : string) (cs : list string) : value :=
  VDict [("_id", VStr cid);
         ("assignment",
          VDict [("_id", VStr aid);
                 ("title", VStr ("Assignment " +:+ aid));
                 ("assignment_type", VStr "Essay");
                 ("subject", VStr "Science");
                 ("grade", VInt 5);
                 ("concepts", VList (VStr <$> cs))]);
         ("student", VDict [("_id", VStr "s1"); ("name", VStr "Sam")]);
         ("teacher", VDict [("_id", VStr "t1"); ("name", VStr "Kim")]);
         ("student_work", VStr "My essay");
         ("questions", VList [])].

(** Six conversations: three of assignment A (the most popular), two of B
    and one of C; two of the others carry valid concepts. *)
Definition six_conversations : list value :=
  [conversation "c1" "A" [];
   conversation "c2" "B" ["gravity"];
   conversation "c3" "A" ["cells"];
   conversation "c4" "C" [];
   conversation "c5" "B" [""; "photosynthesis"];
   conversation "c6" "A" []].

(** A decoder that knows one document. *)
Definition decoder_of (text : string) (data : value) (s : string)
  : option value :=
  if String.eqb s text then Some data else None.

(** A parquet engine that stores every table. *)
Definition stores_all (rows : list summary_row) : option exn := None.

(** A fresh run: no output directory yet, the generator in state 7. *)
Definition fresh (text : string) : world Z :=
  World text 7%Z false Missing Missing Missing [] [].

(** A question with its answer. *)
Definition question (text answer : string) : value :=
  VDict [("question", VStr text); ("response", VStr answer)].

(** A raw record with the given questions; the teacher attached the
    concept "gravity" to the third question. *)
Definition record_with (questions : list value) : value :=
  VDict [("_id", VStr "c1");
         ("assignment",
          VDict [("_id", VStr "A");
                 ("title", VStr "Assignment A");
                 ("conversation_flow",
                  VList [VDict []; VDict [("concept", VNone)];
                         VDict [("concept", VStr "gravity")]])]);
         ("questions", VList questions)].

Definition seven_questions : list value :=
  [question "Q1" "R1"; question "Q2" "R2"; question "Q3" "R3";
   question "Q4" "R4"; question "Q5" "R5"; question "Q6" "R6";
   question "Q7" "R7"].

End Examples.

(* ===================================================================== *)
(** ** Vocabulary of the specification *)
(* ===================================================================== *)

Module Spec.

(** A concepts sequence is valid when it is non-empty and none of its
    members is the empty string. *)
Definition valid_concepts (cs : list string) : Prop :=
  cs ≠ [] ∧ Forall (λ s, s ≠ "") cs.

#[global] Instance valid_concepts_dec cs : Decision (valid_concepts cs).
Proof. unfold valid_concepts. apply _. Defined.

(** The dictionary key of a conversation: its [_id], hashed. *)
Definition conversation_key (conv : value) : result hkey :=
  i ← dict_get conv "_id" VNone;
  hash_key i.

(** The keys of the records of a collection that have one. *)
Definition conversation_keys (convs : list value) : list hkey :=
  omap (λ conv, to_option (conversation_key conv)) convs.

(** Conversation ids are unique: no two records of the collection have the
    same key. *)
Definition unique_ids (convs : list value) : Prop :=
  NoDup (conversation_keys convs).

(** The key of a row of the summary table. *)
Definition row_key (r : summary_row) : result hkey :=
  hash_key (conversation_id r).

(** Whether a record belongs to the assignment [i]. *)
Definition of_assignment (i conv : value) : bool :=
  match assignment_id_of conv with
  | Ok j => py_eq j i
  | Raise _ => false
  end.

(** The assignment id of a record as a dictionary key, when it has one. *)
Definition assignment_key (conv : value) : option hkey :=
  match assignment_id_of conv with
  | Ok i => to_option (hash_key i)
  | Raise _ => None
  end.

(** How many records of the collection belong to the assignment with key
    [k]. *)
Definition key_count (k : hkey) (convs : list value) : nat :=
  length (filter (λ conv, assignment_key conv = Some k) convs).

(** The keys of the entries of a counter. *)
Definition counter_keys (c : counter) : list hkey :=
  omap (λ e, to_option (hash_key e.1)) c.

(** The counter after the records [seen]: its entries have pairwise
    distinct keys, each counts the records of its assignment, and every
    record seen has an entry. *)
Record counted (c : counter) (seen : list value) : Prop := Counted {
  counted_distinct : NoDup (counter_keys c);
  counted_exact :
    ∀ v n, (v, n) ∈ c → ∃ k, hash_key v = Ok k ∧ n = key_count k seen;
  counted_all :
    ∀ conv, conv ∈ seen →
      ∃ k v n, assignment_key conv = Some k ∧ (v, n) ∈ c ∧ hash_key v = Ok k
}.

(** How many records of the collection belong to the assignment [i]. *)
Definition occurrences (i : value) (convs : list value) : nat :=
  length (filter (λ conv, of_assignment i conv = true) convs).

(** A dictionary after the entries of a list have been stored in it, in
    order. *)
Definition stored (d : lookup_table) (entries : list (value * value))
  : lookup_table :=
  foldl (λ d kv, dict_update kv.1 kv.2 d) d entries.

(** The keys of the entries of a dictionary. *)
Definition table_keys (d : lookup_table) : list hkey :=
  omap (λ e, to_option (hash_key e.1)) d.

(** A dictionary as a finite map: what each key resolves to. *)
Definition to_map (d : lookup_table) : gmap hkey value :=
  foldr (λ kv m, match hash_key kv.1 with
                 | Ok h => <[h := kv.2]> m
                 | Raise _ => m
                 end) ∅ d.

(** A finite map after the entries of a list have been stored in it, in
    order: a later entry replaces an earlier one with the same key. *)
Definition recorded (m : gmap hkey value) (entries : list (hkey * value))
  : gmap hkey value :=
  foldl (λ m kv, <[kv.1 := kv.2]> m) m entries.

(** The conversation id of a record, when it is a string. *)
Definition string_id (conv : value) : option string :=
  match dict_get conv "_id" VNone with
  | Ok (VStr s) => Some s
  | _ => None
  end.

(** Conversation ids are strings: every record of the collection has a
    string for its [_id]. *)
Definition string_ids (convs : list value) : Prop :=
  Forall (λ conv, is_Some (string_id conv)) convs.

(** The names of the members of a JSON object, in order. *)
Definition names (members : json_object) : list string := members.*1.



(** Two runs that started from the files [a0] and [b0] agree on a file
    when both have written the same content or neither has written. *)
Definition file_agrees {A} (a0 b0 a b : file A) : Prop :=
  a = b ∨ (a = a0 ∧ b = b0).

(** What two runs of the preprocessor have in common when they read the
    same source with the same generator state: [w0] and [v0] are the states
    they started from. *)
Definition agree {G} (w0 v0 w v : world G) : Prop :=
  source w = source v ∧
  rng w = rng v ∧
  file_agrees (summary_file w0) (summary_file v0) (summary_file w) (summary_file v) ∧
  file_agrees (raw_file w0) (raw_file v0) (raw_file w) (raw_file v) ∧
  file_agrees (popular_file w0) (popular_file v0) (popular_file w) (popular_file v).

(** The test harness of the reproducibility property: seed the generator,
    then run the preprocessor. *)
Definition seeded_run {G} `{!RandomSource G} (json_loads : string → option value)
    (to_parquet : list summary_row → option exn)
    (a : Z) (base_conversations : Z) : eff (world G) () :=
  _ ← seed a;
  preprocess_data json_loads to_parquet base_conversations.

(** *** Records the viewer is meant for (the data model of the corpus) *)

(** A question has a text and a response. *)
Definition well_formed_question (q : value) : bool :=
  match q with
  | VDict d =>
      bool_decide (is_Some (assoc "question" d)) &&
      bool_decide (is_Some (assoc "response" d))
  | _ => false
  end.

(** An entry of [conversation_flow] carries a concept string or none. *)
Definition well_formed_flow_entry (entry : value) : bool :=
  match entry with
  | VDict d =>
      match assoc "concept" d with
      | None | Some VNone | Some (VStr _) => true
      | Some _ => false
      end
  | _ => false
  end.

(** An assignment carries a sequence of flow entries or none. *)
Definition well_formed_assignment (a : value) : bool :=
  match a with
  | VDict d =>
      match assoc "conversation_flow" d with
      | None => true
      | Some (VList entries) => forallb well_formed_flow_entry entries
      | Some _ => false
      end
  | _ => false
  end.

(** A raw record with its sequence of questions. *)
Definition well_formed_record (conversation_data : value) : bool :=
  match conversation_data with
  | VDict d =>
      match assoc "assignment" d with
      | None => true
      | Some a => well_formed_assignment a
      end &&
      match assoc "questions" d with
      | Some (VList qs) => forallb well_formed_question qs
      | _ => false
      end
  | _ => false
  end.

(** The text of a question. *)
Definition question_text (q : value) : option value :=
  to_option (subscript q "question").

(** The first value written on a page before the next expander opens. *)
Fixpoint first_written (page : list element) : option value :=
  match page with
  | [] => None
  | StExpander _ :: _ => None
  | StWriteValue v :: _ => Some v
  | _ :: rest => first_written rest
  end.

(** The expanders of a page in order, each label with the first value
    written under it: the label a question is shown under, and its text. *)
Fixpoint labelled (page : list element) : list (string * option value) :=
  match page with
  | [] => []
  | StExpander label :: rest => (label, first_written rest) :: labelled rest
  | _ :: rest => labelled rest
  end.

End Spec.

Import Spec.

(* ===================================================================== *)
(** ** Collections the pipeline accepts *)
(* ===================================================================== *)

Module Corpus.

(** A value that can be the key of a dictionary. *)
Definition hashable (v : value) : bool := is_ok (hash_key v).

(** A [concepts] field that [bool(concepts) and all(concepts)] can test:
    anything but a number other than zero and [True], which are truthy and
    cannot be iterated. *)
Definition testable_concepts (v : value) : bool :=
  match v with
  | VInt n => (n =? 0)%Z
  | VBool b => negb b
  | _ => true
  end.

(** A field that holds a dictionary when it is there. *)
Definition optional_dict (d : list (string * value)) (k : string) : bool :=
  match assoc k d with
  | None | Some (VDict _) => true
  | Some _ => false
  end.

(** A conversation as the corpus has them: a dictionary with a hashable
    [_id] (or none), with dictionaries for [student] and [teacher] where it
    has them, and with an [assignment] dictionary that has a hashable [_id]
    and [concepts] that can be tested. *)
Definition well_formed_conversation (conv : value) : bool :=
  match conv with
  | VDict d =>
      hashable (default VNone (assoc "_id" d)) &&
      optional_dict d "student" &&
      optional_dict d "teacher" &&
      match assoc "assignment" d with
      | Some (VDict a) =>
          match assoc "_id" a with
          | Some i => hashable i
          | None => false
          end &&
          testable_concepts (default (VList []) (assoc "concepts" a))
      | _ => false
      end
  | _ => false
  end.

(** The key of the assignment of a record, or the exception that counting
    the record raises (line 56). *)
Definition counted_key (conv : value) : result hkey :=
  i ← assignment_id_of conv;
  hash_key i.

(** The last member of a list that satisfies [p]. *)
Definition last_such {A} (p : A → bool) (l : list A) : option A :=
  last (filter (λ x, p x = true) l).

(** Whether the record has the dictionary key [k]. *)
Definition has_key (k : hkey) (conv : value) : bool :=
  bool_decide (conversation_key conv = Ok k).

(** The parquet engine stores every table the run can build for the
    collection: the rows of distinct members of it, [popular] being the most
    popular assignment. *)
Definition storable (to_parquet : list summary_row → option exn)
    (popular : value) (convs : list value) : Prop :=
  ∀ selected rows,
    selected ⊆+ convs →
    Forall2 (λ row conv, summary_record popular conv = Ok row) rows selected →
    to_parquet rows = None.

(** A dictionary as the loop keeps it: the keys are hashable and pairwise
    distinct. *)
Definition well_keyed (d : lookup_table) : Prop :=
  Forall (λ e, hashable e.1 = true) d ∧ NoDup (table_keys d).

(** Two runs leave the same output: the same generator state and the same
    three files. *)
Definition same_output {G} (w v : world G) : Prop :=
  rng w = rng v ∧
  summary_file w = summary_file v ∧
  raw_file w = raw_file v ∧
  popular_file w = popular_file v.

End Corpus.

Import Corpus.

(* ===================================================================== *)
(** ** What the viewer has on its page *)
(* ===================================================================== *)

Module Page.

(** The rows the concept filter lets through (lines 51-56), by the position
    in [concept_options] of the option picked. *)
Definition visible (choice : nat) (df : list summary_row) : list summary_row :=
  match choice with
  | 1 => filter (λ r, has_concepts r = true) df
  | 2 => filter (λ r, has_concepts r = false) df
  | _ => df
  end.

(** The row whose id the conversation picker returns: the one at the
    position picked, the first one by default, none when there is no row
    to pick. *)
Definition picked (choice : nat) (rows : list summary_row)
  : option summary_row :=
  match rows with
  | [] => None
  | first :: _ => Some (default first (rows !! choice))
  end.

(** The number the sidebar shows. *)
Fixpoint metric (page : list element) : option nat :=
  match page with
  | [] => None
  | StSidebarMetric _ n :: _ => Some n
  | _ :: rest => metric rest
  end.

(** The options of the conversation picker, each with the assignment name
    in its label. *)
Fixpoint picker (page : list element) : option (list (value * value)) :=
  match page with
  | [] => None
  | StSelectbox _ options :: _ => Some options
  | _ :: rest => picker rest
  end.

(** The names of the two tabs. *)
Fixpoint tabs (page : list element) : option (list string) :=
  match page with
  | [] => None
  | StTabs labels :: _ => Some labels
  | _ :: rest => tabs rest
  end.

(** The first row of a table whose conversation id the table compares
    equal to [x]. *)
Definition first_with_id (x : value) (rows : list summary_row)
  : option summary_row :=
  head (filter (λ r, cell_eq (conversation_id r) x = true) rows).

(** A cell that holds a string. *)
Definition string_cell (cell : value) : bool :=
  match cell with VStr _ => true | _ => false end.



(** The entries of [conversation_flow] of a raw record, none when the
    record has no such sequence. *)
Definition flow_entries (record : value) : list value :=
  match record with
  | VDict d =>
      match assoc "assignment" d with
      | Some (VDict a) =>
          match assoc "conversation_flow" a with
          | Some (VList entries) => entries
          | _ => []
          end
      | _ => []
      end
  | _ => []
  end.

(** The concept a flow entry asks for, when it names one. *)
Definition teacher_concept (entry : value) : option string :=
  match entry with
  | VDict e =>
      match assoc "concept" e with
      | Some (VStr s) => if String.eqb s "" then None else Some s
      | _ => None
      end
  | _ => None
  end.

(** Whether a question comes with an improved response to show. *)
Definition has_improved (question : value) : bool :=
  match question with
  | VDict d =>
      match assoc "improved_response" d with
      | Some v => truthy v
      | None => false
      end
  | _ => false
  end.

(** The texts of the warnings on a page, in order. *)
Fixpoint warnings (page : list element) : list string :=
  match page with
  | [] => []
  | StWarning text :: rest => text :: warnings rest
  | _ :: rest => warnings rest
  end.

(** How many improved responses a page announces. *)
Fixpoint improved_shown (page : list element) : nat :=
  match page with
  | [] => 0
  | StWrite text :: rest =>
      (if String.eqb text "**Improved Response (GPT-improved):**"
       then 1 else 0) + improved_shown rest
  | _ :: rest => improved_shown rest
  end.

End Page.

Import Page.

(* ===================================================================== *)
(** ** More records to run the model on *)
(* ===================================================================== *)

Module Samples.

(** A record whose assignment has an id and nothing else. *)
Definition untitled (cid aid : string) : value :=
  VDict [("_id", VStr cid); ("assignment", VDict [("_id", VStr aid)])].

(** A record whose assignment has a title, a type and a subject, but no
    grade. *)
Definition ungraded (cid aid : string) : value :=
  VDict [("_id", VStr cid);
         ("assignment",
          VDict [("_id", VStr aid);
                 ("title", VStr ("Assignment " +:+ aid));
                 ("assignment_type", VStr "Essay");
                 ("subject", VStr "Science")])].

(** A record of assignment A with the given conversation id and grade. *)
Definition record (cid grade : value) : value :=
  VDict [("_id", cid);
         ("assignment",
          VDict [("_id", VStr "A");
                 ("title", VStr "Assignment A");
                 ("assignment_type", VStr "Essay");
                 ("subject", VStr "Science");
                 ("grade", grade);
                 ("concepts", VList [VStr "gravity"])]);
         ("student", VDict [("_id", VStr "s1"); ("name", VStr "Sam")]);
         ("teacher", VDict [("_id", VStr "t1"); ("name", VStr "Kim")]);
         ("student_work", VStr "My essay");
         ("questions", VList [])].

(** The record "cid" with the given grade. *)
Definition graded (cid : string) (grade : value) : value :=
  record (VStr cid) grade.

(** The record of grade 5 whose conversation id is the value [cid]. *)
Definition with_id (cid : value) : value := record cid (VInt 5).

(** A parquet engine that takes integer grades only: a string among them
    is refused with a [ValueError]. *)
Definition integer_grades (rows : list summary_row) : option exn :=
  if forallb (λ r, match assignment_grade r with
                   | VInt _ | VNone => true
                   | _ => false
                   end) rows
  then None else Some ValueError.

(** Two records with different ids: [null] and the string "null". *)
Definition null_ids : list value :=
  [with_id VNone; with_id (VStr "null")].

(** Two records with different ids, both numbers. *)
Definition integer_ids : list value :=
  [with_id (VInt 7); with_id (VInt 8)].

(** Five records of three assignments, two of which have two records. *)
Definition tied : list value :=
  [Examples.conversation "c1" "B" []; Examples.conversation "c2" "A" [];
   Examples.conversation "c3" "C" []; Examples.conversation "c4" "C" [];
   Examples.conversation "c5" "A" []].

(** A row of the summary table, for the conversation [cid] of an
    assignment called [name]. *)
Definition row (cid : value) (name : string) (flag : bool) : summary_row := {|
  conversation_id := cid;
  assignment_id := VStr "A";
  assignment_name := VStr name;
  assignment_type := VStr "Essay";
  assignment_subject := VStr "Science";
  assignment_grade := VInt 5;
  has_concepts := flag;
  concepts := VList (if flag then [VStr "gravity"] else []);
  student_id := VStr "s1";
  student_name := VStr "Sam";
  teacher_id := VStr "t1";
  teacher_name := VStr "Kim";
  student_reading := VStr "My essay";
  is_popular_assignment := false
|}.

(** A table in which two rows share the id "c1". *)
Definition table : list summary_row :=
  [row (VStr "c1") "First" true; row (VStr "c2") "Second" false;
   row (VStr "c1") "Third" false].

End Samples.

(* ===================================================================== *)
(** * Properties of the built-ins *)
(* ===================================================================== *)

Lemma bind_Ok {A B} (m : result A) (f : A → result B) (b : B) :
  m ≫= f = Ok b → ∃ a, m = Ok a ∧ f a = Ok b.
Proof. destruct m as [a|e]; simpl; [eauto | discriminate]. Qed.

Lemma fmap_Ok {A B} (f : A → B) (m : result A) (b : B) :
  f <$> m = Ok b → ∃ a, m = Ok a ∧ b = f a.
Proof. destruct m as [a|e]; simpl; [|discriminate]. intros [= <-]. eauto. Qed.

(** Take a successful chain of binds apart, one step at a time. *)
Ltac bind_inv H :=
  repeat
    (let a := fresh "x" in
     let Ha := fresh "E" in
     apply bind_Ok in H as (a & Ha & H)).

Lemma py_eq_str (v : value) (s : string) :
  py_eq v (VStr s) = true ↔ v = VStr s.
Proof.
  destruct v; simpl; try (split; [discriminate | intros [=]]).
  rewrite String.eqb_eq. split; [by intros -> | by intros [= ->]].
Qed.

Lemma py_eq_hash (a b : value) (ka kb : hkey) :
  hash_key a = Ok ka → hash_key b = Ok kb →
  py_eq a b = bool_decide (ka = kb).
Proof.
  destruct a as [|x|x|x| |], b as [|y|y|y| |]; simpl;
    intros [= <-] [= <-]; try done.
  - destruct x, y; done.
  - destruct (Z.eqb_spec (Z.b2z x) y) as [->|Hne].
    + by rewrite bool_decide_eq_true_2.
    + rewrite bool_decide_eq_false_2; [done | by intros [= ?]].
  - destruct (Z.eqb_spec x (Z.b2z y)) as [->|Hne].
    + by rewrite bool_decide_eq_true_2.
    + rewrite bool_decide_eq_false_2; [done | by intros [= ?]].
  - destruct (Z.eqb_spec x y) as [->|Hne].
    + by rewrite bool_decide_eq_true_2.
    + rewrite bool_decide_eq_false_2; [done | by intros [= ?]].
  - destruct (String.eqb_spec x y) as [->|Hne].
    + by rewrite bool_decide_eq_true_2.
    + rewrite bool_decide_eq_false_2; [done | by intros [= ?]].
Qed.

(** A sub-multiset of a list without repetitions has none. *)
Lemma submseteq_NoDup {A} (l k : list A) : l ⊆+ k → NoDup k → NoDup l.
Proof.
  intros (l' & Hperm & Hsub)%submseteq_sublist_r Hk.
  rewrite Hperm. by eapply sublist_NoDup.
Qed.

Lemma omap_submseteq {A B} (f : A → option B) (l k : list A) :
  l ⊆+ k → omap f l ⊆+ omap f k.
Proof.
  induction 1 as [|x l1 l2 _ IH|x y l|x l1 l2 _ IH|l1 l2 l3 _ IH1 _ IH2];
    cbn [omap list_omap].
  - done.
  - destruct (f x); [by apply submseteq_skip | done].
  - destruct (f x), (f y); try done.
    + apply submseteq_swap.
  - destruct (f x); [by apply submseteq_cons | done].
  - by etrans.
Qed.

(* ===================================================================== *)
(** * The two helpers of the preprocessor *)
(* ===================================================================== *)

Lemma all_strings_truthy (cs : list string) :
  forallb truthy (VStr <$> cs) = bool_decide (Forall (λ s, s ≠ "") cs).
Proof.
  induction cs as [|c cs IH]; [done|].
  cbn [fmap list_fmap forallb truthy]. rewrite IH.
  destruct (String.eqb_spec c "") as [->|Hc]; cbn [negb andb].
  - symmetry. apply bool_decide_eq_false_2. by intros [? _]%Forall_cons_1.
  - apply eq_true_iff_eq. rewrite !bool_decide_eq_true, Forall_cons. tauto.
Qed.

(** On a sequence of strings, [bool(concepts) and all(concepts)] decides
    validity. *)
Lemma concepts_flag (cs : list string) :
  (if truthy (VList (VStr <$> cs)) then all (VList (VStr <$> cs)) else Ok false)
  = Ok (bool_decide (valid_concepts cs)).
Proof.
  destruct cs as [|c cs].
  - reflexivity.
  - change (truthy _) with true. cbv iota. unfold all, iter. cbn [fmap result_fmap].
    rewrite all_strings_truthy. f_equal.
    apply eq_true_iff_eq. rewrite !bool_decide_eq_true. unfold valid_concepts.
    split; [by intros Hall | by intros [_ Hall]].
Qed.

(** C5.  The derived [has_concepts] flag of a conversation whose assignment
    carries the concepts sequence [cs] is true exactly when [cs] is
    non-empty and each of its members is a non-empty string; this is what
    [has_valid_concepts] returns and what the summary row records.  An
    absent [concepts] field counts as the empty sequence. *)
Theorem has_concepts_iff_valid (conv assignment : value) (cs : list string) :
  dict_get conv "assignment" (VDict []) = Ok assignment →
  dict_get assignment "concepts" (VList []) = Ok (VList (VStr <$> cs)) →
  has_valid_concepts conv = Ok (bool_decide (valid_concepts cs)) ∧
  ∀ popular row,
    summary_record popular conv = Ok row →
    has_concepts row = bool_decide (valid_concepts cs).
Proof.
  intros Ha Hc.
  assert (Hflag : has_valid_concepts conv = Ok (bool_decide (valid_concepts cs))).
  { unfold has_valid_concepts. rewrite Ha. cbn [mbind result_bind].
    rewrite Hc. cbn [mbind result_bind]. apply concepts_flag. }
  split; [exact Hflag|].
  intros popular row Hrow. unfold summary_record in Hrow.
  bind_inv Hrow. injection Hrow as <-. cbn [has_concepts]. congruence.
Qed.

Lemma has_concepts_iff_valid_witness :
  has_valid_concepts
    (VDict [("_id", VStr "c1");
            ("assignment",
             VDict [("_id", VStr "a1");
                    ("concepts", VList [VStr ""; VStr "photosynthesis"])])])
  = Ok false.
Proof.
  exact (proj1 (has_concepts_iff_valid
    (VDict [("_id", VStr "c1");
            ("assignment",
             VDict [("_id", VStr "a1");
                    ("concepts", VList [VStr ""; VStr "photosynthesis"])])])
    (VDict [("_id", VStr "a1");
            ("concepts", VList [VStr ""; VStr "photosynthesis"])])
    [""; "photosynthesis"] eq_refl eq_refl)).
Defined.

(** C6.  The resolved reading of a conversation is [assignment.text] when
    the assignment type is "Reading Responses" and the record's
    [student_work] for every other type (an absent field reads as [None]);
    the summary row stores exactly this value in [student_reading]. *)
Theorem student_reading_resolution (conv assignment ty : value) :
  dict_get conv "assignment" (VDict []) = Ok assignment →
  dict_get assignment "assignment_type" VNone = Ok ty →
  (ty = VStr "Reading Responses" →
   get_student_reading conv = dict_get assignment "text" VNone) ∧
  (ty ≠ VStr "Reading Responses" →
   get_student_reading conv = dict_get conv "student_work" VNone) ∧
  ∀ popular row,
    summary_record popular conv = Ok row →
    get_student_reading conv = Ok (student_reading row).
Proof.
  intros Ha Hty.
  assert (Hget : get_student_reading conv =
                 if py_eq ty (VStr "Reading Responses")
                 then dict_get assignment "text" VNone
                 else dict_get conv "student_work" VNone).
  { unfold get_student_reading. rewrite Ha. cbn [mbind result_bind].
    by rewrite Hty. }
  split; [|split].
  - intros Heq. apply py_eq_str in Heq. by rewrite Hget, Heq.
  - intros Hne. rewrite Hget.
    destruct (py_eq ty (VStr "Reading Responses")) eqn:Heq; [|done].
    by apply py_eq_str in Heq.
  - intros popular row Hrow. unfold summary_record in Hrow.
    bind_inv Hrow. injection Hrow as <-. by cbn [student_reading].
Qed.

Lemma student_reading_resolution_witness :
  get_student_reading
    (VDict [("_id", VStr "c1");
            ("assignment",
             VDict [("_id", VStr "a1");
                    ("assignment_type", VStr "Reading Responses");
                    ("text", VStr "The cell is the unit of life.")]);
            ("student_work", VStr "My essay")])
  = Ok (VStr "The cell is the unit of life.") ∧
  get_student_reading
    (VDict [("_id", VStr "c2");
            ("assignment",
             VDict [("_id", VStr "a2"); ("assignment_type", VStr "Essay");
                    ("text", VStr "unused")]);
            ("student_work", VStr "My essay")])
  = Ok (VStr "My essay").
Proof.
  split.
  - exact (proj1 (student_reading_resolution
      (VDict [("_id", VStr "c1");
              ("assignment",
               VDict [("_id", VStr "a1");
                      ("assignment_type", VStr "Reading Responses");
                      ("text", VStr "The cell is the unit of life.")]);
              ("student_work", VStr "My essay")])
      (VDict [("_id", VStr "a1");
              ("assignment_type", VStr "Reading Responses");
              ("text", VStr "The cell is the unit of life.")])
      (VStr "Reading Responses") eq_refl eq_refl) eq_refl).
  - refine (proj1 (proj2 (student_reading_resolution
      (VDict [("_id", VStr "c2");
              ("assignment",
               VDict [("_id", VStr "a2"); ("assignment_type", VStr "Essay");
                      ("text", VStr "unused")]);
              ("student_work", VStr "My essay")])
      (VDict [("_id", VStr "a2"); ("assignment_type", VStr "Essay");
              ("text", VStr "unused")])
      (VStr "Essay") eq_refl eq_refl)) _).
    discriminate.
Defined.

(* ===================================================================== *)
(** * Sampling without replacement *)
(* ===================================================================== *)

Section sampling.
Context {G : Type} `{!RandomSource G}.

(** Overwriting position [j] of a list with [y] and setting the old member
    aside keeps the same members as appending [y]. *)
Lemma insert_set_aside {A} (l : list A) (j : nat) (x y : A) :
  l !! j = Some x → <[j := y]> l ++ [x] ≡ₚ l ++ [y].
Proof.
  revert j. induction l as [|a l IH]; intros [|j] Hj; simplify_eq/=.
  - by rewrite (Permutation_app_comm l [y]), (Permutation_app_comm l [x]),
      <-!app_comm_cons, Permutation_swap.
  - f_equiv. by apply IH.
Qed.

(** One round of the selection loop moves a member of the first [m]
    positions out of the pool. *)
Lemma selection_round {A} (pool : list A) (m j : nat) (x y : A) :
  j < m → pool !! j = Some x → pool !! (m - 1) = Some y →
  x :: take (m - 1) (<[j := y]> pool) ≡ₚ take m pool.
Proof.
  intros Hj Hx Hy.
  replace m with (S (m - 1)) at 2 by lia.
  rewrite (take_S_r _ _ y) by done.
  destruct (decide (j = m - 1)) as [->|Hne].
  - assert (x = y) as -> by congruence.
    rewrite list_insert_id by done. apply Permutation_cons_append.
  - rewrite take_insert_lt by lia.
    rewrite Permutation_cons_append. apply insert_set_aside.
    rewrite lookup_take_lt by lia. done.
Qed.

Lemma sample_loop_spec {A} (steps : nat) :
  ∀ (i n : nat) (pool : list A) (g : G),
    length pool = n → i + steps ≤ n →
    ∃ chosen g',
      sample_loop steps i n pool g = Ok (chosen, g') ∧
      length chosen = steps ∧
      chosen ⊆+ take (n - i) pool.
Proof.
  induction steps as [|steps IH]; intros i n pool g Hlen Hsteps.
  { exists [], g. split_and!; [done | done | apply submseteq_nil_l]. }
  cbn [sample_loop].
  pose proof (randbelow_lt (n - i) g ltac:(lia)) as Hj.
  destruct (randbelow (n - i) g) as [j g1]. cbn [fst] in Hj.
  destruct (lookup_lt_is_Some_2 pool j ltac:(lia)) as [x Hx].
  destruct (lookup_lt_is_Some_2 pool (n - i - 1) ltac:(lia)) as [y Hy].
  unfold index. rewrite Hx, Hy. cbn [mbind result_bind].
  destruct (IH (S i) n (<[j := y]> pool) g1) as (rest & g2 & -> & Hl & Hsub).
  { by rewrite length_insert. }
  { lia. }
  cbn [mbind result_bind]. exists (x :: rest), g2.
  split_and!; [done | by rewrite <-Hl |].
  rewrite <-(selection_round pool (n - i) j x y) by done.
  apply submseteq_skip. by replace (n - i - 1) with (n - S i) by lia.
Qed.

(** [random.sample] returns [k] members of the population, none of them
    taken twice, whenever [0 <= k <= n]. *)
Lemma sample_spec {A} (population : list A) (k : Z) (g : G) :
  (0 ≤ k ≤ Z.of_nat (length population))%Z →
  ∃ chosen g',
    sample population k g = Ok (chosen, g') ∧
    length chosen = Z.to_nat k ∧
    chosen ⊆+ population.
Proof.
  intros Hk. unfold sample. rewrite bool_decide_eq_true_2 by done.
  destruct (sample_loop_spec (Z.to_nat k) 0 (length population) population g)
    as (chosen & g' & Hrun & Hlen & Hsub); [done | lia |].
  exists chosen, g'. split_and!; [done | done |].
  by rewrite Nat.sub_0_r, firstn_all in Hsub.
Qed.

Lemma sample_value_error {A} (population : list A) (k : Z) (g : G) :
  (k < 0 ∨ Z.of_nat (length population) < k)%Z →
  sample population k g = Raise ValueError.
Proof.
  intros Hk. unfold sample. rewrite bool_decide_eq_false_2; [done | lia].
Qed.

(** The draw of [min(half, len(pool))] members from one pool. *)
Lemma random_sample_min (half : Z) (pool : list value) (w : world G) :
  (0 ≤ half)%Z →
  ∃ chosen g,
    random_sample pool (half `min` Z.of_nat (length pool))%Z w
      = (Ok chosen, with_rng g w) ∧
    Z.of_nat (length chosen) = (half `min` Z.of_nat (length pool))%Z ∧
    chosen ⊆+ pool ∧
    ((Z.of_nat (length pool) ≤ half)%Z → chosen ≡ₚ pool).
Proof.
  intros Hhalf.
  destruct (sample_spec pool (half `min` Z.of_nat (length pool))%Z (rng w))
    as (chosen & g & Hrun & Hlen & Hsub); [lia|].
  exists chosen, g. unfold random_sample. rewrite Hrun.
  split_and!; [done | lia | done |].
  intros Hsmall. apply submseteq_length_Permutation; [done | lia].
Qed.

(** C1, as amended.  For every pair of pools and every non-negative base
    count, the two draws succeed: each sample has exactly
    [min(base_count // 2, len(pool))] members, it is drawn from its pool
    without replacement (a sub-multiset of the pool: no member is taken
    twice, so a pool without repetitions gives a sample without
    repetitions), and a pool with no more than [base_count // 2] members is
    taken whole.  Only the generator's state changes. *)
Theorem sampling_without_replacement (base_conversations : Z)
    (with_concepts without_concepts : list value) (w : world G) :
  (0 ≤ base_conversations)%Z →
  let half := (base_conversations `div` 2)%Z in
  ∃ with_sampled without_sampled g,
    sample_pools base_conversations with_concepts without_concepts w
      = (Ok (with_sampled, without_sampled), with_rng g w) ∧
    Z.of_nat (length with_sampled)
      = (half `min` Z.of_nat (length with_concepts))%Z ∧
    Z.of_nat (length without_sampled)
      = (half `min` Z.of_nat (length without_concepts))%Z ∧
    with_sampled ⊆+ with_concepts ∧
    without_sampled ⊆+ without_concepts ∧
    (NoDup with_concepts → NoDup with_sampled) ∧
    (NoDup without_concepts → NoDup without_sampled) ∧
    ((Z.of_nat (length with_concepts) < half)%Z →
     with_sampled ≡ₚ with_concepts) ∧
    ((Z.of_nat (length without_concepts) < half)%Z →
     without_sampled ≡ₚ without_concepts).
Proof.
  intros Hbase half.
  assert (0 ≤ half)%Z as Hhalf by (apply Z.div_pos; lia).
  destruct (random_sample_min half with_concepts w Hhalf)
    as (ws & g1 & Hrun1 & Hlen1 & Hsub1 & Hall1).
  destruct (random_sample_min half without_concepts (with_rng g1 w) Hhalf)
    as (wos & g2 & Hrun2 & Hlen2 & Hsub2 & Hall2).
  exists ws, wos, g2. split.
  { unfold sample_pools. fold half. unfold mbind, eff_bind.
    rewrite Hrun1, Hrun2. done. }
  split_and!; try done.
  - intros Hnd. by eapply submseteq_NoDup.
  - intros Hnd. by eapply submseteq_NoDup.
  - intros Hlt. apply Hall1. lia.
  - intros Hlt. apply Hall2. lia.
Qed.

End sampling.

Lemma sampling_without_replacement_witness :
  let pool_a := [Examples.conversation "c2" "B" ["gravity"]] in
  let pool_b := [Examples.conversation "c4" "C" [];
                 Examples.conversation "c5" "B" [""; "photosynthesis"];
                 Examples.conversation "c7" "D" []] in
  ∃ with_sampled without_sampled g,
    sample_pools 4 pool_a pool_b (Examples.fresh "doc")
      = (Ok (with_sampled, without_sampled), with_rng g (Examples.fresh "doc")) ∧
    Z.of_nat (length with_sampled) = 1%Z ∧
    Z.of_nat (length without_sampled) = 2%Z ∧
    with_sampled ⊆+ pool_a ∧
    without_sampled ⊆+ pool_b ∧
    (NoDup pool_a → NoDup with_sampled) ∧
    (NoDup pool_b → NoDup without_sampled) ∧
    ((1 < 2)%Z → with_sampled ≡ₚ pool_a) ∧
    ((3 < 2)%Z → without_sampled ≡ₚ pool_b).
Proof.
  exact (sampling_without_replacement 4
    [Examples.conversation "c2" "B" ["gravity"]]
    [Examples.conversation "c4" "C" [];
     Examples.conversation "c5" "B" [""; "photosynthesis"];
     Examples.conversation "c7" "D" []]
    (Examples.fresh "doc") ltac:(lia)).
Defined.

(** C1 as stated fails for a negative base count: [min(half, len(pool))] is
    then negative and [random.sample] raises [ValueError], so no sample is
    drawn and the run ends there, before any artifact is written. *)
Lemma negative_base_count_raises :
  sample_pools (-2)
    [Examples.conversation "c2" "B" ["gravity"]]
    [Examples.conversation "c4" "C" []] (Examples.fresh "doc")
  = (Raise ValueError, Examples.fresh "doc") ∧
  preprocess_data
    (Examples.decoder_of "doc" (VList Examples.six_conversations)) Examples.stores_all (-2)
    (Examples.fresh "doc")
  = (Raise ValueError,
     World "doc" 7%Z true Missing Missing Missing [InitialCounts 1 2 3] ["doc"]).
Proof. split; vm_compute; reflexivity. Qed.

(* ===================================================================== *)
(** * The stages of the pipeline *)
(* ===================================================================== *)

Lemma filterM_complement {A} (p : A → result bool) (l r r' : list A) :
  filterM p l = Ok r → filterM (λ x, negb <$> p x) l = Ok r' → r ++ r' ≡ₚ l.
Proof.
  revert r r'. induction l as [|x l IH]; intros r r' Hr Hr'; simplify_eq/=.
  { done. }
  bind_inv Hr. rewrite E in Hr'. cbn [fmap result_fmap mbind result_bind] in Hr'.
  bind_inv Hr'. simplify_eq.
  destruct x0; cbn [negb].
  - simpl. f_equiv. by apply IH.
  - rewrite <-Permutation_middle. f_equiv. by apply IH.
Qed.

Lemma filterM_Forall {A} (p : A → result bool) (l r : list A) :
  filterM p l = Ok r → Forall (λ x, p x = Ok true) r ∧ r `sublist_of` l.
Proof.
  revert r. induction l as [|x l IH]; intros r Hr; simplify_eq/=.
  { split; constructor. }
  bind_inv Hr. simplify_eq. destruct (IH _ E0) as [Hall Hsub].
  destruct x0.
  - split; [by constructor | by constructor].
  - split; [done | by constructor].
Qed.

Lemma filterM_all {A} (p : A → result bool) (l r : list A) :
  filterM p l = Ok r → Forall (λ x, p x = Ok true) l → r = l.
Proof.
  revert r. induction l as [|x l IH]; intros r Hr Hall; simplify_eq/=; [done|].
  inversion_clear Hall as [|?? Hx Hl]. rewrite Hx in Hr. simpl in Hr.
  bind_inv Hr. simplify_eq. f_equal. by apply IH.
Qed.

Lemma partition_spec (mp : value) (convs popular wc woc : list value) :
  partition mp convs = Ok (popular, wc, woc) →
  filterM (is_popular mp) convs = Ok popular ∧
  wc ++ woc ++ popular ≡ₚ convs ∧
  Forall (λ c, is_popular mp c = Ok true) popular ∧
  Forall (λ c, is_popular mp c = Ok false) (wc ++ woc) ∧
  Forall (λ c, has_valid_concepts c = Ok true) wc ∧
  Forall (λ c, has_valid_concepts c = Ok false) woc.
Proof.
  unfold partition. intros H.
  destruct (filterM (is_popular mp) convs) as [pop|] eqn:E; [|done].
  cbn [mbind result_bind] in H.
  destruct (filterM _ convs) as [remaining|] eqn:E0 in H; [|done].
  cbn [mbind result_bind] in H.
  destruct (filterM has_valid_concepts remaining) as [wc'|] eqn:E1; [|done].
  cbn [mbind result_bind] in H.
  destruct (filterM _ remaining) as [woc'|] eqn:E2 in H; [|done].
  cbn [mbind result_bind] in H. simplify_eq.
  pose proof (filterM_complement _ _ _ _ E E0) as Hp1.
  pose proof (filterM_complement _ _ _ _ E1 E2) as Hp2.
  destruct (filterM_Forall _ _ _ E) as [Hpop _].
  destruct (filterM_Forall _ _ _ E0) as [Hrem _].
  destruct (filterM_Forall _ _ _ E1) as [Hwc _].
  destruct (filterM_Forall _ _ _ E2) as [Hwoc _].
  split_and!; try done.
  - by rewrite app_assoc, Hp2, Permutation_app_comm.
  - rewrite Hp2. eapply Forall_impl; [exact Hrem|].
    intros c (b & Hb & ?)%fmap_Ok. by destruct b.
  - eapply Forall_impl; [exact Hwoc|].
    intros c (b & Hb & ?)%fmap_Ok. by destruct b.
Qed.

Lemma summary_record_inv (mp conv : value) (row : summary_row) :
  summary_record mp conv = Ok row →
  dict_get conv "_id" VNone = Ok (conversation_id row) ∧
  ∃ i, assignment_id_of conv = Ok i ∧ is_popular_assignment row = py_eq i mp.
Proof.
  unfold summary_record. intros H. bind_inv H. injection H as <-.
  cbn [conversation_id is_popular_assignment]. eauto.
Qed.

(** *** Dictionaries in insertion order *)

Lemma to_map_cons (k v : value) (h : hkey) (d : lookup_table) :
  hash_key k = Ok h → to_map ((k, v) :: d) = <[h := v]> (to_map d).
Proof. intros Hk. unfold to_map. cbn [foldr fst snd]. by rewrite Hk. Qed.

Lemma table_keys_cons (k v : value) (h : hkey) (d : lookup_table) :
  hash_key k = Ok h → table_keys ((k, v) :: d) = h :: table_keys d.
Proof. intros Hk. unfold table_keys. cbn [omap list_omap fst]. by rewrite Hk. Qed.

Lemma hashable_Ok (v : value) : hashable v = true → ∃ h, hash_key v = Ok h.
Proof. unfold hashable. destruct (hash_key v); [eauto | done]. Qed.

(** Storing under a key that is there replaces the value in place; under
    a new key it adds an entry at the end. *)
Lemma dict_update_entries (k v : value) (h : hkey) (d : lookup_table) :
  hash_key k = Ok h →
  Forall (λ e, hashable e.1 = true) d →
  to_map (dict_update k v d) = <[h := v]> (to_map d) ∧
  (dict_update k v d).*1 = d.*1 ++ (if bool_decide (h ∈ table_keys d) then [] else [k]) ∧
  table_keys (dict_update k v d)
    = table_keys d ++ (if bool_decide (h ∈ table_keys d) then [] else [h]) ∧
  (h ∉ table_keys d → dict_update k v d = d ++ [(k, v)]).
Proof.
  intros Hk. induction 1 as [|[k' v'] d Hk' _ IH].
  { cbn [dict_update]. rewrite (to_map_cons _ _ h), (table_keys_cons _ _ h) by done.
    by rewrite bool_decide_eq_false_2 by apply not_elem_of_nil. }
  destruct IH as (IHm & IHk & IHt & IHf).
  cbn [fst] in Hk'. apply hashable_Ok in Hk' as [h' Hh'].
  cbn [dict_update]. rewrite (py_eq_hash k' k h' h) by done.
  rewrite (table_keys_cons k' v' h') by done.
  destruct (decide (h' = h)) as [->|Hne].
  - rewrite bool_decide_eq_true_2 by done.
    rewrite (bool_decide_eq_true_2 (h ∈ h :: _)) by apply list_elem_of_here.
    rewrite !(to_map_cons k' _ h), (table_keys_cons k' _ h) by done.
    rewrite insert_insert_eq, !app_nil_r. split_and!; try done.
    intros []. apply list_elem_of_here.
  - rewrite bool_decide_eq_false_2 by done.
    rewrite !(to_map_cons k' _ h'), (table_keys_cons k' _ h') by done.
    rewrite IHm, insert_insert_ne by done.
    cbn [fmap list_fmap fst]. fold (fmap (M:=list) (@fst value value)).
    rewrite IHk, IHt.
    assert (bool_decide (h ∈ h' :: table_keys d) = bool_decide (h ∈ table_keys d))
      as ->.
    { apply bool_decide_ext. rewrite elem_of_cons.
      split; [by intros [->|?] | by right]. }
    split_and!; try done.
    intros Hh. rewrite IHf; [done|]. intros ?. apply Hh. by right.
Qed.

Lemma dict_update_hashable (k v : value) (h : hkey) (d : lookup_table) :
  hash_key k = Ok h →
  Forall (λ e, hashable e.1 = true) d →
  Forall (λ e, hashable e.1 = true) (dict_update k v d).
Proof.
  intros Hk Hd. destruct (dict_update_entries k v h d Hk Hd) as (_ & Hkeys & _).
  pose proof (proj2 (Forall_fmap fst (λ k, hashable k = true) d) Hd) as Hd'.
  apply (Forall_fmap fst (λ k, hashable k = true)).
  rewrite Hkeys. apply Forall_app. split; [done|].
  case_bool_decide; [done|]. constructor; [|done]. unfold hashable. by rewrite Hk.
Qed.

Lemma dict_update_NoDup (k v : value) (h : hkey) (d : lookup_table) :
  hash_key k = Ok h →
  Forall (λ e, hashable e.1 = true) d →
  NoDup (table_keys d) → NoDup (table_keys (dict_update k v d)).
Proof.
  intros Hk Hd Hnd. destruct (dict_update_entries k v h d Hk Hd) as (_ & _ & -> & _).
  case_bool_decide; [by rewrite app_nil_r|].
  apply NoDup_app. split_and!; [done | | apply NoDup_singleton].
  intros x Hx ->%list_elem_of_singleton. done.
Qed.

(** The keys of a dictionary are the domain of its map. *)
Lemma dom_to_map (d : lookup_table) :
  dom (to_map d) = list_to_set (table_keys d).
Proof.
  induction d as [|[k v] d IH]; [done|].
  unfold to_map, table_keys in *. cbn [foldr omap list_omap fst snd].
  destruct (hash_key k) as [h|]; cbn [to_option]; [|done].
  cbn [list_to_set]. by rewrite dom_insert_L, IH.
Qed.

Lemma table_keys_length (d : lookup_table) :
  Forall (λ e, hashable e.1 = true) d → length (table_keys d) = length d.
Proof.
  induction 1 as [|[k v] d Hk _ IH]; [done|].
  apply hashable_Ok in Hk as [h Hh]. rewrite (table_keys_cons _ _ h) by done.
  cbn [length]. by rewrite IH.
Qed.

Lemma size_to_map (d : lookup_table) :
  Forall (λ e, hashable e.1 = true) d → NoDup (table_keys d) →
  size (to_map d) = length d.
Proof.
  intros Hd Hnd. rewrite <-size_dom, dom_to_map, size_list_to_set by done.
  by apply table_keys_length.
Qed.

(** Entries with pairwise distinct keys are stored as they come. *)
Lemma stored_distinct (entries : list (value * value)) :
  ∀ d,
    Forall (λ e, hashable e.1 = true) d →
    Forall (λ e, hashable e.1 = true) entries →
    NoDup (table_keys d ++ table_keys entries) →
    stored d entries = d ++ entries.
Proof.
  induction entries as [|[k v] entries IH]; intros d Hd He Hnd.
  { by rewrite app_nil_r. }
  apply Forall_cons in He as [Hk He]. cbn [fst] in Hk.
  destruct (hashable_Ok _ Hk) as [h Hh].
  rewrite (table_keys_cons _ _ h) in Hnd by done.
  unfold stored. cbn [foldl fst snd]. fold (stored (dict_update k v d) entries).
  destruct (dict_update_entries k v h d Hh Hd) as (_ & _ & _ & Hfresh).
  rewrite Hfresh.
  - rewrite IH, <-app_assoc; [done | | done |].
    + apply Forall_app. split; [done|]. by repeat constructor.
    + unfold table_keys in *. rewrite omap_app. cbn [omap list_omap fst].
      rewrite Hh. cbn [to_option]. by rewrite <-app_assoc.
  - apply NoDup_app in Hnd as (_ & Hnd & _). intros Hin.
    apply (Hnd h Hin). apply list_elem_of_here.
Qed.

(** Every entry of a dictionary with hashable keys has a name in a JSON
    file. *)
Lemma json_dump_total (d : lookup_table) :
  Forall (λ e, hashable e.1 = true) d →
  ∃ members, json_dump d = Ok members ∧ members.*2 = d.*2.
Proof.
  induction 1 as [|[k v] d Hk _ (members & IH & Hv)]; [by exists []|].
  cbn [json_dump]. rewrite IH.
  destruct k; try done; cbn [json_key mbind result_bind];
    eexists; (split; [reflexivity|]); cbn; by rewrite Hv.
Qed.

(** String keys are their own names. *)
Lemma json_dump_strings (d : lookup_table) (ns : list string) :
  d.*1 = VStr <$> ns → json_dump d = Ok (zip ns d.*2).
Proof.
  revert ns. induction d as [|[k v] d IH]; intros [|n ns] Hns; try done.
  cbn in Hns. injection Hns as -> Hns. cbn [json_dump json_key mbind result_bind].
  rewrite (IH ns Hns). done.
Qed.

Lemma well_keyed_nil : well_keyed [].
Proof. split; [constructor | apply NoDup_nil_2]. Qed.

Lemma dict_update_well_keyed (k v : value) (h : hkey) (d : lookup_table) :
  hash_key k = Ok h → well_keyed d → well_keyed (dict_update k v d).
Proof.
  intros Hk [Hd Hnd]. split.
  - by eapply dict_update_hashable.
  - by eapply dict_update_NoDup.
Qed.

Lemma dict_update_keys_subseteq (k v : value) (h : hkey) (d : lookup_table) :
  hash_key k = Ok h → well_keyed d → (dict_update k v d).*1 ⊆ d.*1 ++ [k].
Proof.
  intros Hk [Hd _]. destruct (dict_update_entries k v h d Hk Hd) as (_ & -> & _).
  case_bool_decide.
  - rewrite app_nil_r. intros x Hx. apply elem_of_app. by left.
  - done.
Qed.

Lemma process_conversation_spec (mp conv : value)
    (rows rows' : list summary_row) (raw raw' pop pop' : lookup_table) :
  process_conversation mp (rows, raw, pop) conv = Ok (rows', raw', pop') →
  ∃ row k,
    summary_record mp conv = Ok row ∧
    conversation_key conv = Ok k ∧
    row_key row = Ok k ∧
    rows' = rows ++ [row] ∧
    raw' = dict_update (conversation_id row) conv raw ∧
    pop' = if of_assignment mp conv
           then dict_update (conversation_id row) conv pop else pop.
Proof.
  unfold process_conversation. intros H.
  destruct (summary_record mp conv) as [row|] eqn:Hrow; [|done].
  cbn [mbind result_bind] in H.
  destruct (summary_record_inv _ _ _ Hrow) as (Hid & i & Hi & _).
  unfold dict_set in H.
  destruct (hash_key (conversation_id row)) as [k|] eqn:Hk; [|done].
  cbn [mbind result_bind] in H. rewrite Hi in H. cbn [mbind result_bind] in H.
  exists row, k. unfold conversation_key, row_key, of_assignment.
  rewrite Hid, Hi. cbn [mbind result_bind]. rewrite Hk.
  destruct (py_eq i mp); cbn [mbind result_bind] in H; by simplify_eq.
Qed.

(** The loop stores the selected records one by one, each under the
    conversation id of its row. *)
Lemma process_conversations_spec (mp : value) (sel : list value) :
  ∀ (rows rows' : list summary_row) (raw raw' pop pop' : lookup_table),
    process_conversations mp sel (rows, raw, pop) = Ok (rows', raw', pop') →
    ∃ new keys,
      rows' = rows ++ new ∧
      Forall2 (λ row conv, summary_record mp conv = Ok row) new sel ∧
      Forall2 (λ conv k, conversation_key conv = Ok k) sel keys ∧
      Forall2 (λ row k, row_key row = Ok k) new keys ∧
      raw' = stored raw (zip (conversation_id <$> new) sel) ∧
      pop' = stored pop
               (filter (λ kc, of_assignment mp kc.2 = true)
                  (zip (conversation_id <$> new) sel)).
Proof.
  induction sel as [|conv sel IH]; intros rows rows' raw raw' pop pop' H.
  { simplify_eq/=. exists [], []. by rewrite app_nil_r. }
  cbn [process_conversations] in H.
  destruct (process_conversation mp (rows, raw, pop) conv)
    as [[[rows1 raw1] pop1]|] eqn:Hone; [|done].
  cbn [mbind result_bind] in H.
  apply process_conversation_spec in Hone
    as (row & k & Hrow & Hkey & Hrk & -> & -> & ->).
  apply IH in H as (new & keys & -> & Hnew & Hkeys & Hrks & -> & ->).
  exists (row :: new), (k :: keys). split_and!.
  - by rewrite <-app_assoc.
  - by constructor.
  - by constructor.
  - by constructor.
  - done.
  - cbn [fmap list_fmap zip zip_with]. destruct (of_assignment mp conv) eqn:Hpop.
    + by rewrite filter_cons_True.
    + rewrite filter_cons_False; [done|]. cbn [snd]. by rewrite Hpop.
Qed.

(** The same loop on the dictionaries as finite maps. *)
Lemma process_conversations_maps (mp : value) (sel : list value) :
  ∀ (rows rows' : list summary_row) (raw raw' pop pop' : lookup_table),
    process_conversations mp sel (rows, raw, pop) = Ok (rows', raw', pop') →
    well_keyed raw → well_keyed pop →
    ∃ new keys,
      rows' = rows ++ new ∧
      Forall2 (λ row conv, summary_record mp conv = Ok row) new sel ∧
      Forall2 (λ conv k, conversation_key conv = Ok k) sel keys ∧
      Forall2 (λ row k, row_key row = Ok k) new keys ∧
      to_map raw' = recorded (to_map raw) (zip keys sel) ∧
      to_map pop' = recorded (to_map pop)
                      (filter (λ kc, of_assignment mp kc.2 = true) (zip keys sel)) ∧
      well_keyed raw' ∧ well_keyed pop' ∧
      raw'.*1 ⊆ raw.*1 ++ (conversation_id <$> new) ∧
      pop'.*1 ⊆ pop.*1 ++ (conversation_id <$> new).
Proof.
  induction sel as [|conv sel IH];
    intros rows rows' raw raw' pop pop' H Hraw Hpop.
  { simplify_eq/=. exists [], []. rewrite !app_nil_r. by split_and!. }
  cbn [process_conversations] in H.
  destruct (process_conversation mp (rows, raw, pop) conv)
    as [[[rows1 raw1] pop1]|] eqn:Hone; [|done].
  cbn [mbind result_bind] in H.
  apply process_conversation_spec in Hone
    as (row & k & Hrow & Hkey & Hrk & -> & -> & ->).
  unfold row_key in Hrk.
  pose proof (dict_update_well_keyed _ conv _ raw Hrk Hraw) as Hraw1.
  assert (well_keyed (if of_assignment mp conv
                      then dict_update (conversation_id row) conv pop else pop))
    as Hpop1.
  { destruct (of_assignment mp conv); [by eapply dict_update_well_keyed | done]. }
  apply IH in H
    as (new & keys & -> & Hnew & Hkeys & Hrks & Hmr & Hmp & Hr & Hp & Hkr & Hkp);
    [|done..].
  exists (row :: new), (k :: keys). split_and!; try done.
  - by rewrite <-app_assoc.
  - by constructor.
  - by constructor.
  - by constructor.
  - rewrite Hmr. destruct Hraw as [Hraw _].
    by destruct (dict_update_entries _ conv k raw Hrk Hraw) as (-> & _).
  - rewrite Hmp. cbn [zip zip_with]. destruct (of_assignment mp conv) eqn:Hpopular.
    + rewrite filter_cons_True by done. destruct Hpop as [Hpop _].
      by destruct (dict_update_entries _ conv k pop Hrk Hpop) as (-> & _).
    + rewrite filter_cons_False; [done|]. cbn [snd]. by rewrite Hpopular.
  - intros x Hx%Hkr. cbn [fmap list_fmap]. rewrite elem_of_app, elem_of_cons.
    apply elem_of_app in Hx as [Hx|Hx]; [|by right; right].
    apply (dict_update_keys_subseteq _ _ _ _ Hrk Hraw) in Hx.
    apply elem_of_app in Hx as [Hx|Hx%list_elem_of_singleton];
      [by left | by right; left].
  - intros x Hx%Hkp. cbn [fmap list_fmap]. rewrite elem_of_app, elem_of_cons.
    apply elem_of_app in Hx as [Hx|Hx]; [|by right; right].
    destruct (of_assignment mp conv); [|by left].
    apply (dict_update_keys_subseteq _ _ _ _ Hrk Hpop) in Hx.
    apply elem_of_app in Hx as [Hx|Hx%list_elem_of_singleton];
      [by left | by right; left].
Qed.

(** A dictionary whose keys are strings, and its members in a JSON file. *)
Lemma string_keyed_members (d : lookup_table) (ns : list string) :
  d.*1 = VStr <$> ns → NoDup (table_keys d) →
  NoDup ns ∧ table_keys d = KStr <$> ns ∧
  ∀ s v, (s, v) ∈ zip ns d.*2 ↔ to_map d !! KStr s = Some v.
Proof.
  revert ns. induction d as [|[k v] d IH]; intros [|n ns] Hns Hnd; try done.
  { split_and!; [constructor | done |]. intros s v. cbn.
    rewrite lookup_empty. split; [by intros ?%elem_of_nil | done]. }
  cbn in Hns. injection Hns as -> Hns.
  rewrite (table_keys_cons _ _ (KStr n)) in Hnd by done.
  apply NoDup_cons in Hnd as [Hn Hnd].
  destruct (IH ns Hns Hnd) as (IHnd & IHk & IHm).
  rewrite (table_keys_cons _ _ (KStr n)), (to_map_cons _ _ (KStr n)) by done.
  rewrite IHk in Hn |- *.
  assert (n ∉ ns) as Hn'.
  { intros Hin. apply Hn. by apply list_elem_of_fmap_2. }
  split_and!; [by constructor | done |].
  intros s u. cbn [fmap list_fmap snd zip zip_with].
  fold (fmap (M:=list) (@snd value value)). fold (zip ns d.*2).
  rewrite elem_of_cons, IHm.
  destruct (decide (s = n)) as [->|Hne].
  - rewrite lookup_insert_eq. split.
    + intros [[= ->]|Hin]; [done|]. exfalso. apply Hn.
      apply list_elem_of_fmap_2.
      apply IHm in Hin. by eapply elem_of_zip_l.
    + intros [= ->]. by left.
  - rewrite lookup_insert_ne by (by intros [= ?]). split.
    + by intros [[= ? ?]|?].
    + by right.
Qed.

(** A list of strings, seen as values. *)
Lemma strings_of (l : list value) :
  Forall (λ v, ∃ s, v = VStr s) l → ∃ ns, l = VStr <$> ns.
Proof.
  induction 1 as [|v l [s ->] _ [ns ->]]; [by exists []|]. by exists (s :: ns).
Qed.

Lemma preserves_bind {S A B X} (f : S → X) (m : eff S A) (k : A → eff S B) :
  preserves f m → (∀ a, preserves f (k a)) → preserves f (m ≫= k).
Proof.
  intros Hm Hk s. unfold mbind, eff_bind. specialize (Hm s).
  destruct (m s) as [[a|e] s']; cbn [snd] in *; [|done].
  by rewrite Hk.
Qed.

Lemma preserves_ret {S A X} (f : S → X) (a : A) : preserves f (mret a : eff S A).
Proof. by intros s. Qed.

Lemma preserves_lift {S A X} (f : S → X) (r : result A) : preserves f (lift r : eff S A).
Proof. by intros s. Qed.

Lemma respects_bind {S A B} (R : S → S → Prop) (m : eff S A) (k : A → eff S B) :
  respects R m → (∀ a, respects R (k a)) → respects R (m ≫= k).
Proof.
  intros Hm Hk s t Hst. unfold mbind, eff_bind.
  destruct (Hm s t Hst) as [Hr HR].
  destruct (m s) as [[a|e] s'], (m t) as [[b|e'] t']; cbn [fst snd] in *;
    simplify_eq; [by apply Hk | done].
Qed.

Lemma respects_ret {S A} (R : S → S → Prop) (a : A) : respects R (mret a : eff S A).
Proof. by intros s t. Qed.

Lemma respects_lift {S A} (R : S → S → Prop) (r : result A) : respects R (lift r : eff S A).
Proof. by intros s t. Qed.

Ltac step_through lem_bind lem_ret lem_lift :=
  repeat first
    [ apply lem_ret
    | apply lem_lift
    | apply lem_bind; [|intros ?]
    | match goal with
      | |- context [match ?x with (_, _) => _ end] => destruct x
      | |- context [match ?x with Some _ => _ | None => _ end] => destruct x
      | |- context [if ?b then _ else _] => destruct b
      end ].

Section pipeline.
Context {G : Type} `{!RandomSource G}.
Variable json_loads : string → option value.
Variable to_parquet : list summary_row → option exn.

Lemma sample_Ok {A} (population : list A) (k : Z) (g g' : G) chosen :
  sample population k g = Ok (chosen, g') →
  (0 ≤ k ≤ Z.of_nat (length population))%Z ∧ length chosen = Z.to_nat k ∧ chosen ⊆+ population.
Proof.
  intros Hrun. destruct (decide (0 ≤ k ≤ Z.of_nat (length population))%Z) as [Hk|Hk].
  - destruct (sample_spec population k g Hk) as (c & g2 & Hrun' & ? & ?).
    rewrite Hrun in Hrun'. by simplify_eq.
  - rewrite sample_value_error in Hrun by lia. discriminate.
Qed.

Lemma random_sample_inv (pool : list value) (k : Z) (w w' : world G) r :
  random_sample pool k w = (r, w') →
  (∃ g, w' = with_rng g w) ∧ ∀ chosen, r = Ok chosen → chosen ⊆+ pool.
Proof.
  unfold random_sample.
  destruct (sample pool k (rng w)) as [[chosen g]|e] eqn:Hs; intros [= <- <-].
  - split; [by eexists|]. intros ? [= <-]. by apply sample_Ok in Hs as (_ & _ & ?).
  - split; [|done]. exists (rng w). by destruct w.
Qed.

Lemma sample_pools_inv (base : Z) (wc woc : list value) (w w' : world G) r :
  sample_pools base wc woc w = (r, w') →
  (∃ g, w' = with_rng g w) ∧
  ∀ ws wos, r = Ok (ws, wos) → ws ⊆+ wc ∧ wos ⊆+ woc.
Proof.
  unfold sample_pools, mbind, eff_bind.
  destruct (random_sample wc _ w) as [[ws|e] w1] eqn:H1.
  - apply random_sample_inv in H1 as [[g1 ->] Hws].
    destruct (random_sample woc _ _) as [[wos|e] w2] eqn:H2.
    + apply random_sample_inv in H2 as [[g2 ->] Hwos].
      intros [= <- <-]. split; [by exists g2|].
      intros ?? [= <- <-]. split; [by apply Hws | by apply Hwos].
    + apply random_sample_inv in H2 as [[g2 ->] _].
      intros [= <- <-]. split; [by exists g2 | done].
  - apply random_sample_inv in H1 as [[g1 ->] _].
    intros [= <- <-]. split; [by exists g1 | done].
Qed.

(** The dictionaries the loop builds from empty ones can be dumped. *)
Lemma process_conversations_dump (mp : value) (sel : list value)
    (rows : list summary_row) (raw pop : lookup_table) :
  process_conversations mp sel ([], [], []) = Ok (rows, raw, pop) →
  ∃ raw_members pop_members,
    json_dump raw = Ok raw_members ∧ json_dump pop = Ok pop_members.
Proof.
  intros H.
  apply process_conversations_maps in H
    as (_ & _ & _ & _ & _ & _ & _ & _ & [Hr _] & [Hp _] & _);
    [|apply well_keyed_nil..].
  destruct (json_dump_total raw Hr) as (rm & Hrm & _).
  destruct (json_dump_total pop Hp) as (pm & Hpm & _).
  by exists rm, pm.
Qed.

Lemma write_artifacts_inv (mp : value) (popular : list value)
    (rows : list summary_row) (raw pop : lookup_table)
    (raw_members pop_members : json_object) (w w' : world G) r :
  json_dump raw = Ok raw_members →
  json_dump pop = Ok pop_members →
  write_artifacts to_parquet mp popular rows raw pop w = (r, w') →
  (∃ e, to_parquet rows = Some e ∧ r = Raise e ∧ w' = w) ∨
  (to_parquet rows = None ∧
   ∃ f,
     w' = with_popular_file f
            (with_raw_file (Holds raw_members)
               (with_summary_file (Holds rows) w)) ∧
     ((f = Truncated ∧ r ≠ Ok ()) ∨
      (∃ title,
         first_assignment_field popular "title" = Ok title ∧
         f = Holds {| extract_assignment_id := mp;
                      extract_assignment_name := title;
                      extract_conversations := pop_members |} ∧
         r = Ok ()))).
Proof.
  intros Hraw Hpop.
  unfold write_artifacts, mbind, eff_bind, lift, write_summary.
  destruct (to_parquet rows) as [e|].
  { intros [= <- <-]. left. by exists e. }
  rewrite Hraw. cbn.
  destruct (first_assignment_field popular "title") as [title|e].
  - rewrite Hpop. cbn. intros [= <- <-]. right. split; [done|].
    eexists. split; [reflexivity|]. right. by exists title.
  - intros [= <- <-]. right. split; [done|].
    eexists. split; [reflexivity|]. by left.
Qed.

Lemma print_breakdown_frame {X} (f : world G → X) (popular : list value) :
  (∀ out w, f (with_stdout out w) = f w) →
  preserves f (print_breakdown popular).
Proof.
  intros Hf. unfold print_breakdown.
  step_through @preserves_bind @preserves_ret @preserves_lift;
    intros w; apply Hf.
Qed.

Lemma process_collection_written base data (w : world G) r w' :
  process_collection to_parquet base data w = (r, w') →
  source w' = source w ∧ decoded w' = decoded w ∧
  processed_data w' = processed_data w ∧
  ((summary_file w' = summary_file w ∧ raw_file w' = raw_file w ∧
    popular_file w' = popular_file w ∧ r ≠ Ok ()) ∨
   ∃ convs mp count popular wc woc ws wos rows raw pop raw_members pop_members,
     iter data = Ok convs ∧ most_popular convs = Ok (mp, count) ∧
     partition mp convs = Ok (popular, wc, woc) ∧
     ws ⊆+ wc ∧ wos ⊆+ woc ∧
     process_conversations mp (ws ++ wos ++ popular) ([], [], [])
       = Ok (rows, raw, pop) ∧
     to_parquet rows = None ∧
     json_dump raw = Ok raw_members ∧ json_dump pop = Ok pop_members ∧
     summary_file w' = Holds rows ∧ raw_file w' = Holds raw_members ∧
     ((popular_file w' = Truncated ∧ r ≠ Ok ()) ∨
      ∃ title,
        first_assignment_field popular "title" = Ok title ∧
        popular_file w' =
          Holds {| extract_assignment_id := mp;
                   extract_assignment_name := title;
                   extract_conversations := pop_members |})).
Proof.
  unfold process_collection, mbind at 1 2 3 4 5 6, eff_bind, lift.
  destruct (iter data) as [convs|e]; [|intros [= <- <-]; split_and!; try done; by left].
  destruct (most_popular convs) as [[mp count]|e] eqn:Hmp; [|intros [= <- <-]; split_and!; try done; by left].
  destruct (partition mp convs) as [[[popular wc] woc]|e] eqn:Hpart; [|intros [= <- <-]; split_and!; try done; by left].
  cbn [print].
  destruct (sample_pools base wc woc _) as [[[ws wos]|e] w1] eqn:Hs;
    apply sample_pools_inv in Hs as [[g ->] Hsub];
    [|intros [= <- <-]; split_and!; try done; by left].
  destruct (Hsub ws wos eq_refl) as [Hws Hwos].
  cbn [print].
  destruct (process_conversations mp _ _) as [[[rows raw] pop]|e] eqn:Hproc;
    [|intros [= <- <-]; split_and!; try done; by left].
  destruct (process_conversations_dump _ _ _ _ _ Hproc)
    as (raw_members & pop_members & Hrm & Hpm).
  unfold mbind.
  destruct (write_artifacts _ _ _ _ _ _ _) as [[[]|e] w2] eqn:Hw;
    apply (write_artifacts_inv _ _ _ _ _ _ _ _ _ _ Hrm Hpm) in Hw
      as [(e' & He' & Hr & ->)|(Hstore & f & Hw2 & Hf)]; try done.
  - intros Hpr.
    assert (∀ {X} (f : world G → X),
              (∀ out w, f (with_stdout out w) = f w) → f w' = f w2) as Hfr.
    { intros X f0 Hf0. pose proof (print_breakdown_frame f0 popular Hf0 w2) as Hp.
      by rewrite Hpr in Hp. }
    pose proof (Hfr _ source ltac:(done)) as Hsrc.
    pose proof (Hfr _ decoded ltac:(done)) as Hdec.
    pose proof (Hfr _ processed_data ltac:(done)) as Hdir.
    pose proof (Hfr _ summary_file ltac:(done)) as Hsum.
    pose proof (Hfr _ raw_file ltac:(done)) as Hraw.
    pose proof (Hfr _ popular_file ltac:(done)) as Hpop.
    clear Hfr Hpr. subst w2. cbn in Hsrc, Hdec, Hdir, Hsum, Hraw, Hpop.
    split_and!; try done. right.
    exists convs, mp, count, popular, wc, woc, ws, wos, rows, raw, pop,
      raw_members, pop_members.
    split_and!; try done. right.
    destruct Hf as [[_ ?]|(title & ? & -> & _)]; [done|]. by exists title.
  - intros [= <- <-]. split_and!; try done. by left.
  - intros [= <- <-]. subst w2. split_and!; try done. right.
    exists convs, mp, count, popular, wc, woc, ws, wos, rows, raw, pop,
      raw_members, pop_members.
    split_and!; try done.
    destruct Hf as [[-> _]|(title & ? & -> & ?)]; [by left | done].
Qed.





Lemma load_decodes (w : world G) (data : value) :
  json_loads (source w) = Some data →
  load_conversations json_loads w
  = (Ok (Some data), with_decoded (decoded w ++ [source w]) w).
Proof.
  intros Hd. unfold load_conversations, mbind, eff_bind, read_source, decode.
  by rewrite Hd.
Qed.

Lemma load_repairs (w : world G) :
  json_loads (source w) = None →
  load_conversations json_loads w
  = (Ok (json_loads (repair (source w))),
     with_stdout
       (stdout w ++ [ErrorDecodingJson; AttemptingFix] ++
        match json_loads (repair (source w)) with
        | Some _ => []
        | None => [UnableToFix]
        end)
       (with_decoded (decoded w ++ [source w; repair (source w)]) w)).
Proof.
  intros Hd. unfold load_conversations, mbind, eff_bind, read_source, decode, print.
  rewrite Hd. cbn -[repair].
  destruct (json_loads (repair (source w))); cbn -[repair];
    unfold with_stdout, with_decoded; cbn -[repair]; by rewrite <-!app_assoc.
Qed.

End pipeline.

Section run_outcomes.
Context {G : Type} `{!RandomSource G}.
Variable json_loads : string → option value.
Variable to_parquet : list summary_row → option exn.

(** A run on a source that decodes (as it is or repaired) continues with
    the pipeline, in a state that differs from the initial one in the
    directory, the log of decoded texts and the printed lines. *)
Lemma preprocess_data_loaded (base : Z) (w : world G) (data : value) :
  input_collection json_loads (source w) = Some data →
  ∃ w1,
    preprocess_data json_loads to_parquet base w = process_collection to_parquet base data w1 ∧
    source w1 = source w ∧ rng w1 = rng w ∧
    summary_file w1 = summary_file w ∧ raw_file w1 = raw_file w ∧
    popular_file w1 = popular_file w ∧
    decoded w1 =
      decoded w ++
      match json_loads (source w) with
      | Some _ => [source w]
      | None => [source w; repair (source w)]
      end.
Proof.
  unfold input_collection. intros Hin.
  unfold preprocess_data, mbind at 1 2, eff_bind, mkdir.
  destruct (json_loads (source w)) as [d|] eqn:Hd.
  - injection Hin as ->.
    rewrite (load_decodes json_loads (with_processed_data true w) data) by done.
    eexists. split; [reflexivity|]. by cbn.
  - rewrite (load_repairs json_loads (with_processed_data true w)) by done.
    cbn [source with_processed_data]. rewrite Hin.
    eexists. split; [reflexivity|]. by cbn.
Qed.

(** A run on a source that decodes neither as it is nor repaired returns
    after the three diagnostics, with no file touched. *)
Lemma preprocess_data_aborted (base : Z) (w : world G) :
  input_collection json_loads (source w) = None →
  preprocess_data json_loads to_parquet base w
  = (Ok (),
     with_stdout (stdout w ++ [ErrorDecodingJson; AttemptingFix; UnableToFix])
       (with_decoded (decoded w ++ [source w; repair (source w)])
          (with_processed_data true w))).
Proof.
  unfold input_collection. intros Hin.
  destruct (json_loads (source w)) as [d|] eqn:Hd; [done|].
  unfold preprocess_data, mbind at 1 2, eff_bind, mkdir.
  rewrite (load_repairs json_loads (with_processed_data true w)) by done.
  cbn [source with_processed_data]. by rewrite Hin.
Qed.

(** C9.  On an empty collection the pick of the most popular assignment
    has nothing to pick from: [most_common(1)[0]] raises [IndexError], the
    run ends with that exception (not with the [return] of the abort path)
    and none of the three files is written.  Put the other way round, a
    run that completes was given a collection with at least one record. *)
Theorem empty_collection_raises_index_error (base : Z) (w : world G) (data : value) :
  input_collection json_loads (source w) = Some data →
  (iter data = Ok [] →
   ∃ w',
     preprocess_data json_loads to_parquet base w = (Raise IndexError, w') ∧
     summary_file w' = summary_file w ∧
     raw_file w' = raw_file w ∧
     popular_file w' = popular_file w) ∧
  (∀ w',
     preprocess_data json_loads to_parquet base w = (Ok (), w') →
     ∃ conv convs, iter data = Ok (conv :: convs)).
Proof.
  intros Hin.
  destruct (preprocess_data_loaded base w data Hin)
    as (w1 & -> & _ & _ & Hsum & Hraw & Hpop & _).
  split.
  - intros Hempty. exists w1. split; [|done].
    unfold process_collection, mbind at 1 2, eff_bind, lift. by rewrite Hempty.
  - intros w'. unfold process_collection, mbind at 1 2, eff_bind, lift.
    destruct (iter data) as [[|conv convs]|e]; [done | by eauto | done].
Qed.


End run_outcomes.

Lemma recorded_app (m : gmap hkey value) (l1 l2 : list (hkey * value)) :
  recorded m (l1 ++ l2) = recorded (recorded m l1) l2.
Proof. apply foldl_app. Qed.

Lemma dom_recorded (m : gmap hkey value) (entries : list (hkey * value)) :
  dom (recorded m entries) = dom m ∪ list_to_set entries.*1.
Proof.
  revert m. induction entries as [|[k v] entries IH]; intros m.
  - cbn. by rewrite union_empty_r_L.
  - cbn [recorded foldl]. fold (recorded (<[k:=v]> m) entries).
    rewrite IH, dom_insert_L. cbn [fmap list_fmap fst list_to_set].
    by rewrite (comm_L (∪) {[k]} (dom m)), <-(assoc_L (∪)).
Qed.

(** What a key resolves to after the entries are stored: the last entry
    with that key, or what the table held before. *)
Lemma lookup_recorded (m : gmap hkey value) (entries : list (hkey * value))
    (k : hkey) :
  recorded m entries !! k =
  match recorded ∅ entries !! k with
  | Some v => Some v
  | None => m !! k
  end.
Proof.
  revert m. induction entries as [|[k' v'] entries IH]; intros m; [done|].
  cbn [recorded foldl fst snd].
  fold (recorded (<[k':=v']> m) entries).
  fold (recorded (<[k':=v']> (∅ : gmap hkey value)) entries).
  rewrite (IH (<[k':=v']> m)), (IH (<[k':=v']> ∅)).
  destruct (recorded ∅ entries !! k); [done|].
  destruct (decide (k' = k)) as [->|Hne].
  - by rewrite !lookup_insert_eq.
  - by rewrite !lookup_insert_ne, lookup_empty.
Qed.

Lemma lookup_recorded_NoDup (entries : list (hkey * value)) (k : hkey) :
  NoDup entries.*1 →
  ∀ v, recorded ∅ entries !! k = Some v ↔ (k, v) ∈ entries.
Proof.
  induction entries as [|[k' v'] entries IH]; intros Hnd v.
  { cbn. rewrite lookup_empty. split; [done | by intros ?%elem_of_nil]. }
  cbn [fmap list_fmap fst] in Hnd. apply NoDup_cons in Hnd as [Hk' Hnd].
  specialize (IH Hnd).
  assert (∀ u, (k', u) ∉ entries) as Hfresh.
  { intros u Hin. apply Hk'. apply list_elem_of_fmap. by exists (k', u). }
  cbn [recorded foldl fst snd].
  fold (recorded (<[k':=v']> (∅ : gmap hkey value)) entries).
  rewrite lookup_recorded, elem_of_cons.
  destruct (decide (k' = k)) as [->|Hne].
  - destruct (recorded ∅ entries !! k) as [u|] eqn:Hu.
    + exfalso. apply (Hfresh u). by apply IH.
    + rewrite lookup_insert_eq. split.
      * intros [= ->]. by left.
      * intros [[= ->]|Hin']; [done|]. by apply Hfresh in Hin'.
  - rewrite lookup_insert_ne, lookup_empty by done.
    rewrite <-IH. destruct (recorded ∅ entries !! k) as [u|].
    + split; [by right|]. by intros [[= ? ?]|?].
    + split; [done|]. by intros [[= ? ?]|?].
Qed.

Lemma conversation_keys_Forall2 (sel : list value) (keys : list hkey) :
  Forall2 (λ conv k, conversation_key conv = Ok k) sel keys →
  conversation_keys sel = keys.
Proof.
  unfold conversation_keys. induction 1 as [|conv k sel keys Hk _ IH]; [done|].
  cbn [omap list_omap]. rewrite Hk. cbn. by rewrite IH.
Qed.

Lemma unique_ids_submseteq (sel convs : list value) :
  sel ⊆+ convs → unique_ids convs → unique_ids sel.
Proof.
  unfold unique_ids, conversation_keys. intros Hsub.
  apply submseteq_NoDup. by apply omap_submseteq.
Qed.

Lemma fst_zip_keys {A B} (keys : list A) (sel : list B) :
  length keys = length sel → (zip keys sel).*1 = keys.
Proof. intros Hlen. apply fst_zip. lia. Qed.

#[global] Instance KStr_inj : Inj (=) (=) KStr.
Proof. by intros ?? [= ?]. Qed.

#[global] Instance VStr_inj : Inj (=) (=) VStr.
Proof. by intros ?? [= ?]. Qed.

(** What [d[name]] finds among members with pairwise distinct names. *)
Lemma assoc_NoDup (members : json_object) (s : string) (v : value) :
  NoDup (names members) → assoc s members = Some v ↔ (s, v) ∈ members.
Proof.
  unfold names. induction members as [|[n u] members IH]; intros Hnd.
  { cbn. split; [done | by intros ?%elem_of_nil]. }
  cbn [fmap list_fmap fst] in Hnd. apply NoDup_cons in Hnd as [Hn Hnd].
  cbn [assoc]. rewrite elem_of_cons.
  destruct (String.eqb_spec n s) as [->|Hne].
  - split; [intros [= ->]; by left|].
    intros [[= ->]|Hin]; [done|]. exfalso. apply Hn.
    apply list_elem_of_fmap. by exists (s, v).
  - rewrite (IH Hnd). split; [by right|]. by intros [[= ? ?]|?].
Qed.

Lemma put_fresh (name : string) (v : value) (d : list (string * value)) :
  name ∉ d.*1 → put name v d = d ++ [(name, v)].
Proof.
  induction d as [|[n u] d IH]; [done|].
  cbn [fmap list_fmap fst put]. intros Hname.
  apply not_elem_of_cons in Hname as [Hne Hname].
  destruct (String.eqb_spec n name) as [->|_]; [done|].
  by rewrite IH.
Qed.

(** Members with pairwise distinct names are read back as they stand. *)
Lemma json_load_distinct (members : json_object) :
  NoDup (names members) → json_load_object members = VDict members.
Proof.
  unfold json_load_object, names. intros Hnd. f_equal.
  enough (∀ d, NoDup (d.*1 ++ members.*1) →
               foldl (λ d member, put member.1 member.2 d) d members
               = d ++ members) as Hgen by (by apply (Hgen [])).
  clear Hnd. induction members as [|[n v] members IH]; intros d Hnd.
  { by rewrite app_nil_r. }
  cbn [foldl fst snd fmap list_fmap] in *.
  rewrite put_fresh.
  - rewrite IH, <-app_assoc; [done|].
    rewrite fmap_app, <-app_assoc. done.
  - apply NoDup_app in Hnd as (_ & Hnd & _). intros Hin.
    apply (Hnd n Hin). apply list_elem_of_here.
Qed.

Lemma string_id_inv (conv : value) (s : string) :
  string_id conv = Some s ↔ dict_get conv "_id" VNone = Ok (VStr s).
Proof.
  unfold string_id. destruct (dict_get conv "_id" VNone) as [[]|]; naive_solver.
Qed.

Lemma string_id_key (conv : value) (s : string) :
  string_id conv = Some s → conversation_key conv = Ok (KStr s).
Proof.
  intros Hs%string_id_inv. unfold conversation_key. by rewrite Hs.
Qed.

(** The ids of a collection with string ids. *)
Lemma string_ids_names (sel : list value) :
  string_ids sel →
  Forall2 (λ conv n, string_id conv = Some n) sel (omap string_id sel).
Proof.
  induction 1 as [|conv sel [n Hn] _ IH]; [constructor|].
  cbn [omap list_omap]. rewrite Hn. by constructor.
Qed.

Lemma string_ids_submseteq (sel convs : list value) :
  sel ⊆+ convs → string_ids convs → string_ids sel.
Proof.
  unfold string_ids. rewrite !Forall_forall. intros Hsub Hall conv Hin.
  apply Hall. by eapply elem_of_submseteq.
Qed.

(** The rows of records with string ids carry these strings as their
    conversation ids. *)
Lemma string_ids_rows (mp : value) (rows : list summary_row)
    (sel : list value) (ns : list string) :
  Forall2 (λ row conv, summary_record mp conv = Ok row) rows sel →
  Forall2 (λ conv n, string_id conv = Some n) sel ns →
  conversation_id <$> rows = VStr <$> ns.
Proof.
  intros Hrows. revert ns.
  induction Hrows as [|row conv rows sel Hrow _ IH]; intros ns Hns.
  { by inversion Hns. }
  inversion Hns as [|?? n ns' Hn Hns']; subst.
  cbn [fmap list_fmap]. rewrite (IH ns') by done. f_equal.
  apply summary_record_inv in Hrow as [Hid _].
  apply string_id_inv in Hn. congruence.
Qed.

Lemma string_ids_keys (sel : list value) (ns : list string) :
  Forall2 (λ conv n, string_id conv = Some n) sel ns →
  conversation_keys sel = KStr <$> ns.
Proof.
  intros Hns. apply conversation_keys_Forall2.
  induction Hns as [|conv n sel ns Hn _ IH]; [constructor|].
  cbn [fmap list_fmap]. constructor; [by apply string_id_key | done].
Qed.

Lemma table_keys_strings (d : lookup_table) (ns : list string) :
  d.*1 = VStr <$> ns → table_keys d = KStr <$> ns.
Proof.
  revert ns. induction d as [|[k v] d IH]; intros [|n ns] Hns; try done.
  cbn in Hns. injection Hns as -> Hns.
  rewrite (table_keys_cons _ _ (KStr n)) by done.
  cbn [fmap list_fmap]. by rewrite (IH ns).
Qed.

Section summary_and_lookup.
Context {G : Type} `{!RandomSource G}.
Variable json_loads : string → option value.
Variable to_parquet : list summary_row → option exn.

(** A run that changed one of the three files went through the whole
    selection and wrote at least the summary table and the raw lookup. *)
Lemma preprocess_data_wrote (base : Z) (w w' : world G) (r : result ())
    (data : value) :
  input_collection json_loads (source w) = Some data →
  preprocess_data json_loads to_parquet base w = (r, w') →
  summary_file w' ≠ summary_file w ∨ raw_file w' ≠ raw_file w ∨
    popular_file w' ≠ popular_file w →
  ∃ convs mp count popular wc woc ws wos rows raw pop raw_members pop_members,
    iter data = Ok convs ∧ most_popular convs = Ok (mp, count) ∧
    partition mp convs = Ok (popular, wc, woc) ∧
    ws ⊆+ wc ∧ wos ⊆+ woc ∧
    process_conversations mp (ws ++ wos ++ popular) ([], [], [])
      = Ok (rows, raw, pop) ∧
    to_parquet rows = None ∧
    json_dump raw = Ok raw_members ∧ json_dump pop = Ok pop_members ∧
    summary_file w' = Holds rows ∧ raw_file w' = Holds raw_members ∧
    ((popular_file w' = Truncated ∧ r ≠ Ok ()) ∨
     ∃ title,
       first_assignment_field popular "title" = Ok title ∧
       popular_file w' =
         Holds {| extract_assignment_id := mp;
                  extract_assignment_name := title;
                  extract_conversations := pop_members |}).
Proof.
  intros Hin Hrun Hchanged.
  destruct (preprocess_data_loaded json_loads to_parquet base w data Hin)
    as (w1 & Heq & _ & _ & Hsum & Hraw & Hpop & _).
  rewrite Heq in Hrun.
  apply process_collection_written in Hrun
    as (_ & _ & _ & [(Hs & Hr & Hp & _)|Hwrote]).
  { rewrite Hs, Hr, Hp, Hsum, Hraw, Hpop in Hchanged. by destruct Hchanged as [?|[?|?]]. }
  done.
Qed.

(** The records a run selects are distinct members of the collection. *)
Lemma selected_submseteq (mp : value) (convs popular wc woc ws wos : list value) :
  partition mp convs = Ok (popular, wc, woc) →
  ws ⊆+ wc → wos ⊆+ woc →
  ws ++ wos ++ popular ⊆+ convs.
Proof.
  intros (_ & Hperm & _)%partition_spec Hws Hwos.
  rewrite <-Hperm. by repeat apply submseteq_app.
Qed.

(** C3, as amended.  On a collection whose conversation ids are pairwise
    distinct strings, a run that writes the summary table and the raw
    lookup (into an empty output directory) writes one row per selected
    record, the selected records being distinct members of the collection;
    the conversation ids of the rows are pairwise distinct, and they are
    exactly the names of the members of the raw lookup, in the order of the
    rows and without repetition, so that the lookup is read back as it is
    written, each name resolving to the selected record with that id. *)
Theorem summary_rows_match_lookup (base : Z) (w w' : world G) (r : result ())
    (data : value) (convs : list value) (rows : list summary_row)
    (raw : json_object) :
  input_collection json_loads (source w) = Some data →
  iter data = Ok convs →
  unique_ids convs →
  string_ids convs →
  summary_file w = Missing →
  preprocess_data json_loads to_parquet base w = (r, w') →
  summary_file w' = Holds rows →
  raw_file w' = Holds raw →
  ∃ selected popular,
    selected ⊆+ convs ∧
    Forall2 (λ row conv, summary_record popular conv = Ok row) rows selected ∧
    conversation_id <$> rows = VStr <$> names raw ∧
    NoDup (names raw) ∧
    raw.*2 = selected ∧
    length raw = length rows ∧
    json_load_object raw = VDict raw ∧
    ∀ s conv,
      assoc s raw = Some conv ↔ conv ∈ selected ∧ string_id conv = Some s.
Proof.
  intros Hin Hiter Huniq Hstr Hfresh Hrun Hrows Hraw.
  destruct (preprocess_data_wrote base w w' r data Hin Hrun)
    as (convs' & mp & count & popular & wc & woc & ws & wos & rows' & raw0 &
        pop & raw' & pop' & Hiter' & Hmp & Hpart & Hws & Hwos & Hproc & _ &
        Hdump & _ & Hrows' & Hraw' & _).
  { left. congruence. }
  assert (convs' = convs) as -> by congruence.
  assert (rows' = rows) as -> by congruence.
  assert (raw' = raw) as -> by congruence.
  pose proof (selected_submseteq _ _ _ _ _ _ _ Hpart Hws Hwos) as Hsel.
  set (sel := ws ++ wos ++ popular) in *.
  apply process_conversations_spec in Hproc
    as (new & keys & Hnew & Hrec & Hkeys & Hrk & -> & _).
  simpl in Hnew. subst new.
  pose proof (string_ids_names sel (string_ids_submseteq _ _ Hsel Hstr)) as Hns.
  set (ns := omap string_id sel) in *.
  pose proof (string_ids_rows _ _ _ _ Hrec Hns) as Hids.
  assert (length ns = length sel) as Hlen.
  { symmetry. by eapply Forall2_length. }
  assert (NoDup ns) as Hnd.
  { apply (NoDup_fmap_1 KStr).
    rewrite <-(string_ids_keys sel ns Hns). by eapply unique_ids_submseteq. }
  assert (stored [] (zip (conversation_id <$> rows) sel) = zip (VStr <$> ns) sel)
    as Hstored.
  { rewrite Hids. rewrite stored_distinct; [done | constructor | |].
    - apply Forall_forall. intros [k v] Hin'. apply elem_of_zip_l in Hin'.
      by apply list_elem_of_fmap in Hin' as (n & -> & _).
    - cbn [table_keys omap list_omap app].
      fold (table_keys (zip (VStr <$> ns) sel)).
      rewrite (table_keys_strings _ ns)
        by (rewrite fst_zip; [done | rewrite length_fmap; lia]).
      by apply (NoDup_fmap_2 KStr). }
  rewrite Hstored in Hdump.
  rewrite (json_dump_strings _ ns) in Hdump
    by (rewrite fst_zip; [done | rewrite length_fmap; lia]).
  rewrite snd_zip in Hdump by (rewrite length_fmap; lia).
  injection Hdump as <-.
  assert (names (zip ns sel) = ns) as Hnames.
  { unfold names. apply fst_zip. lia. }
  exists sel, mp. rewrite Hnames. split_and!; try done.
  - apply snd_zip. lia.
  - rewrite length_zip_with_l_eq by done.
    rewrite <-(length_fmap conversation_id rows), Hids. by rewrite length_fmap.
  - apply json_load_distinct. by rewrite Hnames.
  - intros s conv. rewrite assoc_NoDup by (by rewrite Hnames). split.
    + intros Hin'. split; [by eapply elem_of_zip_r|].
      apply list_elem_of_lookup in Hin' as [i Hi].
      apply lookup_zip_with_Some in Hi as (n & c & [= <- <-] & Hn & Hc).
      exact (Forall2_lookup_lr _ _ _ _ _ _ Hns Hc Hn).
    + intros [Hc Hs]. apply list_elem_of_lookup in Hc as [i Hi].
      destruct (Forall2_lookup_l _ _ _ _ _ Hns Hi) as (n & Hn & Hnc).
      assert (n = s) as -> by congruence.
      apply list_elem_of_lookup. exists i.
      apply lookup_zip_with_Some. by exists s, conv.
Qed.
End summary_and_lookup.

(* ===================================================================== *)
(** * The most popular assignment *)
(* ===================================================================== *)

Lemma hash_key_to_option (v : value) (k : hkey) :
  to_option (hash_key v) = Some k ↔ hash_key v = Ok k.
Proof. destruct (hash_key v); simpl; split; congruence. Qed.

(** Whether a record belongs to an assignment depends on keys only. *)
Lemma of_assignment_key (v conv : value) (k kc : hkey) :
  hash_key v = Ok k → assignment_key conv = Some kc →
  of_assignment v conv = bool_decide (kc = k).
Proof.
  unfold assignment_key, of_assignment. intros Hv Hc.
  destruct (assignment_id_of conv) as [j|]; [|done].
  apply hash_key_to_option in Hc. by apply py_eq_hash.
Qed.

Lemma occurrences_key (v : value) (k : hkey) (convs : list value) :
  hash_key v = Ok k →
  Forall (λ conv, is_Some (assignment_key conv)) convs →
  occurrences v convs =
  length (filter (λ conv, assignment_key conv = Some k) convs).
Proof.
  intros Hv. unfold occurrences. induction 1 as [|conv convs [kc Hkc] _ IH]; [done|].
  rewrite !filter_cons, (of_assignment_key v conv k kc), Hkc by done.
  destruct (decide (kc = k)) as [->|Hne].
  - rewrite bool_decide_eq_true_2 by done.
    rewrite !decide_True by done. cbn. by rewrite IH.
  - rewrite bool_decide_eq_false_2 by done.
    rewrite !decide_False by congruence. done.
Qed.

Lemma occurrences_snoc (v conv : value) (convs : list value) :
  occurrences v (convs ++ [conv]) =
  occurrences v convs + (if of_assignment v conv then 1 else 0).
Proof.
  unfold occurrences. rewrite filter_app, length_app. f_equal.
  rewrite filter_cons, filter_nil. destruct (of_assignment v conv); by cbn.
Qed.

(** [counter_incr] either bumps the one entry with the key of [i], or, when
    there is none, appends a new entry. *)
Lemma counter_incr_spec (i : value) (k : hkey) (c : counter) :
  hash_key i = Ok k →
  Forall (λ e, is_Some (to_option (hash_key e.1))) c →
  (∃ c1 v n c2,
     c = c1 ++ (v, n) :: c2 ∧ hash_key v = Ok k ∧
     Forall (λ e, hash_key e.1 ≠ Ok k) c1 ∧
     counter_incr i c = c1 ++ (v, S n) :: c2) ∨
  (Forall (λ e, hash_key e.1 ≠ Ok k) c ∧ counter_incr i c = c ++ [(i, 1)]).
Proof.
  intros Hi. induction 1 as [|[v n] c [kv Hkv] _ IH].
  { right. by split. }
  apply hash_key_to_option in Hkv. cbn [fst] in Hkv.
  cbn [counter_incr]. rewrite (py_eq_hash v i kv k) by done.
  destruct (decide (kv = k)) as [->|Hne].
  - rewrite bool_decide_eq_true_2 by done. left.
    exists [], v, n, c. by split_and!.
  - rewrite bool_decide_eq_false_2 by done.
    assert (hash_key v ≠ Ok k) as Hv by congruence.
    destruct IH as [(c1 & v' & n' & c2 & -> & Hv' & Hc1 & ->)|[Hc ->]].
    + left. exists ((v, n) :: c1), v', n', c2. split_and!; try done.
      by constructor.
    + right. split; [by constructor | done].
Qed.

Lemma filter_none {A} (P : A → Prop) `{∀ x, Decision (P x)} (l : list A) :
  (∀ x, x ∈ l → ¬ P x) → filter P l = [].
Proof.
  induction l as [|x l IH]; intros Hl; [done|].
  rewrite filter_cons_False by (apply Hl; by left).
  apply IH. intros y Hy. apply Hl. by right.
Qed.

Lemma filter_every {A} (P : A → Prop) `{∀ x, Decision (P x)} (l : list A) :
  (∀ x, x ∈ l → P x) → filter P l = l.
Proof.
  induction l as [|x l IH]; intros Hl; [done|].
  rewrite filter_cons_True by (apply Hl; by left).
  f_equal. apply IH. intros y Hy. apply Hl. by right.
Qed.

Lemma key_count_snoc (k : hkey) (conv : value) (convs : list value) :
  key_count k (convs ++ [conv]) =
  key_count k convs + (if decide (assignment_key conv = Some k) then 1 else 0).
Proof.
  unfold key_count. rewrite filter_app, length_app. f_equal.
  rewrite filter_cons, filter_nil. by case_decide.
Qed.

Lemma counter_keys_app (c1 c2 : counter) :
  counter_keys (c1 ++ c2) = counter_keys c1 ++ counter_keys c2.
Proof. apply omap_app. Qed.

Lemma counter_keys_cons (v : value) (n : nat) (k : hkey) (c : counter) :
  hash_key v = Ok k → counter_keys ((v, n) :: c) = k :: counter_keys c.
Proof. intros Hv. unfold counter_keys. cbn. by rewrite Hv. Qed.

Lemma elem_of_counter_keys (v : value) (n : nat) (k : hkey) (c : counter) :
  (v, n) ∈ c → hash_key v = Ok k → k ∈ counter_keys c.
Proof.
  intros Hin Hv. apply list_elem_of_omap. exists (v, n). split; [done|].
  cbn. by rewrite Hv.
Qed.

Lemma counted_hashable (c : counter) (seen : list value) :
  counted c seen → Forall (λ e, is_Some (to_option (hash_key e.1))) c.
Proof.
  intros Hc. apply Forall_forall. intros [v n] Hin.
  destruct (counted_exact _ _ Hc v n Hin) as (k & Hk & _). cbn. by rewrite Hk.
Qed.

Lemma counted_nil : counted [] [].
Proof.
  split.
  - constructor.
  - by intros v n ?%elem_of_nil.
  - by intros conv ?%elem_of_nil.
Qed.

(** Counting one more record keeps the counter exact. *)
Lemma counted_step (c : counter) (seen : list value) (conv i : value) (k : hkey) :
  counted c seen →
  assignment_id_of conv = Ok i → hash_key i = Ok k →
  counted (counter_incr i c) (seen ++ [conv]).
Proof.
  intros Hc Hi Hk.
  assert (assignment_key conv = Some k) as Hconv.
  { unfold assignment_key. rewrite Hi. by rewrite Hk. }
  destruct (counter_incr_spec i k c Hk (counted_hashable _ _ Hc))
    as [(c1 & v & n & c2 & -> & Hv & Hc1 & ->)|[Hnone ->]].
  - pose proof (counted_distinct _ _ Hc) as Hnd.
    rewrite counter_keys_app, (counter_keys_cons v n k) in Hnd by done.
    apply NoDup_app in Hnd as (Hnd1 & Hdisj & Hnd2).
    apply NoDup_cons in Hnd2 as [Hk2 Hnd2].
    split.
    + rewrite counter_keys_app, (counter_keys_cons v (S n) k) by done.
      apply NoDup_app. split_and!; [done | done | by apply NoDup_cons].
    + intros v0 n0 Hin.
      apply elem_of_app in Hin as [Hin|Hin]; [|apply elem_of_cons in Hin as [Hin|Hin]].
      * destruct (counted_exact _ _ Hc v0 n0) as (k0 & Hk0 & ->).
        { apply elem_of_app. by left. }
        exists k0. split; [done|]. rewrite key_count_snoc, Hconv, decide_False; [lia|].
        intros [= ->]. rewrite Forall_forall in Hc1. by apply (Hc1 _ Hin).
      * injection Hin as -> ->.
        destruct (counted_exact _ _ Hc v n) as (k0 & Hk0 & ->).
        { apply elem_of_app. right. by left. }
        assert (k0 = k) as -> by congruence.
        exists k. split; [done|]. rewrite key_count_snoc, Hconv, decide_True by done. lia.
      * destruct (counted_exact _ _ Hc v0 n0) as (k0 & Hk0 & ->).
        { apply elem_of_app. right. by right. }
        exists k0. split; [done|]. rewrite key_count_snoc, Hconv, decide_False; [lia|].
        intros [= ->]. apply Hk2. by eapply elem_of_counter_keys.
    + intros conv' Hin. apply elem_of_app in Hin as [Hin|Hin].
      * destruct (counted_all _ _ Hc conv' Hin) as (k' & v' & n' & Hk' & Hin' & Hv').
        apply elem_of_app in Hin' as [Hin'|Hin'];
          [|apply elem_of_cons in Hin' as [Hin'|Hin']].
        -- exists k', v', n'. split_and!; [done | | done].
           apply elem_of_app. by left.
        -- injection Hin' as -> ->. exists k', v, (S n). split_and!; [done | | done].
           apply elem_of_app. right. by left.
        -- exists k', v', n'. split_and!; [done | | done].
           apply elem_of_app. right. by right.
      * apply list_elem_of_singleton in Hin as ->.
        exists k, v, (S n). split_and!; [done | | done].
        apply elem_of_app. right. by left.
  - split.
    + rewrite counter_keys_app, (counter_keys_cons i 1 k) by done.
      apply NoDup_app. split_and!.
      * apply (counted_distinct _ _ Hc).
      * intros k' Hin ->%list_elem_of_singleton.
        apply list_elem_of_omap in Hin as ([v n] & Hin & Hv).
        apply hash_key_to_option in Hv. rewrite Forall_forall in Hnone.
        by apply (Hnone _ Hin).
      * apply NoDup_singleton.
    + intros v0 n0 Hin.
      apply elem_of_app in Hin as [Hin|Hin].
      * destruct (counted_exact _ _ Hc v0 n0 Hin) as (k0 & Hk0 & ->).
        exists k0. split; [done|]. rewrite key_count_snoc, Hconv, decide_False; [lia|].
        intros [= ->]. rewrite Forall_forall in Hnone. by apply (Hnone _ Hin).
      * apply list_elem_of_singleton in Hin as [= -> ->].
        exists k. split; [done|]. rewrite key_count_snoc, Hconv, decide_True by done.
        assert (key_count k seen = 0) as ->; [|done].
        unfold key_count. rewrite filter_none; [done|].
        intros conv' Hin Hconv'.
        destruct (counted_all _ _ Hc conv' Hin) as (k' & v' & n' & Hk' & Hin' & Hv').
        assert (k' = k) as -> by congruence.
        rewrite Forall_forall in Hnone. by apply (Hnone _ Hin').
    + intros conv' Hin. apply elem_of_app in Hin as [Hin|Hin].
      * destruct (counted_all _ _ Hc conv' Hin) as (k' & v' & n' & Hk' & Hin' & Hv').
        exists k', v', n'. split_and!; [done | | done]. apply elem_of_app. by left.
      * apply list_elem_of_singleton in Hin as ->.
        exists k, i, 1. split_and!; [done | | done].
        apply elem_of_app. right. by apply list_elem_of_singleton.
Qed.

Lemma count_assignments_counted (convs : list value) :
  ∀ (c c' : counter) (seen : list value),
    counted c seen →
    count_assignments convs c = Ok c' →
    counted c' (seen ++ convs).
Proof.
  induction convs as [|conv convs IH]; intros c c' seen Hc Hrun.
  { injection Hrun as <-. by rewrite app_nil_r. }
  cbn [count_assignments] in Hrun.
  destruct (assignment_id_of conv) as [i|] eqn:Hi; [|done].
  cbn [mbind result_bind] in Hrun.
  destruct (hash_key i) as [k|] eqn:Hk; [|done].
  cbn [mbind result_bind] in Hrun.
  rewrite (assoc_L _ seen [conv] convs : seen ++ conv :: convs = (seen ++ [conv]) ++ convs).
  eapply IH; [|done]. by eapply counted_step.
Qed.

(** [max_count] returns an entry with the largest count. *)
Lemma max_count_spec (c : counter) :
  ∀ best,
    (max_count best c = best ∨ max_count best c ∈ c) ∧
    best.2 ≤ (max_count best c).2 ∧
    ∀ e, e ∈ c → e.2 ≤ (max_count best c).2.
Proof.
  induction c as [|x c IH]; intros best.
  { split_and!; [by left | done | by intros e ?%elem_of_nil]. }
  cbn [max_count].
  destruct (IH (if best.2 <? x.2 then x else best)) as (Hin & Hbest & Hall).
  destruct (Nat.ltb_spec best.2 x.2) as [Hlt|Hge].
  - split_and!.
    + right. destruct Hin as [->|Hin]; [by left | by right].
    + lia.
    + intros e [->|He]%elem_of_cons; [done | by apply Hall].
  - split_and!.
    + destruct Hin as [->|Hin]; [by left | right; by right].
    + done.
    + intros e [->|He]%elem_of_cons; [lia | by apply Hall].
Qed.

(** The pick of [most_popular]: an assignment with the largest number of
    records in the collection, every record of which has a hashable
    assignment id. *)
Lemma most_popular_spec (convs : list value) (mp : value) (count : nat) :
  most_popular convs = Ok (mp, count) →
  ∃ k,
    hash_key mp = Ok k ∧
    count = key_count k convs ∧
    (∀ k', key_count k' convs ≤ count) ∧
    Forall (λ conv, is_Some (assignment_key conv)) convs.
Proof.
  unfold most_popular. intros Hrun.
  destruct (count_assignments convs []) as [c|] eqn:Hc; [|done].
  cbn [mbind result_bind] in Hrun.
  apply (count_assignments_counted convs [] c [] counted_nil) in Hc.
  cbn [app] in Hc.
  destruct c as [|x c]; [done|]. cbn in Hrun. injection Hrun as Hmax.
  destruct (max_count_spec c x) as (Hin & Hx & Hall). rewrite Hmax in *.
  assert ((mp, count) ∈ x :: c) as Hmp.
  { destruct Hin as [<-|Hin]; [by left | by right]. }
  destruct (counted_exact _ _ Hc mp count Hmp) as (k & Hk & Hcount).
  exists k. split_and!; [done | done | |].
  - intros k'. destruct (key_count k' convs) as [|n] eqn:Hn; [lia|].
    rewrite <-Hn. unfold key_count in Hn.
    destruct (filter _ convs) as [|conv rest] eqn:Hf; [done|].
    assert (conv ∈ filter (λ conv, assignment_key conv = Some k') convs) as Hconv.
    { rewrite Hf. by left. }
    apply list_elem_of_filter in Hconv as [Hkey Hconv].
    destruct (counted_all _ _ Hc conv Hconv) as (k0 & v & m & Hk0 & Hvm & Hv).
    assert (k0 = k') as -> by congruence.
    destruct (counted_exact _ _ Hc v m Hvm) as (k1 & Hk1 & ->).
    assert (k1 = k') as -> by congruence.
    apply elem_of_cons in Hvm as [<-|Hvm]; [exact Hx|].
    by apply (Hall (v, key_count k' convs)).
  - apply Forall_forall. intros conv Hconv.
    destruct (counted_all _ _ Hc conv Hconv) as (k0 & v & n & Hk0 & _). by eexists.
Qed.

Lemma py_eq_unhashable (j i : value) (k : hkey) (e : exn) :
  hash_key j = Ok k → hash_key i = Raise e → py_eq j i = false.
Proof. by destruct j, i. Qed.

(** The pick in terms of the records: no assignment has more records in the
    collection than the one picked. *)
Lemma most_popular_most_frequent (convs : list value) (mp : value) (count : nat) :
  most_popular convs = Ok (mp, count) →
  count = occurrences mp convs ∧ ∀ i, occurrences i convs ≤ count.
Proof.
  intros (k & Hk & -> & Hmax & Hkeys)%most_popular_spec. split.
  - by rewrite (occurrences_key mp k).
  - intros i. destruct (hash_key i) as [ki|e] eqn:Hi.
    + rewrite (occurrences_key i ki) by done. apply Hmax.
    + unfold occurrences. rewrite filter_none; [cbn; lia|].
      intros conv Hconv. rewrite Forall_forall in Hkeys.
      destruct (Hkeys conv Hconv) as [kc Hkc].
      unfold assignment_key in Hkc. unfold of_assignment.
      destruct (assignment_id_of conv) as [j|]; [|done].
      apply hash_key_to_option in Hkc. by rewrite (py_eq_unhashable j i kc e).
Qed.

Lemma is_popular_of_assignment (mp conv : value) (b : bool) :
  is_popular mp conv = Ok b → of_assignment mp conv = b.
Proof.
  unfold is_popular, of_assignment.
  destruct (assignment_id_of conv); cbn; congruence.
Qed.

(** The popular partition is the part of the collection that belongs to the
    assignment picked. *)
Lemma popular_partition (mp : value) (convs popular : list value) :
  filterM (is_popular mp) convs = Ok popular →
  popular = filter (λ conv, of_assignment mp conv = true) convs.
Proof.
  revert popular. induction convs as [|conv convs IH]; intros popular Hf.
  { by injection Hf as <-. }
  cbn [filterM] in Hf.
  destruct (is_popular mp conv) as [b|] eqn:Hb; [|done].
  cbn [mbind result_bind] in Hf.
  destruct (filterM (is_popular mp) convs) as [rest|]; [|done].
  cbn [mbind result_bind] in Hf. injection Hf as <-.
  apply is_popular_of_assignment in Hb. rewrite filter_cons, Hb, <-(IH rest) by done.
  by destruct b.
Qed.

Lemma lookup_recorded_elem (entries : list (hkey * value)) (k : hkey) (v : value) :
  recorded ∅ entries !! k = Some v → (k, v) ∈ entries.
Proof.
  induction entries as [|[k' v'] entries IH].
  { cbn. by rewrite lookup_empty. }
  cbn [recorded foldl fst snd].
  fold (recorded (<[k':=v']> (∅ : gmap hkey value)) entries).
  rewrite lookup_recorded.
  destruct (recorded ∅ entries !! k) as [u|].
  - intros [= ->]. right. by apply IH.
  - destruct (decide (k' = k)) as [->|Hne].
    + rewrite lookup_insert_eq. intros [= ->]. by left.
    + by rewrite lookup_insert_ne, lookup_empty.
Qed.

Lemma recorded_subseteq (m : gmap hkey value) (entries : list (hkey * value)) :
  recorded ∅ entries ⊆ recorded m entries.
Proof.
  apply map_subseteq_spec. intros k v Hk. by rewrite lookup_recorded, Hk.
Qed.

Lemma elem_of_fmap_KStr (s : string) (l : list string) :
  KStr s ∈ KStr <$> l ↔ s ∈ l.
Proof.
  rewrite list_elem_of_fmap. split; [by intros (n & [= ->] & ?) | by exists s].
Qed.

(** The members of a dumped dictionary whose keys are conversation ids of
    rows with string ids. *)
Lemma json_dump_string_keyed (d : lookup_table) (members : json_object)
    (ids : list value) (ns : list string) :
  json_dump d = Ok members →
  well_keyed d →
  d.*1 ⊆ ids → ids = VStr <$> ns →
  NoDup (names members) ∧
  dom (to_map d) = list_to_set (KStr <$> names members) ∧
  ∀ s v, (s, v) ∈ members ↔ to_map d !! KStr s = Some v.
Proof.
  intros Hdump [_ Hnd] Hsub ->.
  destruct (strings_of d.*1) as [dns Hdns].
  { apply Forall_forall. intros k Hk%Hsub.
    apply list_elem_of_fmap in Hk as (n & -> & _). by exists n. }
  rewrite (json_dump_strings d dns Hdns) in Hdump. injection Hdump as <-.
  destruct (string_keyed_members d dns Hdns Hnd) as (Hnd' & Hkeys & Hmem).
  assert (names (zip dns d.*2) = dns) as ->.
  { unfold names. apply fst_zip.
    rewrite <-(length_fmap VStr dns), <-Hdns, !length_fmap. lia. }
  split_and!; [done | | done].
  by rewrite dom_to_map, Hkeys.
Qed.

Section popular_assignment.
Context {G : Type} `{!RandomSource G}.
Variable json_loads : string → option value.
Variable to_parquet : list summary_row → option exn.

(** What the loop stores for the selected records [sampled ++ popular],
    none of the sampled ones and all of the popular ones belonging to the
    assignment picked. *)
Lemma process_selected (mp : value) (sampled popular : list value)
    (rows : list summary_row) (raw pop : lookup_table) :
  Forall (λ conv, of_assignment mp conv = false) sampled →
  Forall (λ conv, of_assignment mp conv = true) popular →
  process_conversations mp (sampled ++ popular) ([], [], []) = Ok (rows, raw, pop) →
  ∃ sampled_rows popular_rows sampled_keys popular_keys,
    rows = sampled_rows ++ popular_rows ∧
    Forall2 (λ row conv, summary_record mp conv = Ok row)
      (sampled_rows ++ popular_rows) (sampled ++ popular) ∧
    Forall2 (λ row conv, summary_record mp conv = Ok row) popular_rows popular ∧
    Forall2 (λ conv k, conversation_key conv = Ok k) popular popular_keys ∧
    to_map pop = recorded ∅ (zip popular_keys popular) ∧
    to_map raw = recorded (recorded ∅ (zip sampled_keys sampled))
                   (zip popular_keys popular) ∧
    well_keyed raw ∧ well_keyed pop ∧
    raw.*1 ⊆ conversation_id <$> rows ∧ pop.*1 ⊆ conversation_id <$> rows.
Proof.
  intros Hsampled Hpopular Hproc.
  apply process_conversations_maps in Hproc
    as (new & keys & Hnew & Hrec & Hkeys & _ & Hraw & Hpop & Hwr & Hwp & Hkr & Hkp);
    [|apply well_keyed_nil..].
  simpl in Hnew. subst rows. cbn [fmap list_fmap app] in Hkr, Hkp.
  pose proof Hrec as Hall.
  apply Forall2_app_inv_l in Hkeys as (k1 & k2 & Hk1 & Hk2 & ->).
  apply Forall2_app_inv_r in Hrec as (r1 & r2 & Hr1 & Hr2 & ->).
  exists r1, r2, k1, k2.
  assert (length k1 = length sampled) as Hlen1.
  { symmetry. by eapply Forall2_length. }
  rewrite zip_with_app in Hraw, Hpop by done.
  split_and!; try done.
  - rewrite Hpop, filter_app, filter_none, filter_every; [done | |].
    + intros [k c] Hin%elem_of_zip_r. cbn [snd].
      rewrite Forall_forall in Hpopular. by apply Hpopular.
    + intros [k c] Hin%elem_of_zip_r. cbn [snd].
      rewrite Forall_forall in Hsampled. rewrite (Hsampled c Hin). done.
  - rewrite Hraw. apply recorded_app.
Qed.

(** C2, as amended.  On a collection whose conversation ids are strings, a
    run that writes the popular-assignment extract (into an empty output
    directory) names in it the assignment with the most records in the
    whole collection, and files under it exactly the records of the
    collection that belong to that assignment: the names of the extract's
    conversations are pairwise distinct (the extract is read back as it is
    written) and are the ids of these records, each member is such a
    record under its own id and each such record has its id among the
    names (with unique ids, its id resolves to the record itself); the
    rows of all of them close the summary table (the partition is not
    sampled down); and the extract's conversations are part of the raw
    lookup, member by member. *)
Theorem popular_extract_is_popular_partition (base : Z) (w w' : world G)
    (r : result ()) (data : value) (convs : list value)
    (extract : popular_extract) :
  input_collection json_loads (source w) = Some data →
  iter data = Ok convs →
  string_ids convs →
  popular_file w = Missing →
  preprocess_data json_loads to_parquet base w = (r, w') →
  popular_file w' = Holds extract →
  let picked := extract_assignment_id extract in
  let popular := filter (λ conv, of_assignment picked conv = true) convs in
  let members := extract_conversations extract in
  (∀ i, occurrences i convs ≤ occurrences picked convs) ∧
  most_popular convs = Ok (picked, length popular) ∧
  NoDup (names members) ∧
  json_load_object members = VDict members ∧
  list_to_set (names members) =@{gset string}
    list_to_set (omap string_id popular) ∧
  (∀ s conv,
     (s, conv) ∈ members → conv ∈ popular ∧ string_id conv = Some s) ∧
  (∀ conv,
     conv ∈ popular →
     ∃ s, string_id conv = Some s ∧ s ∈ names members) ∧
  (unique_ids convs →
   ∀ conv,
     conv ∈ popular →
     ∃ s, string_id conv = Some s ∧ assoc s members = Some conv) ∧
  ∃ sampled_rows popular_rows raw,
    summary_file w' = Holds (sampled_rows ++ popular_rows) ∧
    Forall2 (λ row conv, summary_record picked conv = Ok row)
      popular_rows popular ∧
    raw_file w' = Holds raw ∧
    members ⊆ raw ∧
    names members ⊆ names raw.
Proof.
  intros Hin Hiter Hstr Hfresh Hrun Hextract picked popular members.
  destruct (preprocess_data_wrote json_loads to_parquet base w w' r data Hin Hrun)
    as (convs' & mp & count & popular' & wc & woc & ws & wos & rows & raw &
        pop & rm & pm & Hiter' & Hmp & Hpart & Hws & Hwos & Hproc & _ &
        Hrm & Hpm & Hrows & Hraw & Hpop).
  { right. right. congruence. }
  assert (convs' = convs) as -> by congruence.
  destruct Hpop as [[Htrunc _]|(title & _ & Hpop)]; [congruence|].
  assert (extract = {| extract_assignment_id := mp;
                       extract_assignment_name := title;
                       extract_conversations := pm |}) as Hex by congruence.
  assert (picked = mp) as Hpicked by (unfold picked; by rewrite Hex).
  assert (members = pm) as Hmembers by (unfold members; by rewrite Hex).
  pose proof (selected_submseteq _ _ _ _ _ _ _ Hpart Hws Hwos) as Hsel.
  apply partition_spec in Hpart as (Hfilter & _ & Hpopular & Hrest & _).
  apply popular_partition in Hfilter as Hpop'.
  assert (popular' = popular) as ->.
  { unfold popular. by rewrite Hpicked. }
  destruct (most_popular_most_frequent _ _ _ Hmp) as [Hcount Hmax].
  rewrite app_assoc in Hproc, Hsel.
  apply process_selected in Hproc
    as (r1 & r2 & k1 & k2 & -> & Hall & Hr2 & Hk2 & Hmpop & Hmraw &
        Hwr & Hwp & Hkr & Hkp).
  2:{ apply Forall_forall. intros conv Hconv.
      assert (conv ∈ wc ++ woc) as Hconv'.
      { apply elem_of_app in Hconv as [Hconv|Hconv]; apply elem_of_app.
        - left. by eapply elem_of_submseteq.
        - right. by eapply elem_of_submseteq. }
      rewrite Forall_forall in Hrest.
      by apply is_popular_of_assignment, Hrest. }
  2:{ eapply Forall_impl; [exact Hpopular|].
      intros conv Hconv. by apply is_popular_of_assignment. }
  assert (length k2 = length popular) as Hlen.
  { symmetry. by eapply Forall2_length. }
  pose proof (string_ids_names _ (string_ids_submseteq _ _ Hsel Hstr)) as Hns.
  pose proof (string_ids_rows _ _ _ _ Hall Hns) as Hids.
  destruct (json_dump_string_keyed pop pm _ _ Hpm Hwp Hkp Hids)
    as (Hndp & Hdomp & Hmemp).
  destruct (json_dump_string_keyed raw rm _ _ Hrm Hwr Hkr Hids)
    as (Hndr & Hdomr & Hmemr).
  assert (string_ids popular) as Hstrp.
  { apply (string_ids_submseteq popular convs); [|done].
    apply sublist_submseteq, sublist_filter. }
  pose proof (string_ids_names _ Hstrp) as Hpn.
  assert (∀ conv, conv ∈ popular → is_Some (string_id conv)) as Hsome
    by (by apply Forall_forall).
  assert (k2 = KStr <$> omap string_id popular) as Hk2'.
  { rewrite <-(string_ids_keys _ _ Hpn). symmetry.
    by apply conversation_keys_Forall2. }
  assert (∀ s conv, conv ∈ popular → conversation_key conv = Ok (KStr s) →
                    string_id conv = Some s) as Hkey_id.
  { intros s conv Hconv Hkey. destruct (Hsome conv Hconv) as [n Hn].
    pose proof (string_id_key _ _ Hn). congruence. }
  rewrite Hmembers. split_and!.
  - intros i. rewrite Hpicked, <-Hcount. apply Hmax.
  - rewrite Hpicked, Hmp. do 2 f_equal. rewrite Hcount.
    unfold occurrences. by rewrite <-Hpicked.
  - done.
  - by apply json_load_distinct.
  - apply set_eq. intros s. rewrite !elem_of_list_to_set.
    rewrite <-!elem_of_fmap_KStr, <-Hk2'.
    rewrite <-(elem_of_list_to_set (C:=gset hkey)), <-Hdomp, Hmpop.
    rewrite dom_recorded, dom_empty_L, union_empty_l_L, fst_zip_keys by done.
    by rewrite elem_of_list_to_set.
  - intros s conv Hin'%Hmemp. rewrite Hmpop in Hin'.
    apply lookup_recorded_elem in Hin'.
    assert (conv ∈ popular) as Hconv by (by eapply elem_of_zip_r).
    split; [done|]. apply Hkey_id; [done|].
    apply list_elem_of_lookup in Hin' as [i Hi].
    apply lookup_zip_with_Some in Hi as (k' & c' & [= <- <-] & Hk' & Hc').
    exact (Forall2_lookup_lr _ _ _ _ _ _ Hk2 Hc' Hk').
  - intros conv Hconv.
    destruct (Hsome conv Hconv) as [s Hs]. exists s. split; [done|].
    apply elem_of_fmap_KStr.
    rewrite <-(elem_of_list_to_set (C:=gset hkey)), <-Hdomp, Hmpop.
    rewrite dom_recorded, dom_empty_L, union_empty_l_L, fst_zip_keys by done.
    rewrite elem_of_list_to_set, Hk2'. apply elem_of_fmap_KStr.
    apply list_elem_of_omap. by exists conv.
  - intros Huniq conv Hconv. pose proof Hconv as [i Hi]%list_elem_of_lookup.
    destruct (Forall2_lookup_l _ _ _ _ _ Hk2 Hi) as (k & Hk & Hkey).
    destruct (Hsome conv Hconv) as [s Hs]. exists s. split; [done|].
    assert (k = KStr s) as -> by (pose proof (string_id_key _ _ Hs); congruence).
    apply assoc_NoDup; [done|]. apply Hmemp. rewrite Hmpop.
    apply lookup_recorded_NoDup.
    + rewrite fst_zip_keys by done.
      rewrite <-(conversation_keys_Forall2 _ _ Hk2).
      apply (unique_ids_submseteq popular convs); [|done].
      apply sublist_submseteq, sublist_filter.
    + apply list_elem_of_lookup. exists i.
      apply lookup_zip_with_Some. by exists (KStr s), conv.
  - assert (pm ⊆ rm) as Hsub.
    { intros [s v] Hin'%Hmemp. apply Hmemr. rewrite Hmraw.
      rewrite Hmpop in Hin'.
      by apply (lookup_weaken _ _ _ _ Hin'), recorded_subseteq. }
    exists r1, r2, rm. split_and!; [done | by rewrite Hpicked | done | done |].
    unfold names. intros s [[s' v] [-> Hin']]%list_elem_of_fmap.
    apply list_elem_of_fmap. exists (s', v). split; [done|]. by apply Hsub.
Qed.
End popular_assignment.

(* ===================================================================== *)
(** * Reproducibility *)
(* ===================================================================== *)

Section reproducibility.
Context {G : Type} `{!RandomSource G}.
Variable json_loads : string → option value.
Variable to_parquet : list summary_row → option exn.

Lemma file_agrees_same {A} (a0 b0 a : file A) : file_agrees a0 b0 a a.
Proof. by left. Qed.

Lemma file_agrees_start {A} (a0 b0 : file A) : file_agrees a0 b0 a0 b0.
Proof. by right. Qed.

Lemma file_agrees_eq {A} (a0 a b : file A) : file_agrees a0 a0 a b → a = b.
Proof. intros [?|[-> ->]]; done. Qed.

Section steps.
Variables w0 v0 : world G.

Lemma print_respects (m : message) : respects (agree w0 v0) (print m).
Proof. by intros w v (? & ? & ? & ? & ?). Qed.

Lemma mkdir_respects : respects (agree w0 v0) mkdir.
Proof. by intros w v (? & ? & ? & ? & ?). Qed.

Lemma decode_respects (content : string) :
  respects (agree w0 v0) (decode json_loads content).
Proof. by intros w v (? & ? & ? & ? & ?). Qed.

Lemma read_source_respects : respects (agree w0 v0) read_source.
Proof. intros w v Hwv. split; [|done]. cbn. f_equal. apply Hwv. Qed.

Lemma write_summary_respects (rows : list summary_row) :
  respects (agree w0 v0) (write_summary to_parquet rows).
Proof.
  intros w v (? & ? & ? & ? & ?). unfold write_summary.
  destruct (to_parquet rows); [by split|]. split; [done|].
  split_and!; try done. apply file_agrees_same.
Qed.

Lemma set_raw_file_respects (f : file json_object) :
  respects (agree w0 v0) (set_raw_file f).
Proof.
  intros w v (? & ? & ? & ? & ?). split; [done|].
  split_and!; try done. apply file_agrees_same.
Qed.

Lemma set_popular_file_respects (f : file popular_extract) :
  respects (agree w0 v0) (set_popular_file f).
Proof.
  intros w v (? & ? & ? & ? & ?). split; [done|].
  split_and!; try done. apply file_agrees_same.
Qed.

Lemma random_sample_respects (population : list value) (k : Z) :
  respects (agree w0 v0) (random_sample population k).
Proof.
  intros w v (? & Hrng & ? & ? & ?). unfold random_sample. rewrite Hrng.
  destruct (sample population k (rng v)) as [[chosen g]|e]; by split.
Qed.

(** Nothing in a run of the preprocessor tells apart two states that agree
    on the source and on the generator. *)
Lemma preprocess_data_respects (base : Z) :
  respects (agree w0 v0) (preprocess_data json_loads to_parquet base).
Proof.
  unfold preprocess_data, load_conversations, process_collection,
    write_artifacts, print_breakdown, sample_pools.
  step_through @respects_bind @respects_ret @respects_lift;
    first [ apply print_respects | apply mkdir_respects | apply decode_respects
          | apply read_source_respects | apply write_summary_respects
          | apply set_raw_file_respects | apply set_popular_file_respects
          | apply random_sample_respects ].
Qed.

End steps.

(** Two seeded runs on the same source end the same way, and on each of the
    three files either both have written the same content or neither has
    written. *)
Lemma seeded_runs_agree (a base : Z) (w v : world G) :
  source w = source v →
  (seeded_run json_loads to_parquet a base w).1 = (seeded_run json_loads to_parquet a base v).1 ∧
  agree w v (seeded_run json_loads to_parquet a base w).2 (seeded_run json_loads to_parquet a base v).2.
Proof.
  intros Hsrc. unfold seeded_run, mbind, eff_bind, seed.
  apply (preprocess_data_respects w v base).
  split_and!; try done; apply file_agrees_start.
Qed.

Lemma preprocess_data_source (base : Z) :
  preserves source (preprocess_data json_loads to_parquet base).
Proof.
  unfold preprocess_data, load_conversations, process_collection,
    write_artifacts, print_breakdown, sample_pools.
  step_through @preserves_bind @preserves_ret @preserves_lift;
    try (by intros w).
  all: intros w; unfold random_sample, write_summary;
    first [ by destruct (sample _ _ (rng w)) as [[chosen g]|e]
          | by destruct (to_parquet _) ].
Qed.

(** C4.  The preprocessor draws from a seedable generator and nothing else
    in it is left to chance: seeded with the same number, two runs over
    the same source and the same base count end the same way and leave the
    same summary table, raw lookup and popular-assignment extract,
    whatever state the generator was in before.  This holds for a second
    run that follows the first in the same directory, and for two runs
    that start from directories with the same files. *)
Theorem seeded_runs_reproducible (a base : Z) (w : world G) :
  (let first := seeded_run json_loads to_parquet a base w in
   let second := seeded_run json_loads to_parquet a base first.2 in
   second.1 = first.1 ∧
   summary_file second.2 = summary_file first.2 ∧
   raw_file second.2 = raw_file first.2 ∧
   popular_file second.2 = popular_file first.2) ∧
  (∀ v,
     source v = source w →
     summary_file v = summary_file w →
     raw_file v = raw_file w →
     popular_file v = popular_file w →
     let here := seeded_run json_loads to_parquet a base w in
     let there := seeded_run json_loads to_parquet a base v in
     there.1 = here.1 ∧
     summary_file there.2 = summary_file here.2 ∧
     raw_file there.2 = raw_file here.2 ∧
     popular_file there.2 = popular_file here.2).
Proof.
  split.
  - intros first second.
    assert (source first.2 = source w) as Hsrc.
    { unfold first, seeded_run, mbind, eff_bind, seed.
      by rewrite preprocess_data_source. }
    destruct (seeded_runs_agree a base w first.2 (eq_sym Hsrc))
      as (Hres & _ & _ & Hsum & Hraw & Hpop).
    fold first second in Hres, Hsum, Hraw, Hpop.
    split_and!.
    + done.
    + by destruct Hsum as [?|[_ ?]].
    + by destruct Hraw as [?|[_ ?]].
    + by destruct Hpop as [?|[_ ?]].
  - intros v Hsrc Hsum Hraw Hpop here there.
    destruct (seeded_runs_agree a base w v (eq_sym Hsrc))
      as (Hres & _ & _ & Hs & Hr & Hp).
    fold here there in Hres, Hs, Hr, Hp.
    rewrite Hsum in Hs. rewrite Hraw in Hr. rewrite Hpop in Hp.
    apply file_agrees_eq in Hs, Hr, Hp. by split_and!.
Qed.
End reproducibility.

(* ===================================================================== *)
(** * The viewer *)
(* ===================================================================== *)

Lemma first_written_app (body rest : list element) (v : value) :
  first_written body = Some v → first_written (body ++ rest) = Some v.
Proof.
  induction body as [|e body IH]; [done|]. destruct e; cbn; auto.
Qed.

Lemma labelled_app_body (body rest : list element) :
  labelled body = [] → labelled (body ++ rest) = labelled rest.
Proof.
  induction body as [|e body IH]; [done|]. destruct e; cbn; auto. done.
Qed.

Lemma first_written_expander (page rest : list element) (label : string) :
  first_written (page ++ StExpander label :: rest) = first_written page.
Proof. induction page as [|e page IH]; [done|]. destruct e; cbn; auto. Qed.

Lemma labelled_app (page rest : list element) (label : string) :
  labelled (page ++ StExpander label :: rest)
  = labelled page ++ (label, first_written rest) :: labelled rest.
Proof.
  induction page as [|e page IH]; [done|].
  destruct e; cbn; try done.
  by rewrite IH, first_written_expander.
Qed.

(** Run a script whose data is known: unfold the combinators and use the
    equations of the context. *)
Ltac crunch :=
  unfold mbind, mret, eff_bind, eff_ret, result_bind, lift, show;
  repeat first
    [ progress
        cbn [dict_get subscript contains len item default from_option id
             fst snd truthy concat negb fmap result_fmap app]
    | match goal with
      | H : ?x = _ |- context [?x] => rewrite H
      end
    | progress unfold Py.index
    | rewrite bool_decide_eq_true_2 by eauto
    | rewrite bool_decide_eq_false_2 by (by intros [??]) ].

(** Under a well-formed assignment the lookup of the teacher's concept for
    question [i] never raises; it shows at most a warning. *)
Lemma flow_concept_ok (d : list (string * value)) (i : nat) :
  match assoc "assignment" d with
  | None => true
  | Some a => well_formed_assignment a
  end = true →
  ∃ body,
    (∀ page, flow_concept (VDict d) i page = (Ok (), page ++ body)) ∧
    labelled body = [] ∧ first_written body = None.
Proof.
  intros Hwf.
  assert (∀ page : list element, (Ok (), page) = (Ok (), page ++ [])) as Hnil.
  { intros page. by rewrite app_nil_r. }
  destruct (assoc "assignment" d) as [a|] eqn:Ha.
  2:{ exists []. split; [|by split]. intros page. unfold flow_concept. crunch.
      apply Hnil. }
  destruct a as [| | | | |ad]; try done. cbn [well_formed_assignment] in Hwf.
  destruct (assoc "conversation_flow" ad) as [flow|] eqn:Hflow.
  2:{ exists []. split; [|by split]. intros page. unfold flow_concept. crunch.
      apply Hnil. }
  destruct flow as [| | | |entries|]; try done.
  destruct (i - 1 <? length entries) eqn:Hi.
  2:{ exists []. split; [|by split]. intros page. unfold flow_concept. crunch.
      apply Hnil. }
  apply Nat.ltb_lt in Hi as Hlt.
  destruct (lookup_lt_is_Some_2 entries (i - 1) Hlt) as [entry Hentry].
  rewrite forallb_forall in Hwf.
  assert (well_formed_flow_entry entry = true) as Hent.
  { apply Hwf. apply list_elem_of_In. by eapply list_elem_of_lookup_2. }
  destruct entry as [| | | | |ed]; try done. cbn [well_formed_flow_entry] in Hent.
  destruct (assoc "concept" ed) as [concept|] eqn:Hconcept.
  2:{ exists []. split; [|by split]. intros page. unfold flow_concept. crunch.
      apply Hnil. }
  destruct concept as [| | |s| |]; try done.
  { exists []. split; [|by split]. intros page. unfold flow_concept. crunch.
    apply Hnil. }
  destruct (String.eqb s "") eqn:Hs.
  - exists []. split; [|by split]. intros page. unfold flow_concept. crunch.
    apply Hnil.
  - eexists [_].
    split; [intros page; unfold flow_concept; crunch; reflexivity | by split].
Qed.

Lemma first_written_app_none (body rest : list element) :
  labelled body = [] → first_written body = None →
  first_written (body ++ rest) = first_written rest.
Proof.
  induction body as [|e body IH]; [done|]. destruct e; cbn; auto; done.
Qed.

(** One question, shown under the label of its position: the expander, then
    a body that opens no other expander and whose first written value is
    the text of the question. *)
Lemma render_question_ok (d : list (string * value)) (i : nat)
    (question : value) (label : string) :
  match assoc "assignment" d with
  | None => true
  | Some a => well_formed_assignment a
  end = true →
  well_formed_question question = true →
  question_labels !! (i - 1) = Some label →
  ∃ body,
    (∀ page,
       render_question (VDict d) i question page
       = (Ok (), page ++ StExpander label :: body)) ∧
    labelled body = [] ∧
    first_written body = question_text question.
Proof.
  intros Hwf Hq Hlabel.
  destruct (flow_concept_ok d i Hwf) as (flow & Hflow & Hflow1 & Hflow2).
  assert (i - 1 < length question_descriptions) as Hlt.
  { apply lookup_lt_Some in Hlabel. exact Hlabel. }
  destruct (lookup_lt_is_Some_2 _ _ Hlt) as [description Hdescription].
  destruct question as [| | | | |qd]; try done.
  cbn [well_formed_question] in Hq. apply andb_prop in Hq as [Hq1 Hq2].
  apply bool_decide_eq_true in Hq1 as [text Htext].
  apply bool_decide_eq_true in Hq2 as [response Hresponse].
  assert (∀ tail,
    labelled (StInfo ("**Question Type:** " +:+ description) :: flow ++
              StWrite "**Question:**" :: StWriteValue text ::
              StWrite "**Student Response:**" :: StWriteValue response :: tail)
      = labelled tail ∧
    first_written (StInfo ("**Question Type:** " +:+ description) :: flow ++
              StWrite "**Question:**" :: StWriteValue text ::
              StWrite "**Student Response:**" :: StWriteValue response :: tail)
      = Some text) as Hbody.
  { intros tail. cbn [labelled first_written].
    by rewrite labelled_app_body, first_written_app_none. }
  unfold question_text. cbn [subscript]. rewrite Htext. cbn [to_option].
  destruct (assoc "improved_response" qd) as [improved|] eqn:Himproved;
    [destruct (truthy improved) eqn:Htruthy|].
  - eexists. split.
    + intros page. unfold render_question. crunch. rewrite Hflow. crunch.
      rewrite <-!app_assoc. reflexivity.
    + exact (Hbody [StWrite "**Improved Response (GPT-improved):**";
                    StWriteValue improved]).
  - eexists. split.
    + intros page. unfold render_question. crunch. rewrite Hflow. crunch.
      rewrite <-!app_assoc. reflexivity.
    + exact (Hbody []).
  - eexists. split.
    + intros page. unfold render_question. crunch. rewrite Hflow. crunch.
      rewrite <-!app_assoc. reflexivity.
    + exact (Hbody []).
Qed.

(** Past the sixth question the label table has no entry: the lookup
    raises before anything is shown. *)
Lemma render_question_out_of_range (conversation_data question : value)
    (i : nat) (page : list element) :
  question_labels !! (i - 1) = None →
  render_question conversation_data i question page = (Raise IndexError, page).
Proof. intros Hnone. unfold render_question. by crunch. Qed.

Lemma well_formed_question_text (q : value) :
  well_formed_question q = true → is_Some (question_text q).
Proof.
  destruct q as [| | | | |qd]; try done. cbn [well_formed_question].
  intros [[text Htext]%bool_decide_eq_true _]%andb_prop.
  unfold question_text. cbn [subscript]. rewrite Htext. by eexists.
Qed.

(** The loop over the questions, entered at position [j] (counting from 0):
    it shows the questions under the labels from position [j] on, and
    raises [IndexError] when the questions outnumber the labels left. *)
Lemma render_questions_from_spec (d : list (string * value))
    (questions : list value) :
  match assoc "assignment" d with
  | None => true
  | Some a => well_formed_assignment a
  end = true →
  forallb well_formed_question questions = true →
  ∀ j,
    ∃ out,
      (∀ page,
         render_questions_from (VDict d) (S j) questions page
         = (if decide (length questions ≤ 6 - j)
            then Ok () else Raise IndexError,
            page ++ out)) ∧
      labelled out = zip (drop j question_labels) (question_text <$> questions).
Proof.
  intros Hwf. induction questions as [|q questions IH]; intros Hqs j.
  { exists []. split; [|by rewrite fmap_nil, zip_with_nil_r].
    intros page. cbn [render_questions_from length]. rewrite app_nil_r.
    by rewrite decide_True by lia. }
  cbn [forallb] in Hqs. apply andb_prop in Hqs as [Hq Hqs].
  cbn [render_questions_from length fmap list_fmap].
  destruct (question_labels !! j) as [label|] eqn:Hlabel.
  - apply lookup_lt_Some in Hlabel as Hj. cbn [length question_labels] in Hj.
    destruct (render_question_ok d (S j) q label Hwf Hq) as (body & Hbody & Hb1 & Hb2).
    { by rewrite Nat.sub_1_r. }
    destruct (IH Hqs (S j)) as (out & Hout & Hlab).
    destruct (well_formed_question_text q Hq) as [text Htext].
    exists (StExpander label :: body ++ out). split.
    + intros page. unfold mbind, eff_bind. rewrite Hbody, Hout.
      rewrite <-app_assoc. cbn [app]. f_equal.
      destruct (decide (length questions ≤ 6 - S j)),
               (decide (S (length questions) ≤ 6 - j)); try done; lia.
    + cbn [labelled]. rewrite labelled_app_body, Hlab by done.
      rewrite (first_written_app body out text) by congruence.
      rewrite (drop_S _ _ _ Hlabel). cbn [zip zip_with]. by rewrite Htext.
  - apply lookup_ge_None in Hlabel as Hj. cbn [length question_labels] in Hj.
    exists []. split.
    + intros page. unfold mbind, eff_bind.
      rewrite render_question_out_of_range by (by rewrite Nat.sub_1_r).
      rewrite decide_False by lia. by rewrite app_nil_r.
    + by rewrite drop_ge.
Qed.

(** C10.  In the Questions tab of a well-formed record, question [i]
    (counting from 1) is shown under entry [i - 1] of the six-entry label
    table, for as long as the table reaches: the expanders on the page are
    the labels in order, each paired with the text of its question.  With
    at most six questions every lookup is in bounds and the tab completes;
    with more, the first six are shown and the lookup of a seventh label
    raises [IndexError]. *)
Theorem question_labels_by_position (conversation_data : value)
    (questions : list value) :
  well_formed_record conversation_data = true →
  subscript conversation_data "questions" = Ok (VList questions) →
  ∃ page,
    render_questions conversation_data []
    = (if decide (length questions ≤ 6) then Ok () else Raise IndexError,
       page) ∧
    labelled page = zip question_labels (question_text <$> questions) ∧
    (∀ i question,
       questions !! i = Some question → i < 6 →
       ∃ label,
         question_labels !! i = Some label ∧
         labelled page !! i = Some (label, question_text question)) ∧
    question_labels !! 6 = None.
Proof.
  intros Hwf Hqs.
  destruct conversation_data as [| | | | |d]; try done.
  cbn [well_formed_record] in Hwf. apply andb_prop in Hwf as [Ha Hq].
  cbn [subscript] in Hqs.
  destruct (assoc "questions" d) as [qs|] eqn:Hquestions; [|done].
  injection Hqs as ->.
  destruct (render_questions_from_spec d questions Ha Hq 0) as (page & Hrun & Hlab).
  exists page. split_and!.
  - unfold render_questions, mbind at 1, eff_bind, lift. cbn [subscript].
    rewrite Hquestions. cbn [mbind result_bind iter]. by rewrite Hrun.
  - done.
  - intros i question Hi Hlt.
    destruct (lookup_lt_is_Some_2 question_labels i Hlt) as [label Hlabel].
    exists label. split; [done|]. rewrite Hlab.
    apply lookup_zip_with_Some. exists label, (question_text question).
    split_and!; [done | done |]. by rewrite list_lookup_fmap, Hi.
  - done.
Qed.

(** The guard at the top of the script: without the summary table the
    viewer shows the instruction to run the preprocessor and stops, with
    nothing else on the page. *)
Lemma viewer_stops_without_summary (fs : files) (user : session) :
  conversations_parquet fs = None →
  run_app fs user
  = (Stopped,
     [StError "Preprocessed data not found. Please run preprocess.py first."]).
Proof.
  intros Hnone. unfold run_app, app, mbind at 1, eff_bind.
  rewrite bool_decide_eq_true_2 by done. reflexivity.
Qed.

(** C8, where the code departs from it.  The guard looks at the summary
    table only: when the table is there and the raw lookup is not, the
    script passes the guard and [load_data] raises [FileNotFoundError],
    which nothing catches; no instruction to run the preprocessor is
    shown. *)
Theorem viewer_raises_without_raw_lookup (df : list summary_row) (user : session) :
  run_app (Files (Some df) None) user = (Uncaught FileNotFoundError, []).
Proof.
  unfold run_app, app, mbind at 1, eff_bind.
  rewrite bool_decide_eq_false_2 by done. reflexivity.
Qed.

(* ===================================================================== *)
(** * The properties on the example collection *)
(* ===================================================================== *)

Lemma empty_collection_raises_index_error_witness :
  ∃ w',
    preprocess_data (Examples.decoder_of "[]" (VList [])) Examples.stores_all 500
      (Examples.fresh "[]")
    = (Raise IndexError, w') ∧
    summary_file w' = Missing ∧
    raw_file w' = Missing ∧
    popular_file w' = Missing.
Proof.
  exact (proj1 (empty_collection_raises_index_error
    (Examples.decoder_of "[]" (VList [])) Examples.stores_all 500 (Examples.fresh "[]") (VList [])
    eq_refl) eq_refl).
Defined.


Lemma seeded_runs_reproducible_witness :
  let decoder :=
    Examples.decoder_of "doc" (VList Examples.six_conversations) in
  let first := seeded_run decoder Examples.stores_all 42 4 (Examples.fresh "doc") in
  let second := seeded_run decoder Examples.stores_all 42 4 first.2 in
  second.1 = first.1 ∧
  summary_file second.2 = summary_file first.2 ∧
  raw_file second.2 = raw_file first.2 ∧
  popular_file second.2 = popular_file first.2.
Proof.
  exact (proj1 (seeded_runs_reproducible
    (Examples.decoder_of "doc" (VList Examples.six_conversations)) Examples.stores_all 42 4
    (Examples.fresh "doc"))).
Defined.

Lemma question_labels_by_position_witness :
  ∃ page,
    render_questions (Examples.record_with Examples.seven_questions) []
    = (Raise IndexError, page) ∧
    labelled page
    = zip question_labels (question_text <$> Examples.seven_questions) ∧
    (∀ i question,
       Examples.seven_questions !! i = Some question → i < 6 →
       ∃ label,
         question_labels !! i = Some label ∧
         labelled page !! i = Some (label, question_text question)) ∧
    question_labels !! 6 = None.
Proof.
  exact (question_labels_by_position
    (Examples.record_with Examples.seven_questions) Examples.seven_questions
    eq_refl eq_refl).
Defined.

Lemma example_unique_ids : unique_ids Examples.six_conversations.
Proof. apply (bool_decide_unpack _). vm_compute. exact I. Qed.

Lemma example_string_ids : string_ids Examples.six_conversations.
Proof. unfold string_ids. repeat (constructor; [by eexists|]). constructor. Qed.

Lemma summary_rows_match_lookup_witness :
  let decoder :=
    Examples.decoder_of "doc" (VList Examples.six_conversations) in
  let out := preprocess_data decoder Examples.stores_all 4 (Examples.fresh "doc") in
  ∃ rows raw,
    summary_file out.2 = Holds rows ∧
    raw_file out.2 = Holds raw ∧
    ∃ selected popular,
      selected ⊆+ Examples.six_conversations ∧
      Forall2 (λ row conv, summary_record popular conv = Ok row) rows selected ∧
      conversation_id <$> rows = VStr <$> names raw ∧
      NoDup (names raw) ∧
      raw.*2 = selected ∧
      length raw = length rows ∧
      json_load_object raw = VDict raw ∧
      ∀ s conv,
        assoc s raw = Some conv ↔ conv ∈ selected ∧ string_id conv = Some s.
Proof.
  intros decoder out.
  destruct (summary_file out.2) as [| |rows] eqn:Hrows;
    [discriminate Hrows | discriminate Hrows |].
  destruct (raw_file out.2) as [| |raw] eqn:Hraw;
    [discriminate Hraw | discriminate Hraw |].
  exists rows, raw. split; [reflexivity|]. split; [reflexivity|].
  exact (summary_rows_match_lookup decoder Examples.stores_all 4
    (Examples.fresh "doc") out.2 out.1
    (VList Examples.six_conversations) Examples.six_conversations rows raw
    eq_refl eq_refl example_unique_ids example_string_ids eq_refl
    (surjective_pairing out) Hrows Hraw).
Defined.

(** C3 as stated fails when the unique ids are not all strings, since
    [json.dump] writes every key as a string.  The ids [null] and "null"
    are different; the summary table gets a row for each, and both records
    are written under the name "null": read back, the raw lookup has one
    key for the two rows.  The ids 7 and 8 are written as "7" and "8":
    read back, the raw lookup has no key 7, and the id of the first row
    does not resolve. *)
Lemma distinct_ids_one_lookup_key :
  let out :=
    preprocess_data (Examples.decoder_of "doc" (VList Samples.null_ids))
      Examples.stores_all 4 (Examples.fresh "doc") in
  let numbers :=
    preprocess_data (Examples.decoder_of "doc" (VList Samples.integer_ids))
      Examples.stores_all 4 (Examples.fresh "doc") in
  unique_ids Samples.null_ids ∧
  out.1 = Ok () ∧
  (∃ rows raw,
     summary_file out.2 = Holds rows ∧
     raw_file out.2 = Holds raw ∧
     conversation_id <$> rows = [VNone; VStr "null"] ∧
     names raw = ["null"; "null"] ∧
     json_load_object raw = VDict [("null", Samples.with_id (VStr "null"))]) ∧
  unique_ids Samples.integer_ids ∧
  numbers.1 = Ok () ∧
  ∃ rows raw,
    summary_file numbers.2 = Holds rows ∧
    raw_file numbers.2 = Holds raw ∧
    conversation_id <$> rows = [VInt 7; VInt 8] ∧
    names raw = ["7"; "8"] ∧
    getitem (json_load_object raw) (VInt 7) = Raise KeyError.
Proof.
  split; [apply (bool_decide_unpack _); vm_compute; exact I|].
  split; [vm_compute; reflexivity|].
  split.
  { eexists _, _. split; [vm_compute; reflexivity|].
    split; [vm_compute; reflexivity|].
    split_and!; vm_compute; reflexivity. }
  split; [apply (bool_decide_unpack _); vm_compute; exact I|].
  split; [vm_compute; reflexivity|].
  eexists _, _. split; [vm_compute; reflexivity|].
  split; [vm_compute; reflexivity|].
  split_and!; vm_compute; reflexivity.
Qed.

Lemma popular_extract_is_popular_partition_witness :
  let decoder :=
    Examples.decoder_of "doc" (VList Examples.six_conversations) in
  let out := preprocess_data decoder Examples.stores_all 4 (Examples.fresh "doc") in
  ∃ extract,
    popular_file out.2 = Holds extract ∧
    extract_assignment_id extract = VStr "A" ∧
    let popular :=
      filter (λ conv, of_assignment (VStr "A") conv = true)
        Examples.six_conversations in
    let members := extract_conversations extract in
    (∀ i, occurrences i Examples.six_conversations
          ≤ occurrences (VStr "A") Examples.six_conversations) ∧
    most_popular Examples.six_conversations = Ok (VStr "A", length popular) ∧
    NoDup (names members) ∧
    json_load_object members = VDict members ∧
    list_to_set (names members) =@{gset string}
      list_to_set (omap string_id popular) ∧
    (∀ s conv,
       (s, conv) ∈ members → conv ∈ popular ∧ string_id conv = Some s) ∧
    (∀ conv,
       conv ∈ popular →
       ∃ s, string_id conv = Some s ∧ s ∈ names members) ∧
    (unique_ids Examples.six_conversations →
     ∀ conv,
       conv ∈ popular →
       ∃ s, string_id conv = Some s ∧ assoc s members = Some conv) ∧
    ∃ sampled_rows popular_rows raw,
      summary_file out.2 = Holds (sampled_rows ++ popular_rows) ∧
      Forall2 (λ row conv, summary_record (VStr "A") conv = Ok row)
        popular_rows popular ∧
      raw_file out.2 = Holds raw ∧
      members ⊆ raw ∧
      names members ⊆ names raw.
Proof.
  intros decoder out.
  destruct (popular_file out.2) as [| |extract] eqn:Hextract;
    [discriminate Hextract | discriminate Hextract |].
  assert (extract_assignment_id extract = VStr "A") as Hid.
  { assert (extract_assignment_id <$>
              match popular_file out.2 with Holds e => Some e | _ => None end
            = Some (VStr "A")) as Hm by (vm_compute; reflexivity).
    rewrite Hextract in Hm. by injection Hm. }
  exists extract. split; [reflexivity|]. split; [exact Hid|].
  rewrite <-Hid.
  exact (popular_extract_is_popular_partition decoder Examples.stores_all 4
    (Examples.fresh "doc") out.2 out.1 (VList Examples.six_conversations)
    Examples.six_conversations extract eq_refl eq_refl example_string_ids
    eq_refl (surjective_pairing out) Hextract).
Defined.

(** C2 as stated fails when the ids are not all strings, since
    [json.dump] writes every key as a string.  The two records with the
    ids [null] and "null" belong to the most popular assignment; the
    extract holds both under the name "null", so that read back it has one
    conversation where the popular partition has two records. *)
Lemma distinct_ids_one_extract_key :
  let out :=
    preprocess_data (Examples.decoder_of "doc" (VList Samples.null_ids))
      Examples.stores_all 4 (Examples.fresh "doc") in
  let popular :=
    filter (λ conv, of_assignment (VStr "A") conv = true) Samples.null_ids in
  popular = Samples.null_ids ∧
  conversation_keys popular = [KNone; KStr "null"] ∧
  out.1 = Ok () ∧
  ∃ extract,
    popular_file out.2 = Holds extract ∧
    extract_assignment_id extract = VStr "A" ∧
    names (extract_conversations extract) = ["null"; "null"] ∧
    json_load_object (extract_conversations extract)
      = VDict [("null", Samples.with_id (VStr "null"))].
Proof.
  split; [vm_compute; reflexivity|].
  split; [vm_compute; reflexivity|].
  split; [vm_compute; reflexivity|].
  eexists. split; [vm_compute; reflexivity|].
  split_and!; vm_compute; reflexivity.
Qed.

(** Ten records: six of assignment A, four of B and C of which two carry
    valid concepts.  With a base count of 4 each pool gives its two
    records and the popular assignment its six: the summary table and the
    raw lookup have ten entries each. *)
Example ten_records_select_ten :
  let data :=
    VList [Examples.conversation "c1" "A" []; Examples.conversation "c2" "A" [];
           Examples.conversation "c3" "B" ["gravity"];
           Examples.conversation "c4" "A" ["cells"];
           Examples.conversation "c5" "C" [];
           Examples.conversation "c6" "A" [];
           Examples.conversation "c7" "B" [""; "light"];
           Examples.conversation "c8" "A" [];
           Examples.conversation "c9" "C" ["atoms"];
           Examples.conversation "c10" "A" []] in
  let out :=
    preprocess_data (Examples.decoder_of "doc" data) Examples.stores_all 4 (Examples.fresh "doc") in
  out.1 = Ok () ∧
  match summary_file out.2, raw_file out.2 with
  | Holds rows, Holds raw => length rows = 10 ∧ length raw = 10
  | _, _ => False
  end.
Proof. vm_compute. split_and!; reflexivity. Qed.

(** A run can fail between the files: when the first record of the popular
    assignment has no title, the summary table and the raw lookup are
    written and the extract is left empty. *)
Example missing_title_leaves_extract_empty :
  let data :=
    VList [VDict [("_id", VStr "c1");
                  ("assignment", VDict [("_id", VStr "A")])]] in
  let out :=
    preprocess_data (Examples.decoder_of "doc" data) Examples.stores_all 4 (Examples.fresh "doc") in
  out.1 = Raise KeyError ∧
  (∃ rows, summary_file out.2 = Holds rows) ∧
  (∃ raw, raw_file out.2 = Holds raw) ∧
  popular_file out.2 = Truncated.
Proof. vm_compute. split_and!; eauto. Qed.

(* ===================================================================== *)
(** * The partitions and the pick, record by record *)
(* ===================================================================== *)

(** A comprehension whose condition never raises is the filter by the
    condition. *)
Lemma filterM_filter {A} (p : A → result bool) (Q : A → Prop)
    `{∀ x, Decision (Q x)} (l r : list A) :
  (∀ x b, p x = Ok b → (Q x ↔ b = true)) →
  filterM p l = Ok r → r = filter Q l.
Proof.
  intros HQ. revert r. induction l as [|x l IH]; intros r Hr.
  { by injection Hr as <-. }
  cbn [filterM] in Hr.
  destruct (p x) as [b|] eqn:Hb; [|done]. cbn [mbind result_bind] in Hr.
  destruct (filterM p l) as [rest|]; [|done]. cbn [mbind result_bind] in Hr.
  injection Hr as <-. rewrite filter_cons, <-(IH rest) by done.
  destruct b.
  - by rewrite decide_True by (by apply (HQ x true)).
  - rewrite decide_False; [done|]. by intros ?%(HQ x false).
Qed.

(** X1.  The three partitions (lines 59-75) are the collection, split: the
    popular records, and of the remaining ones those with and those
    without valid concepts, each partition in the order of the collection;
    together they are the whole collection, so the three numbers of the
    initial counts add up to its size. *)
Theorem partition_covers_collection (mp : value)
    (convs popular with_concepts without_concepts : list value) :
  partition mp convs = Ok (popular, with_concepts, without_concepts) →
  let remaining := filter (λ conv, of_assignment mp conv = false) convs in
  popular = filter (λ conv, of_assignment mp conv = true) convs ∧
  with_concepts = filter (λ conv, has_valid_concepts conv = Ok true) remaining ∧
  without_concepts
    = filter (λ conv, has_valid_concepts conv = Ok false) remaining ∧
  popular ++ with_concepts ++ without_concepts ≡ₚ convs ∧
  length with_concepts + length without_concepts + length popular
    = length convs.
Proof.
  intros Hpart remaining.
  pose proof (partition_spec _ _ _ _ _ Hpart) as (_ & Hperm & _).
  unfold partition in Hpart.
  destruct (filterM (is_popular mp) convs) as [pop|] eqn:E; [|done].
  cbn [mbind result_bind] in Hpart.
  destruct (filterM _ convs) as [rem|] eqn:E0 in Hpart; [|done].
  cbn [mbind result_bind] in Hpart.
  destruct (filterM has_valid_concepts rem) as [wc|] eqn:E1; [|done].
  cbn [mbind result_bind] in Hpart.
  destruct (filterM _ rem) as [woc|] eqn:E2 in Hpart; [|done].
  cbn [mbind result_bind] in Hpart. simplify_eq.
  assert (rem = remaining) as ->.
  { apply (filterM_filter _ (λ conv, of_assignment mp conv = false)) in E0;
      [done|].
    intros conv b (b' & Hb' & ->)%fmap_Ok.
    apply is_popular_of_assignment in Hb'. rewrite Hb'. by destruct b'. }
  split_and!.
  - apply (filterM_filter _ (λ conv, of_assignment mp conv = true)) in E;
      [done|].
    intros conv b Hb. apply is_popular_of_assignment in Hb. by rewrite Hb.
  - apply (filterM_filter _ (λ conv, has_valid_concepts conv = Ok true)) in E1;
      [done|].
    intros conv b Hb. rewrite Hb. split; [by intros [= ->] | by intros ->].
  - apply (filterM_filter _ (λ conv, has_valid_concepts conv = Ok false)) in E2;
      [done|].
    intros conv b (b' & Hb' & ->)%fmap_Ok. rewrite Hb'.
    split; [by intros [= ->] | by destruct b'].
  - by rewrite (Permutation_app_comm), <-app_assoc.
  - rewrite <-Hperm, !length_app. lia.
Qed.

Lemma partition_covers_collection_witness :
  let remaining :=
    filter (λ conv, of_assignment (VStr "A") conv = false)
      Examples.six_conversations in
  [Examples.conversation "c1" "A" []; Examples.conversation "c3" "A" ["cells"];
   Examples.conversation "c6" "A" []]
    = filter (λ conv, of_assignment (VStr "A") conv = true)
        Examples.six_conversations ∧
  [Examples.conversation "c2" "B" ["gravity"]]
    = filter (λ conv, has_valid_concepts conv = Ok true) remaining ∧
  [Examples.conversation "c4" "C" [];
   Examples.conversation "c5" "B" [""; "photosynthesis"]]
    = filter (λ conv, has_valid_concepts conv = Ok false) remaining ∧
  [Examples.conversation "c1" "A" []; Examples.conversation "c3" "A" ["cells"];
   Examples.conversation "c6" "A" []] ++
    [Examples.conversation "c2" "B" ["gravity"]] ++
    [Examples.conversation "c4" "C" [];
     Examples.conversation "c5" "B" [""; "photosynthesis"]]
    ≡ₚ Examples.six_conversations ∧
  1 + 2 + 3 = 6.
Proof.
  exact (partition_covers_collection (VStr "A") Examples.six_conversations
    _ _ _ eq_refl).
Defined.

(** Counting a record keeps the entries of the counter in place; only a
    count changes, or a new entry comes last. *)
Lemma counter_incr_lookup (i : value) (c : counter) (j : nat) (v : value)
    (n : nat) :
  c !! j = Some (v, n) → ∃ n', counter_incr i c !! j = Some (v, n').
Proof.
  revert j. induction c as [|[v0 n0] c IH]; intros j Hj; [done|].
  cbn [counter_incr]. destruct (py_eq v0 i).
  - destruct j as [|j]; [|by eauto]. injection Hj as -> ->. by eauto.
  - destruct j as [|j]; [by eauto|]. by apply IH.
Qed.

Lemma counter_incr_new (i : value) (c : counter) (j : nat) (v : value)
    (n : nat) :
  counter_incr i c !! j = Some (v, n) → length c ≤ j → v = i.
Proof.
  revert j. induction c as [|[v0 n0] c IH]; intros j Hj Hlen.
  - destruct j; [|done]. by injection Hj as <- _.
  - cbn [counter_incr] in Hj. cbn [length] in Hlen.
    destruct j as [|j]; [lia|]. destruct (py_eq v0 i).
    + apply lookup_lt_Some in Hj. cbn [length] in Hj. lia.
    + apply (IH j); [done | lia].
Qed.

Lemma counter_incr_entry (i : value) (c : counter) :
  ∃ j v n,
    counter_incr i c !! j = Some (v, n) ∧ (py_eq v i = true ∨ v = i).
Proof.
  induction c as [|[v0 n0] c (j & v & n & Hj & Hv)].
  - exists 0, i, 1. by split; [|right].
  - cbn [counter_incr]. destruct (py_eq v0 i) eqn:Heq.
    + exists 0, v0, (S n0). by split; [|left].
    + by exists (S j), v, n.
Qed.

Lemma count_assignments_lookup (convs : list value) :
  ∀ (c c' : counter) (j : nat) (v : value) (n : nat),
    count_assignments convs c = Ok c' →
    c !! j = Some (v, n) → ∃ n', c' !! j = Some (v, n').
Proof.
  induction convs as [|conv convs IH]; intros c c' j v n Hrun Hj.
  { injection Hrun as <-. by eauto. }
  cbn [count_assignments] in Hrun.
  destruct (assignment_id_of conv) as [i|]; [|done].
  cbn [mbind result_bind] in Hrun.
  destruct (hash_key i); [|done]. cbn [mbind result_bind] in Hrun.
  destruct (counter_incr_lookup i c j v n Hj) as [n1 Hn1]. by eapply IH.
Qed.

(** An entry that counting the records [convs] adds to the counter carries
    the id of the record at which its assignment first occurs; the records
    before that one have their entries before it. *)
Lemma count_assignments_first_seen (convs : list value) :
  ∀ (c c' : counter) (j : nat) (v : value) (n : nat),
    count_assignments convs c = Ok c' →
    c' !! j = Some (v, n) → length c ≤ j →
    ∃ before first after,
      convs = before ++ first :: after ∧
      assignment_id_of first = Ok v ∧
      Forall (λ conv, ∃ j' v' n' i',
                j' < j ∧ c' !! j' = Some (v', n') ∧
                assignment_id_of conv = Ok i' ∧
                (py_eq v' i' = true ∨ v' = i')) before.
Proof.
  induction convs as [|conv convs IH]; intros c c' j v n Hrun Hj Hlen.
  { injection Hrun as <-. apply lookup_lt_Some in Hj. lia. }
  cbn [count_assignments] in Hrun.
  destruct (assignment_id_of conv) as [i|] eqn:Hi; [|done].
  cbn [mbind result_bind] in Hrun.
  destruct (hash_key i) as [k|] eqn:Hk; [|done].
  cbn [mbind result_bind] in Hrun.
  destruct (decide (length (counter_incr i c) ≤ j)) as [Hnew|Hold].
  - destruct (IH _ _ _ _ _ Hrun Hj Hnew)
      as (before & first & after & -> & Hfirst & Hbefore).
    exists (conv :: before), first, after. split_and!; [done | done |].
    constructor; [|done].
    destruct (counter_incr_entry i c) as (j0 & v0 & n0 & Hj0 & Hv0).
    destruct (count_assignments_lookup _ _ _ _ _ _ Hrun Hj0) as [n0' Hn0'].
    exists j0, v0, n0', i. split_and!; try done.
    apply lookup_lt_Some in Hj0. lia.
  - destruct (lookup_lt_is_Some_2 (counter_incr i c) j ltac:(lia))
      as [[v1 n1] Hj1].
    destruct (count_assignments_lookup _ _ _ _ _ _ Hrun Hj1) as [n1' Hn1'].
    assert (v1 = v) as -> by congruence.
    apply counter_incr_new in Hj1 as ->; [|done].
    exists [], conv, convs. by split_and!.
Qed.

(** [max] returns the first of the entries with the largest count. *)
Lemma max_count_first (c : counter) :
  ∀ best,
    ∃ j,
      (best :: c) !! j = Some (max_count best c) ∧
      ∀ j' e, j' < j → (best :: c) !! j' = Some e →
        e.2 < (max_count best c).2.
Proof.
  induction c as [|x c IH]; intros best.
  { exists 0. split; [done|]. intros; lia. }
  cbn [max_count].
  destruct (Nat.ltb_spec best.2 x.2) as [Hlt|Hge].
  - destruct (IH x) as (j & Hj & Hbefore).
    destruct (max_count_spec c x) as (_ & Hx & _).
    exists (S j). split; [done|].
    intros [|j'] e Hj' He.
    + injection He as <-. lia.
    + apply (Hbefore j'); [lia | done].
  - destruct (IH best) as ([|j] & Hj & Hbefore).
    + exists 0. split; [done|]. intros; lia.
    + exists (S (S j)). split; [done|].
      assert (best.2 < (max_count best c).2) as Hbest.
      { apply (Hbefore 0); [lia | done]. }
      intros [|[|j']] e Hj' He.
      * injection He as <-. done.
      * injection He as <-. lia.
      * apply (Hbefore (S j')); [lia | done].
Qed.

(** X2.  The pick among assignments with equally many records (lines 56-57):
    the most popular assignment id is the id, as its record carries it, of
    the first record of the collection whose assignment has the largest
    number of records; every record before that one belongs to an
    assignment with strictly fewer records. *)
Theorem most_popular_first_among_ties (convs : list value) (mp : value)
    (count : nat) :
  most_popular convs = Ok (mp, count) →
  ∃ before first after k,
    convs = before ++ first :: after ∧
    assignment_id_of first = Ok mp ∧
    hash_key mp = Ok k ∧
    key_count k convs = count ∧
    (∀ k', key_count k' convs ≤ count) ∧
    Forall (λ conv, ∃ k', assignment_key conv = Some k' ∧
                          key_count k' convs < count) before.
Proof.
  intros Hmp.
  destruct (most_popular_spec _ _ _ Hmp) as (k & Hk & Hcount & Hmax & Hkeys).
  unfold most_popular in Hmp.
  destruct (count_assignments convs []) as [c|] eqn:Hc; [|done].
  cbn [mbind result_bind] in Hmp.
  pose proof (count_assignments_counted convs [] c [] counted_nil Hc) as Hcounted.
  cbn [app] in Hcounted.
  destruct c as [|x c]; [done|]. cbn in Hmp. injection Hmp as Hbest.
  destruct (max_count_first c x) as (j & Hj & Hless). rewrite Hbest in Hj, Hless.
  destruct (count_assignments_first_seen _ _ _ _ _ _ Hc Hj)
    as (before & first & after & -> & Hfirst & Hbefore); [cbn; lia|].
  exists before, first, after, k. split_and!; try done.
  apply Forall_forall. intros conv Hin.
  rewrite Forall_forall in Hbefore.
  destruct (Hbefore conv Hin)
    as (j' & v' & n' & i' & Hj' & Hentry & Hi' & Hsame).
  pose proof (Hless j' _ Hj' Hentry) as Hn'. cbn [snd] in Hn'.
  destruct (counted_exact _ _ Hcounted v' n') as (k' & Hk' & ->).
  { by eapply list_elem_of_lookup_2. }
  exists k'. split; [|done].
  rewrite Forall_forall in Hkeys.
  destruct (Hkeys conv) as [kc Hkc].
  { apply elem_of_app. by left. }
  rewrite Hkc. f_equal.
  unfold assignment_key in Hkc. rewrite Hi' in Hkc.
  apply hash_key_to_option in Hkc.
  destruct Hsame as [Heq| ->]; [|congruence].
  rewrite (py_eq_hash v' i' k' kc) in Heq by done.
  by apply bool_decide_eq_true in Heq.
Qed.

Lemma most_popular_first_among_ties_witness :
  ∃ before first after k,
    Samples.tied = before ++ first :: after ∧
    assignment_id_of first = Ok (VStr "A") ∧
    hash_key (VStr "A") = Ok k ∧
    key_count k Samples.tied = 2 ∧
    (∀ k', key_count k' Samples.tied ≤ 2) ∧
    Forall (λ conv, ∃ k', assignment_key conv = Some k' ∧
                          key_count k' Samples.tied < 2) before.
Proof.
  exact (most_popular_first_among_ties Samples.tied (VStr "A") 2 eq_refl).
Defined.

(* ===================================================================== *)
(** * Runs that end before the first file *)
(* ===================================================================== *)

(** Counting raises at the first record that has no assignment id to
    count. *)
Lemma count_assignments_raises (good : list value) (bad : value)
    (rest : list value) (e : exn) :
  Forall (λ conv, is_ok (counted_key conv) = true) good →
  counted_key bad = Raise e →
  ∀ c, count_assignments (good ++ bad :: rest) c = Raise e.
Proof.
  intros Hgood Hbad. unfold counted_key in Hbad.
  induction Hgood as [|conv good Hconv _ IH]; intros c.
  - rewrite app_nil_l. cbn [count_assignments].
    destruct (assignment_id_of bad) as [i|]; [|cbn in Hbad |- *; congruence].
    change (hash_key i = Raise e) in Hbad.
    change ((hash_key i ≫= λ _, count_assignments rest (counter_incr i c))
            = Raise e).
    by rewrite Hbad.
  - rewrite <-app_comm_cons. cbn [count_assignments].
    unfold counted_key in Hconv.
    destruct (assignment_id_of conv) as [i|]; [|done].
    change (is_ok (hash_key i) = true) in Hconv.
    change ((hash_key i ≫=
               λ _, count_assignments (good ++ bad :: rest) (counter_incr i c))
            = Raise e).
    destruct (hash_key i); [|done]. apply IH.
Qed.

Lemma counted_key_raises (conv : value) (e : exn) :
  counted_key conv = Raise e → e = KeyError ∨ e = TypeError.
Proof.
  unfold counted_key, assignment_id_of.
  destruct conv as [| | | | |d]; cbn; try (intros [= <-]; by right).
  destruct (assoc "assignment" d) as [a|]; cbn; [|intros [= <-]; by left].
  destruct a as [| | | | |ad]; cbn; try (intros [= <-]; by right).
  destruct (assoc "_id" ad) as [i|]; cbn; [|intros [= <-]; by left].
  destruct i; cbn; try done; intros [= <-]; by right.
Qed.

Section early_exit.
Context {G : Type} `{!RandomSource G}.
Variable json_loads : string → option value.
Variable to_parquet : list summary_row → option exn.

(** X3.  A record without an assignment id that can be counted (no
    [assignment], no [_id] in it, an id that is a list or a dictionary, or
    a record that is no dictionary) ends the run at the count of line 56:
    the exception is the one the first such record raises, a [KeyError] or
    a [TypeError], and the run has written no file and drawn no sample. *)
Theorem record_without_assignment_id_aborts (base : Z) (w : world G)
    (data : value) (good : list value) (bad : value) (rest : list value)
    (e : exn) :
  input_collection json_loads (source w) = Some data →
  iter data = Ok (good ++ bad :: rest) →
  Forall (λ conv, is_ok (counted_key conv) = true) good →
  counted_key bad = Raise e →
  (e = KeyError ∨ e = TypeError) ∧
  ∃ w',
    preprocess_data json_loads to_parquet base w = (Raise e, w') ∧
    summary_file w' = summary_file w ∧
    raw_file w' = raw_file w ∧
    popular_file w' = popular_file w ∧
    rng w' = rng w.
Proof.
  intros Hin Hiter Hgood Hbad. split; [by eapply counted_key_raises|].
  destruct (preprocess_data_loaded json_loads to_parquet base w data Hin)
    as (w1 & -> & _ & Hrng & Hsum & Hraw & Hpop & _).
  exists w1. split; [|done].
  unfold process_collection, mbind at 1 2, eff_bind, lift. rewrite Hiter.
  unfold most_popular. by rewrite (count_assignments_raises good bad rest e).
Qed.

End early_exit.

Lemma record_without_assignment_id_aborts_witness :
  (KeyError = KeyError ∨ KeyError = TypeError) ∧
  ∃ w',
    preprocess_data
      (Examples.decoder_of "doc"
         (VList [Examples.conversation "c1" "A" [];
                 VDict [("_id", VStr "c2"); ("student_work", VStr "My essay")];
                 Examples.conversation "c3" "A" []])) Examples.stores_all
      500 (Examples.fresh "doc")
    = (Raise KeyError, w') ∧
    summary_file w' = Missing ∧
    raw_file w' = Missing ∧
    popular_file w' = Missing ∧
    rng w' = 7%Z.
Proof.
  exact (record_without_assignment_id_aborts
    (Examples.decoder_of "doc"
       (VList [Examples.conversation "c1" "A" [];
               VDict [("_id", VStr "c2"); ("student_work", VStr "My essay")];
               Examples.conversation "c3" "A" []])) Examples.stores_all
    500 (Examples.fresh "doc") _
    [Examples.conversation "c1" "A" []]
    (VDict [("_id", VStr "c2"); ("student_work", VStr "My essay")])
    [Examples.conversation "c3" "A" []] KeyError
    eq_refl eq_refl ltac:(repeat constructor) eq_refl).
Defined.

(* ===================================================================== *)
(** * Runs on a collection of well-formed conversations *)
(* ===================================================================== *)

Lemma well_formed_counted_key (conv : value) :
  well_formed_conversation conv = true →
  ∃ i k, assignment_id_of conv = Ok i ∧ hash_key i = Ok k.
Proof.
  destruct conv as [| | | | |d]; try done. cbn [well_formed_conversation].
  intros [_ Ha]%andb_prop. unfold assignment_id_of. cbn [subscript].
  destruct (assoc "assignment" d) as [[| | | | |a]|]; try done.
  apply andb_prop in Ha as [Hi _]. cbn [mbind result_bind subscript].
  destruct (assoc "_id" a) as [i|]; [|done].
  unfold hashable in Hi. destruct (hash_key i) as [k|] eqn:Hk; [|done].
  by exists i, k.
Qed.

Lemma well_formed_has_valid_concepts (conv : value) :
  well_formed_conversation conv = true →
  ∃ b, has_valid_concepts conv = Ok b.
Proof.
  destruct conv as [| | | | |d]; try done. cbn [well_formed_conversation].
  intros [_ Ha]%andb_prop. unfold has_valid_concepts. cbn [dict_get].
  destruct (assoc "assignment" d) as [[| | | | |a]|]; try done.
  apply andb_prop in Ha as [_ Hc].
  cbn [from_option id mbind result_bind dict_get].
  destruct (assoc "concepts" a) as [[|[]|n|s|l|e]|];
    cbn [from_option id testable_concepts negb] in Hc; try done;
    unfold all; cbn [from_option id mbind result_bind truthy iter fmap result_fmap];
    try rewrite Hc; repeat case_match; try done; eauto.
Qed.

(** The loop body on a well-formed conversation: one more row, and the
    record stored under its id. *)
Lemma well_formed_process_conversation (mp conv : value)
    (rows : list summary_row) (raw pop : lookup_table) :
  well_formed_conversation conv = true →
  ∃ row conv_id,
    conversation_id row = conv_id ∧
    process_conversation mp (rows, raw, pop) conv
    = Ok (rows ++ [row], dict_update conv_id conv raw,
          if of_assignment mp conv
          then dict_update conv_id conv pop else pop).
Proof.
  intros Hwf.
  destruct (well_formed_counted_key conv Hwf) as (i & ki & Hi & Hki).
  destruct (well_formed_has_valid_concepts conv Hwf) as [flag Hflag].
  destruct conv as [| | | | |d]; try done. cbn [well_formed_conversation] in Hwf.
  apply andb_prop in Hwf as [Hwf Ha]. apply andb_prop in Hwf as [Hwf Ht].
  apply andb_prop in Hwf as [Hid Hs].
  unfold hashable in Hid.
  destruct (hash_key (default VNone (assoc "_id" d))) as [k|] eqn:Hk; [|done].
  unfold optional_dict in Hs, Ht.
  destruct (assoc "assignment" d) as [[| | | | |a]|] eqn:Hassignment; try done.
  assert (∃ student, dict_get (VDict d) "student" (VDict []) = Ok (VDict student))
    as [student Hstudent].
  { cbn [dict_get]. destruct (assoc "student" d) as [[| | | | |s]|]; try done;
      by eexists. }
  assert (∃ teacher, dict_get (VDict d) "teacher" (VDict []) = Ok (VDict teacher))
    as [teacher Hteacher].
  { cbn [dict_get]. destruct (assoc "teacher" d) as [[| | | | |s]|]; try done;
      by eexists. }
  assert (∃ reading, get_student_reading (VDict d) = Ok reading) as [reading Hreading].
  { unfold get_student_reading. cbn [dict_get]. rewrite Hassignment.
    cbn [default from_option id mbind result_bind dict_get].
    destruct (py_eq _ _); by eexists. }
  unfold of_assignment. rewrite Hi.
  destruct (py_eq i mp) eqn:Hpy;
    (eexists _, _; split; cycle 1;
     [unfold process_conversation, summary_record;
      rewrite Hstudent, Hteacher, Hreading, Hflag, Hi;
      cbn [dict_get]; rewrite Hassignment;
      cbn [default from_option id mbind result_bind dict_get conversation_id];
      unfold dict_set; rewrite Hk, Hpy; cbn [mbind result_bind]; reflexivity
     |reflexivity]).
Qed.

Lemma well_formed_process_conversations (mp : value) (sel : list value) :
  Forall (λ conv, well_formed_conversation conv = true) sel →
  ∀ rows raw pop,
    ∃ new raw' pop',
      process_conversations mp sel (rows, raw, pop)
      = Ok (rows ++ new, raw', pop') ∧
      length new = length sel.
Proof.
  induction 1 as [|conv sel Hconv _ IH]; intros rows raw pop.
  { exists [], raw, pop. by rewrite app_nil_r. }
  destruct (well_formed_process_conversation mp conv rows raw pop Hconv)
    as (row & conv_id & _ & Hone).
  cbn [process_conversations]. rewrite Hone. cbn [mbind result_bind].
  destruct (IH (rows ++ [row]) (dict_update conv_id conv raw)
              (if of_assignment mp conv
               then dict_update conv_id conv pop else pop))
    as (new & raw' & pop' & -> & Hlen).
  exists (row :: new), raw', pop'. rewrite <-app_assoc. split; [done|].
  cbn. by rewrite Hlen.
Qed.

Lemma filterM_total {A} (p : A → result bool) (l : list A) :
  Forall (λ x, is_ok (p x) = true) l → ∃ r, filterM p l = Ok r.
Proof.
  induction 1 as [|x l Hx _ [r IH]]; [by eexists|].
  cbn [filterM]. destruct (p x) as [b|]; [|done]. rewrite IH. by eexists.
Qed.

Lemma counter_incr_not_nil (i : value) (c : counter) : counter_incr i c ≠ [].
Proof. destruct c as [|[v n] c]; cbn; [done|]. by destruct (py_eq v i). Qed.

Lemma well_formed_count_assignments (convs : list value) :
  Forall (λ conv, well_formed_conversation conv = true) convs →
  ∀ c, ∃ c',
    count_assignments convs c = Ok c' ∧ (c ≠ [] ∨ convs ≠ [] → c' ≠ []).
Proof.
  induction 1 as [|conv convs Hconv _ IH]; intros c.
  { exists c. split; [done|]. by intros [?|?]. }
  destruct (well_formed_counted_key conv Hconv) as (i & k & Hi & Hk).
  destruct (IH (counter_incr i c)) as (c' & Hc' & Hne).
  exists c'. cbn [count_assignments]. rewrite Hi. cbn [mbind result_bind].
  rewrite Hk. cbn [mbind result_bind]. split; [done|].
  intros _. apply Hne. left. apply counter_incr_not_nil.
Qed.

Lemma well_formed_most_popular (convs : list value) :
  Forall (λ conv, well_formed_conversation conv = true) convs →
  convs ≠ [] →
  ∃ mp count, most_popular convs = Ok (mp, count).
Proof.
  intros Hwf Hne.
  destruct (well_formed_count_assignments convs Hwf []) as (c & Hc & Hc').
  unfold most_popular. rewrite Hc. cbn [mbind result_bind].
  destruct c as [|x c]; [by destruct Hc'; auto|].
  cbn. destruct (max_count x c) as [mp count]. by eauto.
Qed.

Lemma well_formed_partition (mp : value) (convs : list value) :
  Forall (λ conv, well_formed_conversation conv = true) convs →
  ∃ popular wc woc, partition mp convs = Ok (popular, wc, woc).
Proof.
  intros Hwf.
  assert (∀ l : list value, l `sublist_of` convs →
            Forall (λ conv, well_formed_conversation conv = true) l) as Hsub.
  { intros l Hl. rewrite Forall_forall in *. intros conv Hconv.
    apply Hwf. by eapply elem_of_sublist. }
  assert (∀ conv, well_formed_conversation conv = true →
            ∃ b, is_popular mp conv = Ok b) as Hpop.
  { intros conv (i & k & Hi & _)%well_formed_counted_key.
    unfold is_popular. rewrite Hi. by eexists. }
  unfold partition.
  destruct (filterM_total (is_popular mp) convs) as [popular ->].
  { eapply Forall_impl; [exact Hwf|]. by intros conv [b ->]%Hpop. }
  cbn [mbind result_bind].
  destruct (filterM_total (λ conv, negb <$> is_popular mp conv) convs)
    as [remaining Hrem].
  { eapply Forall_impl; [exact Hwf|]. by intros conv [b ->]%Hpop. }
  rewrite Hrem. cbn [mbind result_bind].
  apply filterM_Forall in Hrem as [_ Hrem]. apply Hsub in Hrem.
  destruct (filterM_total has_valid_concepts remaining) as [wc ->].
  { eapply Forall_impl; [exact Hrem|].
    by intros conv [b ->]%well_formed_has_valid_concepts. }
  cbn [mbind result_bind].
  destruct (filterM_total (λ conv, negb <$> has_valid_concepts conv) remaining)
    as [woc ->].
  { eapply Forall_impl; [exact Hrem|].
    by intros conv [b ->]%well_formed_has_valid_concepts. }
  by eexists _, _, _.
Qed.

Lemma first_assignment_field_raises (popular : list value) (field : string)
    (e : exn) :
  Forall (λ conv, well_formed_conversation conv = true) popular →
  popular ≠ [] →
  first_assignment_field popular field = Raise e → e = KeyError.
Proof.
  intros Hwf Hne. destruct popular as [|first popular]; [done|].
  apply Forall_cons_1 in Hwf as [Hfirst _].
  destruct first as [| | | | |d]; try done.
  cbn [well_formed_conversation] in Hfirst.
  apply andb_prop in Hfirst as [_ Ha].
  unfold first_assignment_field, Py.index. cbn [lookup list_lookup mbind result_bind subscript].
  destruct (assoc "assignment" d) as [[| | | | |a]|]; try done.
  cbn [mbind result_bind subscript].
  destruct (assoc field a); [done|]. by intros [= <-].
Qed.

(** The records of the assignment picked are at least one. *)
Lemma most_popular_not_empty (convs : list value) (mp : value) (count : nat) :
  most_popular convs = Ok (mp, count) →
  length (filter (λ conv, of_assignment mp conv = true) convs) = count ∧
  0 < count.
Proof.
  intros Hmp.
  destruct (most_popular_most_frequent _ _ _ Hmp) as [Hcount _].
  destruct (most_popular_spec _ _ _ Hmp) as (k & Hk & _ & Hmax & Hkeys).
  split; [by rewrite Hcount|].
  destruct convs as [|conv convs]; [done|].
  apply Forall_cons_1 in Hkeys as [[k0 Hk0] _].
  specialize (Hmax k0). unfold key_count in Hmax.
  rewrite filter_cons_True in Hmax by done. cbn [length] in Hmax. lia.
Qed.

Section well_formed_runs.
Context {G : Type} `{!RandomSource G}.
Variable json_loads : string → option value.
Variable to_parquet : list summary_row → option exn.

Lemma preprocess_data_enters (base : Z) (w : world G) (data : value) :
  input_collection json_loads (source w) = Some data →
  ∃ w1,
    preprocess_data json_loads to_parquet base w = process_collection to_parquet base data w1 ∧
    rng w1 = rng w ∧
    summary_file w1 = summary_file w ∧ raw_file w1 = raw_file w ∧
    popular_file w1 = popular_file w ∧ processed_data w1 = true.
Proof.
  unfold input_collection. intros Hin.
  unfold preprocess_data, mbind at 1 2, eff_bind, mkdir.
  destruct (json_loads (source w)) as [d|] eqn:Hd.
  - injection Hin as ->.
    rewrite (load_decodes json_loads (with_processed_data true w) data) by done.
    eexists. split; [reflexivity|]. by cbn.
  - rewrite (load_repairs json_loads (with_processed_data true w)) by done.
    cbn [source with_processed_data]. rewrite Hin.
    eexists. split; [reflexivity|]. by cbn.
Qed.

(** On a collection of well-formed conversations and with a base count
    that is not negative, a run gets as far as the three files. *)
Lemma well_formed_run (base : Z) (w : world G) (data : value)
    (convs : list value) (mp : value) (count : nat) :
  input_collection json_loads (source w) = Some data →
  iter data = Ok convs →
  Forall (λ conv, well_formed_conversation conv = true) convs →
  (0 ≤ base)%Z →
  most_popular convs = Ok (mp, count) →
  ∃ popular wc woc selected rows raw pop raw_members pop_members w2,
    partition mp convs = Ok (popular, wc, woc) ∧
    popular = filter (λ conv, of_assignment mp conv = true) convs ∧
    length popular = count ∧
    popular ≠ [] ∧
    Forall (λ conv, well_formed_conversation conv = true) popular ∧
    length rows =
      Z.to_nat ((base `div` 2) `min` Z.of_nat (length wc)) +
      Z.to_nat ((base `div` 2) `min` Z.of_nat (length woc)) +
      length popular ∧
    selected ⊆+ convs ∧
    Forall2 (λ row conv, summary_record mp conv = Ok row) rows selected ∧
    json_dump raw = Ok raw_members ∧
    json_dump pop = Ok pop_members ∧
    preprocess_data json_loads to_parquet base w
    = (write_artifacts to_parquet mp popular rows raw pop
       ≫= λ _, print_breakdown popular) w2 ∧
    summary_file w2 = summary_file w ∧ raw_file w2 = raw_file w ∧
    popular_file w2 = popular_file w ∧ processed_data w2 = true.
Proof.
  intros Hin Hiter Hwf Hbase Hmp.
  destruct (preprocess_data_enters base w data Hin)
    as (w1 & -> & _ & Hsum & Hraw & Hpop & Hdir).
  destruct (well_formed_partition mp convs Hwf) as (popular & wc & woc & Hpart).
  assert (0 ≤ base `div` 2)%Z as Hhalf by (apply Z.div_pos; lia).
  set (w1a := with_stdout (stdout w1 ++
                [InitialCounts (length wc) (length woc) (length popular)]) w1).
  destruct (random_sample_min (base `div` 2) wc w1a Hhalf)
    as (ws & g1 & Hrun1 & Hlen1 & Hsub1 & _).
  destruct (random_sample_min (base `div` 2) woc (with_rng g1 w1a) Hhalf)
    as (wos & g2 & Hrun2 & Hlen2 & Hsub2 & _).
  pose proof (selected_submseteq _ _ _ _ _ _ _ Hpart Hsub1 Hsub2) as Hsel.
  assert (Forall (λ conv, well_formed_conversation conv = true)
            (ws ++ wos ++ popular)) as Hselwf.
  { rewrite Forall_forall in *. intros conv Hconv. apply Hwf.
    by eapply elem_of_submseteq. }
  destruct (well_formed_process_conversations mp _ Hselwf [] [] [])
    as (rows & raw & pop & Hproc & Hrows).
  rewrite app_nil_l in Hproc.
  destruct (process_conversations_dump _ _ _ _ _ Hproc)
    as (raw_members & pop_members & Hrm & Hpm).
  pose proof (process_conversations_spec _ _ _ _ _ _ _ _ Hproc)
    as (new & _ & Hnew & Hrec & _).
  rewrite app_nil_l in Hnew. subst new.
  pose proof (partition_spec _ _ _ _ _ Hpart) as (Hfilter & _).
  apply popular_partition in Hfilter.
  destruct (most_popular_not_empty _ _ _ Hmp) as [Hcount Hpos].
  rewrite <-Hfilter in Hcount.
  exists popular, wc, woc, (ws ++ wos ++ popular), rows, raw, pop,
    raw_members, pop_members,
    (with_stdout
       (stdout (with_rng g2 (with_rng g1 w1a)) ++
        [FinalSampling (length ws) (length wos) (length popular)
           (length (ws ++ wos ++ popular))])
       (with_rng g2 (with_rng g1 w1a))).
  split_and!; try done.
  - intros ->. cbn in Hcount. lia.
  - apply Forall_app in Hselwf as [_ Hselwf].
    by apply Forall_app in Hselwf as [_ Hselwf].
  - rewrite Hrows, !length_app. lia.
  - unfold process_collection, mbind at 1 2 3 4 5 6, eff_bind, lift.
    rewrite Hiter, Hmp, Hpart. cbn [print]. fold w1a.
    unfold sample_pools, mbind at 1 2, eff_bind. rewrite Hrun1, Hrun2.
    unfold mret, eff_ret. cbn [print]. by rewrite Hproc.
Qed.

(** What the closing report returns: it reads the four fields in turn. *)
Lemma print_breakdown_result (popular : list value) (w : world G) :
  (print_breakdown popular w).1 =
  (_ ← first_assignment_field popular "title";
   _ ← first_assignment_field popular "assignment_type";
   _ ← first_assignment_field popular "subject";
   _ ← first_assignment_field popular "grade";
   Ok ()).
Proof.
  unfold print_breakdown, mbind at 1 2 3 4 5 6 7 8, eff_bind, lift, print.
  destruct (first_assignment_field popular "title"); [|done].
  destruct (first_assignment_field popular "assignment_type"); [|done].
  destruct (first_assignment_field popular "subject"); [|done].
  destruct (first_assignment_field popular "grade"); done.
Qed.

(** A table the engine refuses ends the run before any file is written. *)
Lemma write_refused (mp : value) (popular : list value)
    (rows : list summary_row) (raw pop : lookup_table) (e : exn) (w : world G) :
  to_parquet rows = Some e →
  (write_artifacts to_parquet mp popular rows raw pop
   ≫= λ _, print_breakdown popular) w = (Raise e, w).
Proof.
  intros He.
  unfold write_artifacts, mbind at 1 2, eff_bind, write_summary.
  by rewrite He.
Qed.

(** The three writes and the closing report, from the title on, when the
    engine stores the table. *)
Lemma write_then_report (mp : value) (popular : list value)
    (rows : list summary_row) (raw pop : lookup_table)
    (raw_members pop_members : json_object) (w w' : world G)
    (r : result ()) :
  to_parquet rows = None →
  json_dump raw = Ok raw_members →
  json_dump pop = Ok pop_members →
  (write_artifacts to_parquet mp popular rows raw pop
   ≫= λ _, print_breakdown popular) w = (r, w') →
  summary_file w' = Holds rows ∧
  raw_file w' = Holds raw_members ∧
  processed_data w' = processed_data w ∧
  match first_assignment_field popular "title" with
  | Raise e => r = Raise e ∧ popular_file w' = Truncated
  | Ok title =>
      popular_file w' =
        Holds {| extract_assignment_id := mp;
                 extract_assignment_name := title;
                 extract_conversations := pop_members |} ∧
      r = (_ ← first_assignment_field popular "assignment_type";
           _ ← first_assignment_field popular "subject";
           _ ← first_assignment_field popular "grade";
           Ok ())
  end.
Proof.
  intros Hstore Hrm Hpm Hrun.
  destruct (first_assignment_field popular "title") as [title|e] eqn:Htitle.
  - set (w1 := with_popular_file
         (Holds {| extract_assignment_id := mp;
                   extract_assignment_name := title;
                   extract_conversations := pop_members |})
         (with_raw_file (Holds raw_members)
            (with_summary_file (Holds rows) w))).
    assert (write_artifacts to_parquet mp popular rows raw pop w = (Ok (), w1))
      as Hw.
    { unfold write_artifacts, mbind, eff_bind, lift, write_summary.
      rewrite Hstore, Hrm. cbn. by rewrite Htitle, Hpm. }
    unfold mbind at 1, eff_bind in Hrun. rewrite Hw in Hrun.
    pose proof (print_breakdown_result popular w1) as Hres.
    rewrite Htitle, Hrun in Hres. cbn [mbind result_bind fst] in Hres.
    assert (∀ {X} (f : world G → X),
              (∀ out v, f (with_stdout out v) = f v) → f w' = f w1) as Hfr.
    { intros X f Hf. pose proof (print_breakdown_frame f popular Hf w1) as Hp.
      by rewrite Hrun in Hp. }
    split_and!; [| | | |exact Hres]; by rewrite Hfr.
  - assert (write_artifacts to_parquet mp popular rows raw pop w
            = (Raise e,
               with_popular_file Truncated
                 (with_raw_file (Holds raw_members)
                    (with_summary_file (Holds rows) w)))) as Hw.
    { unfold write_artifacts, mbind, eff_bind, lift, write_summary.
      rewrite Hstore, Hrm. cbn. by rewrite Htitle. }
    unfold mbind at 1, eff_bind in Hrun. rewrite Hw in Hrun.
    by injection Hrun as <- <-.
Qed.

(** X4.  A run on well-formed conversations completes when the parquet
    engine stores the table and the first record of the most popular
    assignment names its title, type, subject and grade: the output
    directory is there and the three files are written, the table with the
    records of the two samples and of the popular assignment, which is at
    most [base_conversations] rows plus one per popular record. *)
Theorem well_formed_run_completes (base : Z) (w : world G) (data : value)
    (convs : list value) (mp : value) (count : nat) :
  input_collection json_loads (source w) = Some data →
  iter data = Ok convs →
  Forall (λ conv, well_formed_conversation conv = true) convs →
  (0 ≤ base)%Z →
  most_popular convs = Ok (mp, count) →
  storable to_parquet mp convs →
  let popular := filter (λ conv, of_assignment mp conv = true) convs in
  Forall (λ field, is_ok (first_assignment_field popular field) = true)
    ["title"; "assignment_type"; "subject"; "grade"] →
  ∃ w' wc woc rows raw extract,
    preprocess_data json_loads to_parquet base w = (Ok (), w') ∧
    processed_data w' = true ∧
    summary_file w' = Holds rows ∧
    raw_file w' = Holds raw ∧
    popular_file w' = Holds extract ∧
    extract_assignment_id extract = mp ∧
    first_assignment_field popular "title"
      = Ok (extract_assignment_name extract) ∧
    partition mp convs = Ok (popular, wc, woc) ∧
    length rows =
      Z.to_nat ((base `div` 2) `min` Z.of_nat (length wc)) +
      Z.to_nat ((base `div` 2) `min` Z.of_nat (length woc)) + count ∧
    (Z.of_nat (length rows) ≤ base + Z.of_nat count)%Z.
Proof.
  intros Hin Hiter Hwf Hbase Hmp Hstorable popular Hfields.
  destruct (well_formed_run base w data convs mp count Hin Hiter Hwf Hbase Hmp)
    as (popular' & wc & woc & selected & rows & raw & pop & rm & pm & w2 &
        Hpart & Heq & Hcount & _ & _ & Hrows & Hsel & Hrec & Hrm & Hpm &
        Hrun & _ & _ & _ & Hdir).
  assert (popular' = popular) as -> by done.
  pose proof (Hstorable selected rows Hsel Hrec) as Hstore.
  destruct (preprocess_data json_loads to_parquet base w) as [r w'].
  symmetry in Hrun.
  apply (write_then_report _ _ _ _ _ _ _ _ _ _ Hstore Hrm Hpm) in Hrun
    as (Hsum & Hraw & Hdir' & Hpop).
  apply Forall_cons_1 in Hfields as [Htitle Hfields].
  apply Forall_cons_1 in Hfields as [Htype Hfields].
  apply Forall_cons_1 in Hfields as [Hsubject Hfields].
  apply Forall_cons_1 in Hfields as [Hgrade _].
  destruct (first_assignment_field popular "title") as [title|]; [|done].
  destruct (first_assignment_field popular "assignment_type"); [|done].
  destruct (first_assignment_field popular "subject"); [|done].
  destruct (first_assignment_field popular "grade"); [|done].
  destruct Hpop as [Hpop Hres]. cbn [mbind result_bind] in Hres. subst r.
  eexists w', wc, woc, rows, rm, _. split_and!; try done.
  - congruence.
  - lia.
  - rewrite Hrows, Hcount.
    pose proof (Z.div_mod base 2 ltac:(lia)).
    pose proof (Z.mod_pos_bound base 2 ltac:(lia)). lia.
Qed.

(** X5.  When the engine stores the table and that record has no title,
    the run ends with a [KeyError] between the files: the summary table
    and the raw lookup are written, with a row for every popular record at
    least, and [popular_assignment.json] is left empty. *)
Theorem missing_title_leaves_partial_output (base : Z) (w : world G)
    (data : value) (convs : list value) (mp : value) (count : nat) :
  input_collection json_loads (source w) = Some data →
  iter data = Ok convs →
  Forall (λ conv, well_formed_conversation conv = true) convs →
  (0 ≤ base)%Z →
  most_popular convs = Ok (mp, count) →
  storable to_parquet mp convs →
  let popular := filter (λ conv, of_assignment mp conv = true) convs in
  is_ok (first_assignment_field popular "title") = false →
  ∃ w' rows raw,
    preprocess_data json_loads to_parquet base w = (Raise KeyError, w') ∧
    summary_file w' = Holds rows ∧
    raw_file w' = Holds raw ∧
    popular_file w' = Truncated ∧
    0 < count ≤ length rows.
Proof.
  intros Hin Hiter Hwf Hbase Hmp Hstorable popular Htitle.
  destruct (well_formed_run base w data convs mp count Hin Hiter Hwf Hbase Hmp)
    as (popular' & wc & woc & selected & rows & raw & pop & rm & pm & w2 &
        Hpart & Heq & Hcount & Hne & Hpopwf & Hrows & Hsel & Hrec & Hrm &
        Hpm & Hrun & _).
  assert (popular' = popular) as -> by done.
  pose proof (Hstorable selected rows Hsel Hrec) as Hstore.
  destruct (preprocess_data json_loads to_parquet base w) as [r w'].
  symmetry in Hrun.
  apply (write_then_report _ _ _ _ _ _ _ _ _ _ Hstore Hrm Hpm) in Hrun
    as (Hsum & Hraw & _ & Hpop).
  destruct (first_assignment_field popular "title") as [title|e] eqn:Hfield;
    [done|].
  apply first_assignment_field_raises in Hfield as ->; [|done..].
  destruct Hpop as [-> Hpop].
  exists w', rows, rm. split_and!; try done.
  - destruct popular; [done | cbn in Hcount; lia].
  - lia.
Qed.

(** X6.  When the engine stores the table and that record has a title and
    lacks its type, subject or grade, the run ends with a [KeyError] in
    the closing report, after the three files are written in full. *)
Theorem missing_breakdown_field_raises_after_writing (base : Z) (w : world G)
    (data : value) (convs : list value) (mp : value) (count : nat) :
  input_collection json_loads (source w) = Some data →
  iter data = Ok convs →
  Forall (λ conv, well_formed_conversation conv = true) convs →
  (0 ≤ base)%Z →
  most_popular convs = Ok (mp, count) →
  storable to_parquet mp convs →
  let popular := filter (λ conv, of_assignment mp conv = true) convs in
  is_ok (first_assignment_field popular "title") = true →
  Exists (λ field, is_ok (first_assignment_field popular field) = false)
    ["assignment_type"; "subject"; "grade"] →
  ∃ w' rows raw extract,
    preprocess_data json_loads to_parquet base w = (Raise KeyError, w') ∧
    summary_file w' = Holds rows ∧
    raw_file w' = Holds raw ∧
    popular_file w' = Holds extract ∧
    extract_assignment_id extract = mp.
Proof.
  intros Hin Hiter Hwf Hbase Hmp Hstorable popular Htitle Hmissing.
  destruct (well_formed_run base w data convs mp count Hin Hiter Hwf Hbase Hmp)
    as (popular' & wc & woc & selected & rows & raw & pop & rm & pm & w2 &
        Hpart & Heq & Hcount & Hne & Hpopwf & Hrows & Hsel & Hrec & Hrm &
        Hpm & Hrun & _).
  assert (popular' = popular) as -> by done.
  pose proof (Hstorable selected rows Hsel Hrec) as Hstore.
  destruct (preprocess_data json_loads to_parquet base w) as [r w'].
  symmetry in Hrun.
  apply (write_then_report _ _ _ _ _ _ _ _ _ _ Hstore Hrm Hpm) in Hrun
    as (Hsum & Hraw & _ & Hpop).
  destruct (first_assignment_field popular "title") as [title|]; [|done].
  destruct Hpop as [Hpop Hres].
  assert (r = Raise KeyError) as ->.
  { rewrite Hres.
    pose proof (first_assignment_field_raises popular "assignment_type")
      as Htype.
    pose proof (first_assignment_field_raises popular "subject") as Hsubject.
    pose proof (first_assignment_field_raises popular "grade") as Hgrade.
    destruct (first_assignment_field popular "assignment_type")
      as [?|e1] eqn:E1.
    2:{ cbn. f_equal. by apply Htype. }
    destruct (first_assignment_field popular "subject") as [?|e2] eqn:E2.
    2:{ cbn. f_equal. by apply Hsubject. }
    destruct (first_assignment_field popular "grade") as [?|e3] eqn:E3.
    2:{ cbn. f_equal. by apply Hgrade. }
    exfalso.
    apply Exists_cons in Hmissing as [H|Hmissing]; [by rewrite E1 in H|].
    apply Exists_cons in Hmissing as [H|Hmissing]; [by rewrite E2 in H|].
    apply Exists_cons in Hmissing as [H|Hmissing]; [by rewrite E3 in H|].
    by apply Exists_nil in Hmissing. }
  by eexists w', rows, rm, _.
Qed.

(** X22.  The table is written first, and only if the parquet engine
    takes it (lines 141-142).  A run on well-formed conversations builds
    the table of the records it selected; when the engine refuses that
    table the run ends there with the engine's exception and none of the
    three files is written, and when the engine stores it the table is the
    content of [conversations.parquet] and the raw lookup is written
    too. *)
Theorem refused_table_writes_no_file (base : Z) (w : world G) (data : value)
    (convs : list value) (mp : value) (count : nat) :
  input_collection json_loads (source w) = Some data →
  iter data = Ok convs →
  Forall (λ conv, well_formed_conversation conv = true) convs →
  (0 ≤ base)%Z →
  most_popular convs = Ok (mp, count) →
  ∃ selected rows r w',
    selected ⊆+ convs ∧
    Forall2 (λ row conv, summary_record mp conv = Ok row) rows selected ∧
    preprocess_data json_loads to_parquet base w = (r, w') ∧
    match to_parquet rows with
    | Some e =>
        r = Raise e ∧
        summary_file w' = summary_file w ∧
        raw_file w' = raw_file w ∧
        popular_file w' = popular_file w
    | None =>
        summary_file w' = Holds rows ∧ ∃ raw, raw_file w' = Holds raw
    end.
Proof.
  intros Hin Hiter Hwf Hbase Hmp.
  destruct (well_formed_run base w data convs mp count Hin Hiter Hwf Hbase Hmp)
    as (popular & wc & woc & selected & rows & raw & pop & rm & pm & w2 &
        Hpart & Heq & Hcount & Hne & Hpopwf & Hrows & Hsel & Hrec & Hrm &
        Hpm & Hrun & Hsum & Hraw & Hpop & _).
  destruct (preprocess_data json_loads to_parquet base w) as [r w'].
  exists selected, rows, r, w'. split_and!; try done.
  symmetry in Hrun.
  destruct (to_parquet rows) as [e|] eqn:Hstore.
  - rewrite (write_refused _ _ _ _ _ e w2 Hstore) in Hrun.
    by injection Hrun as <- <-.
  - apply (write_then_report _ _ _ _ _ _ _ _ _ _ Hstore Hrm Hpm) in Hrun
      as (Hsum' & Hraw' & _).
    split; [done|]. by exists rm.
Qed.

End well_formed_runs.

Lemma well_formed_run_completes_witness :
  let popular :=
    filter (λ conv, of_assignment (VStr "A") conv = true)
      Examples.six_conversations in
  ∃ w' wc woc rows raw extract,
    preprocess_data
      (Examples.decoder_of "doc" (VList Examples.six_conversations))
      Examples.stores_all 4 (Examples.fresh "doc") = (Ok (), w') ∧
    processed_data w' = true ∧
    summary_file w' = Holds rows ∧
    raw_file w' = Holds raw ∧
    popular_file w' = Holds extract ∧
    extract_assignment_id extract = VStr "A" ∧
    first_assignment_field popular "title"
      = Ok (extract_assignment_name extract) ∧
    partition (VStr "A") Examples.six_conversations = Ok (popular, wc, woc) ∧
    length rows =
      Z.to_nat ((4 `div` 2) `min` Z.of_nat (length wc)) +
      Z.to_nat ((4 `div` 2) `min` Z.of_nat (length woc)) + 3 ∧
    (Z.of_nat (length rows) ≤ 4 + Z.of_nat 3)%Z.
Proof.
  exact (well_formed_run_completes
    (Examples.decoder_of "doc" (VList Examples.six_conversations))
    Examples.stores_all 4
    (Examples.fresh "doc") (VList Examples.six_conversations)
    Examples.six_conversations (VStr "A") 3
    eq_refl eq_refl ltac:(repeat constructor) ltac:(done) eq_refl
    (λ _ _ _ _, eq_refl) ltac:(repeat constructor)).
Defined.

Lemma missing_title_leaves_partial_output_witness :
  ∃ w' rows raw,
    preprocess_data
      (Examples.decoder_of "doc"
         (VList [Samples.untitled "c1" "A";
                 Examples.conversation "c2" "B" ["gravity"]]))
      Examples.stores_all
      4 (Examples.fresh "doc") = (Raise KeyError, w') ∧
    summary_file w' = Holds rows ∧
    raw_file w' = Holds raw ∧
    popular_file w' = Truncated ∧
    0 < 1 ≤ length rows.
Proof.
  exact (missing_title_leaves_partial_output
    (Examples.decoder_of "doc"
       (VList [Samples.untitled "c1" "A";
                 Examples.conversation "c2" "B" ["gravity"]]))
    Examples.stores_all
    4 (Examples.fresh "doc")
    (VList [Samples.untitled "c1" "A";
                 Examples.conversation "c2" "B" ["gravity"]])
    [Samples.untitled "c1" "A"; Examples.conversation "c2" "B" ["gravity"]]
    (VStr "A") 1
    eq_refl eq_refl ltac:(repeat constructor) ltac:(done) eq_refl
    (λ _ _ _ _, eq_refl) eq_refl).
Defined.

Lemma missing_breakdown_field_raises_after_writing_witness :
  ∃ w' rows raw extract,
    preprocess_data
      (Examples.decoder_of "doc"
         (VList [Samples.ungraded "c1" "A";
                 Examples.conversation "c2" "B" ["gravity"]]))
      Examples.stores_all
      4 (Examples.fresh "doc") = (Raise KeyError, w') ∧
    summary_file w' = Holds rows ∧
    raw_file w' = Holds raw ∧
    popular_file w' = Holds extract ∧
    extract_assignment_id extract = VStr "A".
Proof.
  exact (missing_breakdown_field_raises_after_writing
    (Examples.decoder_of "doc"
       (VList [Samples.ungraded "c1" "A";
                 Examples.conversation "c2" "B" ["gravity"]]))
    Examples.stores_all
    4 (Examples.fresh "doc")
    (VList [Samples.ungraded "c1" "A";
                 Examples.conversation "c2" "B" ["gravity"]])
    [Samples.ungraded "c1" "A"; Examples.conversation "c2" "B" ["gravity"]]
    (VStr "A") 1
    eq_refl eq_refl ltac:(repeat constructor) ltac:(done) eq_refl
    (λ _ _ _ _, eq_refl) eq_refl
    ltac:(do 2 apply Exists_cons_tl; apply Exists_cons_hd; reflexivity)).
Defined.

Lemma refused_table_writes_no_file_witness :
  let data := [Samples.graded "c1" (VInt 5); Samples.graded "c2" (VStr "K")] in
  ∃ selected rows r w',
    selected ⊆+ data ∧
    Forall2 (λ row conv, summary_record (VStr "A") conv = Ok row) rows selected ∧
    preprocess_data (Examples.decoder_of "doc" (VList data))
      Samples.integer_grades 4 (Examples.fresh "doc") = (r, w') ∧
    match Samples.integer_grades rows with
    | Some e =>
        r = Raise e ∧
        summary_file w' = Missing ∧
        raw_file w' = Missing ∧
        popular_file w' = Missing
    | None =>
        summary_file w' = Holds rows ∧ ∃ raw, raw_file w' = Holds raw
    end.
Proof.
  exact (refused_table_writes_no_file
    (Examples.decoder_of "doc"
       (VList [Samples.graded "c1" (VInt 5); Samples.graded "c2" (VStr "K")]))
    Samples.integer_grades 4 (Examples.fresh "doc")
    (VList [Samples.graded "c1" (VInt 5); Samples.graded "c2" (VStr "K")])
    [Samples.graded "c1" (VInt 5); Samples.graded "c2" (VStr "K")]
    (VStr "A") 2
    eq_refl eq_refl ltac:(repeat constructor) ltac:(done) eq_refl).
Defined.

(** Grades of two types in one column: the engine that takes integer
    grades refuses the table, and the run ends with its exception before
    any of the three files is there. *)
Example mixed_grades_write_nothing :
  preprocess_data
    (Examples.decoder_of "doc"
       (VList [Samples.graded "c1" (VInt 5); Samples.graded "c2" (VStr "K")]))
    Samples.integer_grades 4 (Examples.fresh "doc")
  = (Raise ValueError,
     World "doc" 7%Z true Missing Missing Missing
       [InitialCounts 0 0 2; FinalSampling 0 0 2 2] ["doc"]).
Proof. vm_compute. reflexivity. Qed.

(* ===================================================================== *)
(** * How many records a run selects *)
(* ===================================================================== *)

(** [m] only adds to what is printed. *)
Lemma prints_bind {G A B} (m : eff (world G) A) (k : A → eff (world G) B) :
  (∀ w, stdout w `prefix_of` stdout (m w).2) →
  (∀ a w, stdout w `prefix_of` stdout (k a w).2) →
  ∀ w, stdout w `prefix_of` stdout ((m ≫= k) w).2.
Proof.
  intros Hm Hk w. unfold mbind, eff_bind. specialize (Hm w).
  destruct (m w) as [[a|e] w1]; cbn [snd] in *; [|done].
  etrans; [exact Hm | apply Hk].
Qed.

Section selection_size.
Context {G : Type} `{!RandomSource G}.
Variable json_loads : string → option value.
Variable to_parquet : list summary_row → option exn.

Lemma sample_pools_lengths (base : Z) (wc woc ws wos : list value)
    (w w' : world G) :
  sample_pools base wc woc w = (Ok (ws, wos), w') →
  Z.of_nat (length ws) = ((base `div` 2) `min` Z.of_nat (length wc))%Z ∧
  Z.of_nat (length wos) = ((base `div` 2) `min` Z.of_nat (length woc))%Z ∧
  stdout w' = stdout w.
Proof.
  unfold sample_pools, mbind, eff_bind, random_sample.
  destruct (sample wc _ (rng w)) as [[ws' g1]|] eqn:H1; [|done].
  cbn [rng with_rng].
  destruct (sample woc _ g1) as [[wos' g2]|] eqn:H2; [|done].
  intros [= <- <- <-].
  apply sample_Ok in H1 as (? & ? & _). apply sample_Ok in H2 as (? & ? & _).
  split_and!; [lia | lia | done].
Qed.

Lemma write_then_report_prints (mp : value) (popular : list value)
    (rows : list summary_row) (raw pop : lookup_table) (w : world G) :
  stdout w `prefix_of`
    stdout ((write_artifacts to_parquet mp popular rows raw pop
             ≫= λ _, print_breakdown popular) w).2.
Proof.
  revert w. unfold write_artifacts, print_breakdown.
  repeat first
    [ apply prints_bind; [|intros ?]
    | (intros w; done)
    | (intros w; unfold write_summary; by destruct (to_parquet _))
    | (intros w; by apply prefix_app_r) ].
Qed.

(** X7.  The size of the summary table (lines 84-142).  A run that writes the
    table (into an empty output directory) was given a base count that is
    not negative, and writes one row for each record of the two samples
    and of the popular assignment: [min(base // 2, n)] rows for a pool of
    [n] records, and one for every popular record, so at most
    [base_conversations] rows beyond the popular ones.  The total the run
    prints under "Final sampling" is the number of rows. *)
Theorem summary_size (base : Z) (w w' : world G) (r : result ())
    (data : value) (convs : list value) (rows : list summary_row) :
  input_collection json_loads (source w) = Some data →
  iter data = Ok convs →
  summary_file w = Missing →
  preprocess_data json_loads to_parquet base w = (r, w') →
  summary_file w' = Holds rows →
  ∃ mp popular wc woc n_with n_without,
    most_popular convs = Ok (mp, length popular) ∧
    partition mp convs = Ok (popular, wc, woc) ∧
    (0 ≤ base)%Z ∧
    Z.of_nat n_with = ((base `div` 2) `min` Z.of_nat (length wc))%Z ∧
    Z.of_nat n_without = ((base `div` 2) `min` Z.of_nat (length woc))%Z ∧
    length rows = n_with + n_without + length popular ∧
    (Z.of_nat (length rows) ≤ base + Z.of_nat (length popular))%Z ∧
    FinalSampling n_with n_without (length popular) (length rows)
      ∈ stdout w'.
Proof.
  intros Hin Hiter Hfresh Hrun Hrows.
  destruct (preprocess_data_loaded json_loads to_parquet base w data Hin)
    as (w1 & Heq & _ & _ & Hsum & _).
  rewrite Heq in Hrun. rewrite <-Hsum in Hfresh. clear Heq Hsum Hin.
  unfold process_collection, mbind at 1 2 3 4 5 6, eff_bind, lift in Hrun.
  rewrite Hiter in Hrun.
  destruct (most_popular convs) as [[mp count]|e] eqn:Hmp;
    [|injection Hrun as <- <-; congruence].
  destruct (partition mp convs) as [[[popular wc] woc]|e] eqn:Hpart;
    [|injection Hrun as <- <-; congruence].
  cbn [print] in Hrun.
  destruct (sample_pools base wc woc _) as [[[ws wos]|e] w2] eqn:Hs.
  2:{ apply sample_pools_inv in Hs as [[g ->] _].
      injection Hrun as <- <-. cbn in Hrows. congruence. }
  pose proof (sample_pools_inv _ _ _ _ _ _ Hs) as [[g Hw2] _].
  apply sample_pools_lengths in Hs as (Hws & Hwos & _).
  unfold mbind at 1, eff_bind in Hrun.
  destruct (process_conversations mp _ _) as [[[rows' raw] pop]|e] eqn:Hproc.
  2:{ injection Hrun as <- <-. subst w2. cbn in Hrows. congruence. }
  assert (stdout
            (with_stdout
               (stdout w2 ++
                [FinalSampling (length ws) (length wos) (length popular)
                   (length (ws ++ wos ++ popular))]) w2)
          `prefix_of` stdout w') as Hprints.
  { pose proof (f_equal snd Hrun) as Hw'. cbn [snd] in Hw'. rewrite <-Hw'.
    apply write_then_report_prints. }
  destruct (process_conversations_dump _ _ _ _ _ Hproc)
    as (rm & pm & Hrm & Hpm).
  destruct (to_parquet rows') as [e|] eqn:Hstore.
  { pose proof (eq_trans (eq_sym Hrun)
                  (write_refused _ mp popular rows' raw pop e _ Hstore))
      as Href.
    injection Href as -> ->. subst w2. cbn in Hrows. congruence. }
  apply (write_then_report _ _ _ _ _ _ _ _ _ _ _ Hstore Hrm Hpm) in Hrun
    as (Hsum & _).
  assert (rows' = rows) as -> by congruence.
  apply process_conversations_spec in Hproc
    as (new & keys & Hnew & Hrec & _).
  simpl in Hnew. subst new. apply Forall2_length in Hrec.
  destruct (most_popular_not_empty _ _ _ Hmp) as [Hcount _].
  pose proof (partition_spec _ _ _ _ _ Hpart) as (Hfilter & _).
  apply popular_partition in Hfilter. rewrite <-Hfilter in Hcount.
  exists mp, popular, wc, woc, (length ws), (length wos).
  rewrite !length_app in Hrec.
  assert (0 ≤ base)%Z as Hbase.
  { destruct (decide (0 ≤ base)%Z) as [|Hneg]; [done|].
    pose proof (Z.div_lt_upper_bound base 2 0 ltac:(lia) ltac:(lia)). lia. }
  assert (2 * (base `div` 2) ≤ base)%Z as Hhalf by (apply Z.mul_div_le; lia).
  split_and!; try done.
  - by rewrite Hcount.
  - lia.
  - lia.
  - eapply elem_of_prefix; [|exact Hprints]. cbn [stdout with_stdout].
    rewrite Hrec, !length_app. apply elem_of_app. right.
    apply list_elem_of_singleton. f_equal; lia.
Qed.

End selection_size.

Lemma summary_size_witness :
  let out :=
    preprocess_data
      (Examples.decoder_of "doc" (VList Examples.six_conversations)) Examples.stores_all 4
      (Examples.fresh "doc") in
  ∃ rows,
    summary_file out.2 = Holds rows ∧
    ∃ mp popular wc woc n_with n_without,
      most_popular Examples.six_conversations = Ok (mp, length popular) ∧
      partition mp Examples.six_conversations = Ok (popular, wc, woc) ∧
      (0 ≤ 4)%Z ∧
      Z.of_nat n_with = ((4 `div` 2) `min` Z.of_nat (length wc))%Z ∧
      Z.of_nat n_without = ((4 `div` 2) `min` Z.of_nat (length woc))%Z ∧
      length rows = n_with + n_without + length popular ∧
      (Z.of_nat (length rows) ≤ 4 + Z.of_nat (length popular))%Z ∧
      FinalSampling n_with n_without (length popular) (length rows)
        ∈ stdout out.2.
Proof.
  intros out.
  destruct (summary_file out.2) as [| |rows] eqn:Hrows;
    [discriminate Hrows | discriminate Hrows |].
  exists rows. split; [reflexivity|].
  exact (summary_size
    (Examples.decoder_of "doc" (VList Examples.six_conversations)) Examples.stores_all 4
    (Examples.fresh "doc") out.2 out.1 (VList Examples.six_conversations)
    Examples.six_conversations rows eq_refl eq_refl eq_refl
    (surjective_pairing out) Hrows).
Defined.

(* ===================================================================== *)
(** * Records that share a conversation id *)
(* ===================================================================== *)

Lemma recorded_snoc (m : gmap hkey value) (entries : list (hkey * value))
    (k : hkey) (v : value) :
  recorded m (entries ++ [(k, v)]) = <[k := v]> (recorded m entries).
Proof. by rewrite recorded_app. Qed.

Lemma size_recorded (entries : list (hkey * value)) :
  size (recorded ∅ entries) ≤ length entries ∧
  (size (recorded ∅ entries) = length entries → NoDup entries.*1).
Proof.
  induction entries as [|[k v] entries [IH1 IH2]] using rev_ind.
  { split; [done | constructor]. }
  rewrite recorded_snoc, length_app, fmap_app, Nat.add_1_r.
  pose proof (dom_recorded ∅ entries) as Hdom.
  rewrite dom_empty_L, union_empty_l_L in Hdom.
  destruct (recorded ∅ entries !! k) as [u|] eqn:Hk.
  - rewrite map_size_insert_Some by done. split; [lia|]. lia.
  - rewrite map_size_insert_None by done. split; [lia|].
    intros Hsize. apply NoDup_app. split_and!.
    + apply IH2. lia.
    + intros k' Hk' ->%list_elem_of_singleton.
      apply not_elem_of_dom in Hk. apply Hk. rewrite Hdom.
      by apply elem_of_list_to_set.
    + apply NoDup_singleton.
Qed.

(** After the loop, a key of the lookup resolves to the last of the records
    stored under it. *)
Lemma recorded_last (sel : list value) :
  ∀ keys,
    Forall2 (λ conv k, conversation_key conv = Ok k) sel keys →
    ∀ k, recorded ∅ (zip keys sel) !! k = last_such (has_key k) sel.
Proof.
  unfold last_such.
  induction sel as [|conv sel IH] using rev_ind; intros keys Hkeys k.
  { apply Forall2_nil_inv_l in Hkeys as ->. cbn. by rewrite lookup_empty. }
  apply Forall2_app_inv_l in Hkeys as (keys' & last_key & Hkeys' & Hlast & ->).
  apply Forall2_cons_inv_l in Hlast as (kc & nil & Hkc & ->%Forall2_nil_inv_l & ->).
  rewrite zip_with_app by (symmetry; by eapply Forall2_length).
  cbn [zip_with]. rewrite recorded_snoc, filter_app, filter_cons, filter_nil.
  destruct (decide (kc = k)) as [->|Hne].
  - rewrite lookup_insert_eq, decide_True, last_snoc; [done|].
    unfold has_key. by rewrite bool_decide_eq_true_2.
  - rewrite lookup_insert_ne, decide_False, app_nil_r; [by apply IH | | done].
    unfold has_key. rewrite bool_decide_eq_false_2; [done | congruence].
Qed.

(** X8.  The loop over the selected records (lines 107-138) appends a row for
    every record, and stores every record under its conversation id: of
    records with the same id the lookup keeps the last one only, so it has
    no more entries than the table has rows, and as many exactly when the
    ids of the selected records are pairwise distinct.  The lookup has
    one entry per key. *)
Theorem lookup_keeps_last_record (mp : value) (sel : list value)
    (rows : list summary_row) (raw pop : lookup_table) :
  process_conversations mp sel ([], [], []) = Ok (rows, raw, pop) →
  length rows = length sel ∧
  (∀ k, to_map raw !! k = last_such (has_key k) sel) ∧
  size (to_map raw) = length raw ∧
  length raw ≤ length rows ∧
  (length raw = length rows ↔ unique_ids sel).
Proof.
  intros Hproc.
  apply process_conversations_maps in Hproc
    as (new & keys & Hnew & Hrec & Hkeys & _ & Hraw & _ & [Hh Hnd'] & _);
    [|apply well_keyed_nil..].
  simpl in Hnew. subst new.
  pose proof (size_to_map raw Hh Hnd') as Hsize. rewrite Hraw in Hsize |- *.
  change (to_map []) with (∅ : gmap hkey value) in *.
  pose proof (Forall2_length _ _ _ Hrec) as Hlen.
  pose proof (Forall2_length _ _ _ Hkeys) as Hlen'.
  assert (length (zip keys sel) = length rows) as Hzip.
  { rewrite length_zip_with. lia. }
  destruct (size_recorded (zip keys sel)) as [Hle Hnd].
  rewrite fst_zip_keys in Hnd by done.
  unfold unique_ids. rewrite (conversation_keys_Forall2 _ _ Hkeys).
  rewrite <-Hsize.
  split_and!.
  - done.
  - by apply recorded_last.
  - done.
  - lia.
  - split.
    + intros Hsize'. apply Hnd. lia.
    + intros Hunique.
      rewrite <-size_dom, dom_recorded, dom_empty_L, union_empty_l_L.
      rewrite fst_zip_keys, size_list_to_set by done. lia.
Qed.

Lemma lookup_keeps_last_record_witness :
  let sel :=
    [Examples.conversation "c1" "A" []; Examples.conversation "c2" "B" [];
     Examples.conversation "c1" "B" ["gravity"]] in
  ∃ rows raw pop,
    process_conversations (VStr "A") sel ([], [], []) = Ok (rows, raw, pop) ∧
    length rows = 3 ∧
    (∀ k, to_map raw !! k = last_such (has_key k) sel) ∧
    size (to_map raw) = length raw ∧
    length raw ≤ length rows ∧
    (length raw = length rows ↔ unique_ids sel).
Proof.
  intros sel.
  destruct (process_conversations (VStr "A") sel ([], [], []))
    as [[[rows raw] pop]|e] eqn:Hproc; [|discriminate Hproc].
  exists rows, raw, pop. split; [reflexivity|].
  exact (lookup_keeps_last_record (VStr "A") sel rows raw pop Hproc).
Defined.

(* ===================================================================== *)
(** * The repair of the source *)
(* ===================================================================== *)

(** A text in which [old] does not occur is left as it is. *)
Lemma replace_absent (old new s : string) :
  is_substring old s = false → replace old new s = s.
Proof.
  unfold replace. induction s as [|c s IH]; [done|].
  cbn [is_substring replace_from]. intros [Hprefix Hrest]%orb_false_elim.
  rewrite Hprefix. f_equal. by apply IH.
Qed.

(** Dropping the commas before a closing character shortens the text when
    there is one to drop. *)
Lemma replace_length (closer : ascii) (n : nat) :
  ∀ s, String.length s ≤ n →
    String.length
      (replace (String "," (String closer EmptyString))
               (String closer EmptyString) s) +
    (if is_substring (String "," (String closer EmptyString)) s
     then 1 else 0)
    ≤ String.length s.
Proof.
  unfold replace. induction n as [|n IH]; intros s Hn.
  { destruct s; [cbn; lia | simpl in *; lia]. }
  destruct s as [|a s]; [cbn; lia|].
  cbn [replace_from is_substring String.prefix].
  destruct (Ascii.ascii_dec "," a) as [<-|Ha].
  2:{ cbn [orb String.length]. specialize (IH s). simpl in *. lia. }
  destruct s as [|b s]; cbn [String.prefix].
  { cbn. lia. }
  destruct (Ascii.ascii_dec closer b) as [<-|Hb]; cbn [String.prefix].
  - replace (String.prefix "" s) with true by (by destruct s).
    cbn [orb String.length Nat.sub replace_from append].
    specialize (IH s). cbv [append].
    destruct (is_substring (String "," (String closer "")) s);
      simpl in *; lia.
  - cbn [orb]. specialize (IH (String b s)).
    cbn [replace_from is_substring String.length] in *. lia.
Qed.

(** X9.  The repair (lines 46-47) never lengthens the text, and it leaves the
    text as it is exactly when the text has no comma directly before a
    closing bracket or a closing brace. *)
Theorem repair_fixpoint (content : string) :
  String.length (repair content) ≤ String.length content ∧
  (repair content = content ↔
   is_substring ",]" content = false ∧ is_substring ",}" content = false).
Proof.
  pose proof (replace_length "]" _ content (le_n _)) as H1.
  pose proof (replace_length "}" _ (replace ",]" "]" content) (le_n _)) as H2.
  fold (repair content) in H2.
  split.
  { destruct (is_substring ",]" content),
             (is_substring ",}" (replace ",]" "]" content));
      cbv iota in H1, H2; lia. }
  split.
  - intros Heq. rewrite Heq in H2.
    destruct (is_substring ",]" content) eqn:Hb; cbv iota in H1.
    { destruct (is_substring ",}" (replace ",]" "]" content));
        cbv iota in H2; lia. }
    rewrite replace_absent in H2 by done.
    destruct (is_substring ",}" content); cbv iota in H2; [lia | done].
  - intros [Hb Hc]. unfold repair.
    rewrite (replace_absent ",]" "]" content) by done.
    by rewrite replace_absent.
Qed.

Section unrepairable.
Context {G : Type} `{!RandomSource G}.
Variable json_loads : string → option value.
Variable to_parquet : list summary_row → option exn.


End unrepairable.


Section repaired_runs.
Context {G : Type} `{!RandomSource G}.
Variable json_loads : string → option value.
Variable to_parquet : list summary_row → option exn.

(** What follows the loading of the source depends on the generator and on
    nothing else of the state. *)
Lemma process_collection_same_output (base : Z) (data : value) :
  respects (same_output (G:=G)) (process_collection to_parquet base data).
Proof.
  unfold process_collection, write_artifacts, print_breakdown, sample_pools.
  step_through @respects_bind @respects_ret @respects_lift;
    try (by intros s t (? & ? & ? & ?)).
  all: intros s t (Hrng & ? & ? & ?); unfold random_sample, write_summary;
    first [ by destruct (to_parquet _)
          | rewrite Hrng; by destruct (sample _ _ (rng t)) as [[chosen g]|e] ].
Qed.

(** X11.  A source that decodes only after the repair is processed like a source
    that decodes to the same collection at once: from the same generator
    state the two runs end the same way, with the same three files. *)
Theorem repaired_source_same_output (base : Z) (w v : world G) (data : value) :
  json_loads (source w) = Some data →
  json_loads (source v) = None →
  json_loads (repair (source v)) = Some data →
  same_output w v →
  let clean := preprocess_data json_loads to_parquet base w in
  let repaired := preprocess_data json_loads to_parquet base v in
  repaired.1 = clean.1 ∧
  same_output clean.2 repaired.2 ∧
  decoded repaired.2 = decoded v ++ [source v; repair (source v)].
Proof.
  intros Hclean Hbad Hrepaired (Hrng & Hsum & Hraw & Hpop) clean repaired.
  destruct (preprocess_data_loaded json_loads to_parquet base w data)
    as (w1 & Hw & _ & Hrng1 & Hsum1 & Hraw1 & Hpop1 & _).
  { unfold input_collection. by rewrite Hclean. }
  destruct (preprocess_data_loaded json_loads to_parquet base v data)
    as (v1 & Hv & _ & Hrng2 & Hsum2 & Hraw2 & Hpop2 & Hdec).
  { unfold input_collection. by rewrite Hbad. }
  rewrite Hbad in Hdec.
  subst clean repaired. rewrite Hw, Hv.
  destruct (process_collection_same_output base data w1 v1) as [Hres Hsame].
  { split_and!; congruence. }
  split_and!; [done | done |].
  rewrite <-Hdec.
  destruct (process_collection to_parquet base data v1) as [r v'] eqn:Hrun.
  cbn [snd]. by apply process_collection_written in Hrun as (_ & -> & _).
Qed.

End repaired_runs.

Lemma repaired_source_same_output_witness :
  let decoder := Examples.decoder_of "[1]" (VList Examples.six_conversations) in
  let clean := preprocess_data decoder Examples.stores_all 4 (Examples.fresh "[1]") in
  let repaired := preprocess_data decoder Examples.stores_all 4 (Examples.fresh "[1,]") in
  repaired.1 = clean.1 ∧
  same_output clean.2 repaired.2 ∧
  decoded repaired.2 = ["[1,]"; "[1]"].
Proof.
  exact (repaired_source_same_output
    (Examples.decoder_of "[1]" (VList Examples.six_conversations)) Examples.stores_all 4
    (Examples.fresh "[1]") (Examples.fresh "[1,]")
    (VList Examples.six_conversations) eq_refl eq_refl eq_refl
    ltac:(by split_and!)).
Defined.

(* ===================================================================== *)
(** * The viewer, from the filter to the conversation *)
(* ===================================================================== *)

(** The script with both files in place: the sidebar with its count, then
    the picker and what it selects. *)
Lemma app_present (df : list summary_row) (raw : value) (user : session) :
  let rows := visible (concept_choice user) df in
  ∃ sidebar,
    metric sidebar = Some (length rows) ∧
    picker sidebar = None ∧ tabs sidebar = None ∧ labelled sidebar = [] ∧
    app (Files (Some df) (Some raw)) user []
    = (options ← lift (option_labels rows rows);
       _ ← show (StSelectbox "Select Conversation" options);
       match picked (conversation_choice user) rows with
       | Some row =>
           if truthy (conversation_id row)
           then render_conversation df raw (conversation_id row)
           else show (StWrite "Please select a conversation to view.")
       | None => show (StWrite "Please select a conversation to view.")
       end) sidebar.
Proof.
  intros rows. eexists. split_and!; cycle 4.
  - unfold app, mbind at 1 2, eff_bind at 1 2, load_data.
    cbn [conversations_parquet raw_conversations_json].
    rewrite bool_decide_eq_false_2 by done.
    unfold mret at 1, eff_ret at 1. cbn [lift mbind result_bind].
    unfold mbind at 1 2 3 4 5, eff_bind at 1 2 3 4 5, show at 1 2 3 4 5.
    cbn [app].
    assert ((if String.eqb
                  (default "All conversations"
                     (concept_options !! concept_choice user))
                  "Teacher-selected questions"
             then filter (λ r, has_concepts r = true) df
             else if String.eqb
                       (default "All conversations"
                          (concept_options !! concept_choice user))
                       "100% AI selected questions"
                  then filter (λ r, has_concepts r = false) df
                  else df) = rows) as ->.
    { subst rows. by destruct (concept_choice user) as [|[|[|n]]]. }
    lazymatch goal with |- _ ?p = _ ?s => unify s p; generalize p end.
    intros page. clearbody rows. by destruct rows.
  - done.
  - done.
  - done.
  - done.
Qed.

Lemma cell_eq_string (cell : value) (s : string) :
  cell_eq cell (VStr s) = true ↔ cell = VStr s.
Proof.
  destruct cell; cbn; try (split; [discriminate | intros [=]]).
  rewrite String.eqb_eq. split; [by intros -> | by intros [= ->]].
Qed.

(** The row a conversation id stands for is the first row with that id. *)
Lemma row_of_first_with_id (table : list summary_row) (x : value) :
  row_of table x =
  match first_with_id x table with
  | Some named => Ok named
  | None => Raise IndexError
  end.
Proof.
  unfold row_of, first_with_id, Py.index. by rewrite head_lookup.
Qed.

Lemma first_with_id_found (table : list summary_row) (r : summary_row) :
  r ∈ table → string_cell (conversation_id r) = true →
  is_Some (first_with_id (conversation_id r) table).
Proof.
  intros Hr Hid. unfold first_with_id.
  destruct (filter _ table) as [|named rest] eqn:Hf; [|by eexists].
  exfalso. eapply (filter_nil_not_elem_of _ _ r); [exact Hf | | done].
  cbn beta. destruct (conversation_id r) as [| | |s| |]; try done.
  cbn. apply String.eqb_refl.
Qed.

(** No row stands for the id [None]. *)
Lemma first_with_id_none (table : list summary_row) :
  first_with_id VNone table = None.
Proof.
  unfold first_with_id. induction table as [|r table IH]; [done|].
  rewrite filter_cons_False; [done|]. by destruct (conversation_id r).
Qed.

Lemma option_labels_spec (table rows : list summary_row) :
  Forall (λ r, string_cell (conversation_id r) = true) rows →
  rows ⊆ table →
  ∃ labels,
    option_labels table rows = Ok labels ∧
    Forall2 (λ r l,
      l.1 = conversation_id r ∧
      ∃ named,
        first_with_id (conversation_id r) table = Some named ∧
        l.2 = assignment_name named) rows labels.
Proof.
  induction 1 as [|r rows Hr _ IH]; intros Hsub.
  { exists []. by split. }
  destruct IH as (labels & Hlabels & Hall).
  { intros x Hx. apply Hsub. by right. }
  destruct (first_with_id_found table r) as [named Hnamed]; [|done|].
  { apply Hsub. by left. }
  exists ((conversation_id r, assignment_name named) :: labels).
  cbn [option_labels]. rewrite row_of_first_with_id, Hnamed.
  cbn [mbind result_bind]. rewrite Hlabels. split; [done|].
  constructor; [|done]. split; [done|]. by exists named.
Qed.

(** A row without a conversation id among the options makes the lookup of
    its label fail. *)
Lemma option_labels_missing_id (table rows : list summary_row)
    (r : summary_row) :
  r ∈ rows → conversation_id r = VNone →
  option_labels table rows = Raise IndexError.
Proof.
  intros Hr Hid. induction rows as [|r0 rows IH]; [by apply elem_of_nil in Hr|].
  cbn [option_labels]. rewrite row_of_first_with_id.
  destruct (first_with_id (conversation_id r0) table) as [named|] eqn:Hnamed;
    [|done].
  cbn [mbind result_bind].
  apply elem_of_cons in Hr as [->|Hr].
  - by rewrite Hid, first_with_id_none in Hnamed.
  - by rewrite (IH Hr).
Qed.

(** *** A script only adds to the page *)

Lemma extends_bind {A B} (m : script A) (k : A → script B) :
  (∀ page, page `prefix_of` (m page).2) →
  (∀ a page, page `prefix_of` (k a page).2) →
  ∀ page, page `prefix_of` ((m ≫= k) page).2.
Proof.
  intros Hm Hk page. unfold mbind, eff_bind. specialize (Hm page).
  destruct (m page) as [[a|e] page1]; cbn [snd] in *; [|done].
  etrans; [exact Hm | apply Hk].
Qed.

Lemma extends_ret {A} (a : A) :
  ∀ page, page `prefix_of` ((mret a : script A) page).2.
Proof. done. Qed.

Lemma extends_lift {A} (r : result A) :
  ∀ page, page `prefix_of` ((lift r : script A) page).2.
Proof. done. Qed.

Lemma extends_show (e : element) :
  ∀ page, page `prefix_of` (show e page).2.
Proof. intros page. by apply prefix_app_r. Qed.

Ltac extends_with known :=
  repeat first
    [ known
    | apply extends_ret
    | apply extends_lift
    | apply extends_show
    | apply extends_bind; [|intros ?]
    | match goal with
      | |- context [match ?x with (_, _) => _ end] => destruct x
      | |- context [match ?x with VList _ => _ | _ => _ end] => destruct x
      | |- context [match ?x with [] => _ | _ :: _ => _ end] => destruct x
      | |- context [match ?x with Some _ => _ | None => _ end] => destruct x
      | |- context [if ?b then _ else _] => destruct b
      end ].

Ltac extends := extends_with fail.

Lemma extends_render_questions_from (conversation_data : value)
    (questions : list value) :
  ∀ i page,
    page `prefix_of`
      (render_questions_from conversation_data i questions page).2.
Proof.
  induction questions as [|q questions IH]; intros i; [done|].
  cbn [render_questions_from]. apply extends_bind; [|intros _; apply IH].
  unfold render_question, flow_concept. extends.
Qed.

Lemma extends_render_conversation (df : list summary_row)
    (raw selected : value) :
  ∀ page, page `prefix_of` (render_conversation df raw selected page).2.
Proof.
  unfold render_conversation, render_questions.
  extends_with ltac:(apply extends_render_questions_from).
Qed.

Lemma metric_app (page rest : list element) (n : nat) :
  metric page = Some n → metric (page ++ rest) = Some n.
Proof. induction page as [|e page IH]; [done|]. destruct e; cbn; auto. Qed.

Lemma picker_app (page rest : list element) (l : list (value * value)) :
  picker page = Some l → picker (page ++ rest) = Some l.
Proof. induction page as [|e page IH]; [done|]. destruct e; cbn; auto. Qed.

Lemma picker_app_none (page rest : list element) :
  picker page = None → picker (page ++ rest) = picker rest.
Proof. induction page as [|e page IH]; [done|]. destruct e; cbn; auto; done. Qed.

Lemma tabs_app_none (page rest : list element) :
  tabs page = None → tabs (page ++ rest) = tabs rest.
Proof. induction page as [|e page IH]; [done|]. destruct e; cbn; auto; done. Qed.

Lemma run_app_page (fs : files) (user : session) :
  (run_app fs user).2 = (app fs user []).2.
Proof.
  unfold run_app. by destruct (app fs user []) as [[[]|[]] page].
Qed.

(** The page after the picker is shown, and whatever the script adds. *)
Lemma app_picker (df : list summary_row) (raw : value) (user : session)
    (labels : list (value * value)) :
  let rows := visible (concept_choice user) df in
  option_labels rows rows = Ok labels →
  ∃ sidebar,
    metric sidebar = Some (length rows) ∧
    picker sidebar = None ∧ tabs sidebar = None ∧ labelled sidebar = [] ∧
    app (Files (Some df) (Some raw)) user []
    = match picked (conversation_choice user) rows with
      | Some row =>
          if truthy (conversation_id row)
          then render_conversation df raw (conversation_id row)
          else show (StWrite "Please select a conversation to view.")
      | None => show (StWrite "Please select a conversation to view.")
      end (sidebar ++ [StSelectbox "Select Conversation" labels]).
Proof.
  intros rows Hlabels.
  destruct (app_present df raw user)
    as (sidebar & Hmetric & Hpicker & Htabs & Hlab & Happ).
  exists sidebar. split_and!; try done.
  rewrite Happ. fold rows. unfold mbind at 1, eff_bind at 1, lift.
  rewrite Hlabels. reflexivity.
Qed.

(** X12.  The count in the sidebar (lines 51-59) is on the page whatever the
    rest of the script does, and it is the number of rows the filter lets
    through; the rows with teacher-selected concepts and the rows without
    are, together, all the rows of the table. *)
Theorem sidebar_counts_filtered_rows (df : list summary_row) (raw : value)
    (user : session) :
  metric (run_app (Files (Some df) (Some raw)) user).2
    = Some (length (visible (concept_choice user) df)) ∧
  length (visible 1 df) + length (visible 2 df) = length (visible 0 df).
Proof.
  split.
  - rewrite run_app_page.
    destruct (app_present df raw user)
      as (sidebar & Hmetric & _ & _ & _ & ->).
    set (rows := visible (concept_choice user) df) in *.
    match goal with
    | |- metric (?m sidebar).2 = _ =>
        assert (∀ page, page `prefix_of` (m page).2) as Hext
    end.
    { extends_with ltac:(apply extends_render_conversation). }
    destruct (Hext sidebar) as [rest ->]. by apply metric_app.
  - cbn [visible].
    rewrite <-(Permutation_length
      (filter_app_complement (λ r, has_concepts r = true) df)), length_app.
    f_equal. f_equal. apply list_filter_iff. intros r.
    by destruct (has_concepts r).
Qed.

(** X13.  The conversation picker (lines 64-69) offers the ids of the rows the
    filter lets through, in their order; when these ids are strings the
    lookup of a label never fails, and an id is labelled with the
    assignment name of the first row that has it. *)
Theorem picker_labels_first_row (df : list summary_row) (raw : value)
    (user : session) :
  let rows := visible (concept_choice user) df in
  Forall (λ r, string_cell (conversation_id r) = true) rows →
  ∃ labels,
    picker (run_app (Files (Some df) (Some raw)) user).2 = Some labels ∧
    Forall2 (λ r l,
      l.1 = conversation_id r ∧
      ∃ named,
        first_with_id (conversation_id r) rows = Some named ∧
        l.2 = assignment_name named) rows labels.
Proof.
  intros rows Hids.
  destruct (option_labels_spec rows rows Hids) as (labels & Hlabels & Hall);
    [done|].
  exists labels. split; [|done].
  rewrite run_app_page.
  destruct (app_picker df raw user labels Hlabels)
    as (sidebar & _ & Hpicker & _ & _ & ->).
  fold rows.
  match goal with
  | |- picker (?m ?p).2 = _ =>
      assert (∀ page, page `prefix_of` (m page).2) as Hext
  end.
  { extends_with ltac:(apply extends_render_conversation). }
  destruct (Hext (sidebar ++ [StSelectbox "Select Conversation" labels]))
    as [rest ->].
  apply picker_app. by rewrite picker_app_none.
Qed.

(** X14.  With no row to pick, or, the ids of the rows being strings, with
    a row picked whose conversation id is the empty string, the script
    shows the request to select a conversation and ends: no conversation
    is shown and nothing is raised. *)
Theorem nothing_selected_shows_request (df : list summary_row) (raw : value)
    (user : session) :
  let rows := visible (concept_choice user) df in
  Forall (λ r, string_cell (conversation_id r) = true) rows →
  match picked (conversation_choice user) rows with
  | Some row => conversation_id row = VStr ""
  | None => True
  end →
  ∃ page,
    run_app (Files (Some df) (Some raw)) user = (Finished, page) ∧
    last page = Some (StWrite "Please select a conversation to view.") ∧
    metric page = Some (length rows) ∧
    tabs page = None ∧ labelled page = [].
Proof.
  intros rows Hids Hnone.
  destruct (option_labels_spec rows rows Hids) as (labels & Hlabels & _);
    [done|].
  destruct (app_picker df raw user labels Hlabels)
    as (sidebar & Hmetric & _ & Htabs & Hlab & Happ).
  fold rows in Happ.
  exists (sidebar ++ [StSelectbox "Select Conversation" labels] ++
          [StWrite "Please select a conversation to view."]).
  split_and!.
  - unfold run_app. rewrite Happ.
    destruct (picked (conversation_choice user) rows) as [row|];
      [rewrite Hnone; cbn [truthy String.eqb negb]|];
      unfold show; by rewrite <-app_assoc.
  - by rewrite app_assoc, last_snoc.
  - by apply metric_app.
  - by rewrite tabs_app_none.
  - by rewrite labelled_app_body.
Qed.

(** X15.  The ids of the rows being strings, a conversation id that is not
    a key of the raw lookup (line 73) ends the script with an uncaught
    [KeyError], after the picker and before anything of the conversation
    is shown. *)
Theorem unknown_conversation_raises_key_error (df : list summary_row)
    (lookup : list (string * value)) (user : session) (row : summary_row)
    (s : string) :
  let rows := visible (concept_choice user) df in
  Forall (λ r, string_cell (conversation_id r) = true) rows →
  picked (conversation_choice user) rows = Some row →
  conversation_id row = VStr s →
  s ≠ "" →
  assoc s lookup = None →
  ∃ page labels,
    run_app (Files (Some df) (Some (VDict lookup))) user
    = (Uncaught KeyError, page) ∧
    last page = Some (StSelectbox "Select Conversation" labels) ∧
    tabs page = None ∧ labelled page = [].
Proof.
  intros rows Hids Hrow Hid Hs Hmissing.
  destruct (option_labels_spec rows rows Hids) as (labels & Hlabels & _);
    [done|].
  destruct (app_picker df (VDict lookup) user labels Hlabels)
    as (sidebar & _ & _ & Htabs & Hlab & Happ).
  fold rows in Happ. rewrite Hrow, Hid in Happ. cbn [truthy] in Happ.
  apply String.eqb_neq in Hs. rewrite Hs in Happ. cbn [negb] in Happ.
  exists (sidebar ++ [StSelectbox "Select Conversation" labels]), labels.
  split_and!.
  - unfold run_app. rewrite Happ.
    unfold render_conversation, mbind at 1, eff_bind at 1, lift.
    cbn [getitem subscript]. by rewrite Hmissing.
  - by rewrite last_snoc.
  - by rewrite tabs_app_none.
  - by rewrite labelled_app_body.
Qed.






Lemma picker_labels_first_row_witness :
  ∃ labels,
    picker (run_app (Files (Some Samples.table) (Some (VDict [])))
              (Session 0 0)).2 = Some labels ∧
    Forall2 (λ r l,
      l.1 = conversation_id r ∧
      ∃ named,
        first_with_id (conversation_id r) Samples.table = Some named ∧
        l.2 = assignment_name named) Samples.table labels.
Proof.
  exact (picker_labels_first_row Samples.table (VDict []) (Session 0 0)
    ltac:(repeat constructor)).
Defined.

Lemma nothing_selected_shows_request_witness :
  ∃ page,
    run_app
      (Files (Some [Samples.row (VStr "") "First" false]) (Some (VDict [])))
      (Session 0 0) = (Finished, page) ∧
    last page = Some (StWrite "Please select a conversation to view.") ∧
    metric page = Some 1 ∧
    tabs page = None ∧ labelled page = [].
Proof.
  exact (nothing_selected_shows_request [Samples.row (VStr "") "First" false]
    (VDict []) (Session 0 0) ltac:(repeat constructor) eq_refl).
Defined.

Lemma unknown_conversation_raises_key_error_witness :
  ∃ page labels,
    run_app
      (Files (Some Samples.table)
         (Some (VDict [("c2", Examples.record_with [])])))
      (Session 0 0)
    = (Uncaught KeyError, page) ∧
    last page = Some (StSelectbox "Select Conversation" labels) ∧
    tabs page = None ∧ labelled page = [].
Proof.
  exact (unknown_conversation_raises_key_error Samples.table
    [("c2", Examples.record_with [])] (Session 0 0)
    (Samples.row (VStr "c1") "First" true) "c1"
    ltac:(repeat constructor) eq_refl eq_refl ltac:(done) eq_refl).
Defined.


(* ===================================================================== *)
(** * The layout of the summary table *)
(* ===================================================================== *)

Lemma summary_record_flags (mp conv : value) (row : summary_row) :
  summary_record mp conv = Ok row →
  has_valid_concepts conv = Ok (has_concepts row) ∧
  is_popular mp conv = Ok (is_popular_assignment row).
Proof.
  unfold summary_record, is_popular. intros H. bind_inv H. injection H as <-.
  cbn [has_concepts is_popular_assignment].
  match goal with H : assignment_id_of conv = Ok _ |- _ => rewrite H end.
  by split.
Qed.

Lemma rows_of_block (mp : value) (P : summary_row → Prop)
    (Q : value → Prop) (rows : list summary_row) (block : list value) :
  (∀ row conv, summary_record mp conv = Ok row → Q conv → P row) →
  Forall2 (λ row conv, summary_record mp conv = Ok row) rows block →
  Forall Q block → Forall P rows.
Proof.
  intros HPQ Hrows. induction Hrows as [|row conv rows block Hrow _ IH];
    [constructor|].
  intros [Hconv Hblock]%Forall_cons_1. constructor; [by eapply HPQ | by apply IH].
Qed.

Section table_layout.
Context {G : Type} `{!RandomSource G}.
Variable json_loads : string → option value.
Variable to_parquet : list summary_row → option exn.

(** X17.  The summary table a run writes (into an empty output directory) comes
    in three blocks: the rows of the records sampled with concepts, marked
    [has_concepts]; the rows of the records sampled without concepts, not
    marked; and, last, the rows of the popular assignment, which alone are
    marked [is_popular_assignment], one for each of its records. *)
Theorem summary_table_blocks (base : Z) (w w' : world G) (r : result ())
    (data : value) (convs : list value) (rows : list summary_row) :
  input_collection json_loads (source w) = Some data →
  iter data = Ok convs →
  summary_file w = Missing →
  preprocess_data json_loads to_parquet base w = (r, w') →
  summary_file w' = Holds rows →
  ∃ mp count with_rows without_rows popular_rows,
    most_popular convs = Ok (mp, count) ∧
    rows = with_rows ++ without_rows ++ popular_rows ∧
    Forall (λ row, has_concepts row = true ∧
                   is_popular_assignment row = false) with_rows ∧
    Forall (λ row, has_concepts row = false ∧
                   is_popular_assignment row = false) without_rows ∧
    Forall (λ row, is_popular_assignment row = true) popular_rows ∧
    length popular_rows = count.
Proof.
  intros Hin Hiter Hfresh Hrun Hrows.
  destruct (preprocess_data_wrote json_loads to_parquet base w w' r data Hin Hrun)
    as (convs' & mp & count & popular & wc & woc & ws & wos & rows' & raw &
        pop & rm & pm & Hiter' & Hmp & Hpart & Hws & Hwos & Hproc & _ & _ &
        _ & Hrows' & _).
  { left. congruence. }
  assert (convs' = convs) as -> by congruence.
  assert (rows' = rows) as -> by congruence.
  apply process_conversations_spec in Hproc as (new & keys & Hnew & Hrec & _).
  simpl in Hnew. subst new.
  apply Forall2_app_inv_r in Hrec as (with_rows & rest & Hwith & Hrest & ->).
  apply Forall2_app_inv_r in Hrest
    as (without_rows & popular_rows & Hwithout & Hpopular & ->).
  pose proof (partition_spec _ _ _ _ _ Hpart)
    as (Hfilter & _ & Hpop & Hnotpop & Hwc & Hwoc).
  apply Forall_app in Hnotpop as [Hwc' Hwoc'].
  destruct (most_popular_not_empty _ _ _ Hmp) as [Hcount _].
  apply popular_partition in Hfilter. rewrite <-Hfilter in Hcount.
  exists mp, count, with_rows, without_rows, popular_rows. split_and!; try done.
  - apply (rows_of_block mp _
      (λ conv, has_valid_concepts conv = Ok true ∧ is_popular mp conv = Ok false)
      with_rows ws); [|done|].
    + intros row conv [Hc Hp]%summary_record_flags [Hc' Hp']. split; congruence.
    + rewrite Forall_forall in *. intros conv Hconv.
      split; [apply Hwc | apply Hwc']; by eapply elem_of_submseteq.
  - apply (rows_of_block mp _
      (λ conv, has_valid_concepts conv = Ok false ∧ is_popular mp conv = Ok false)
      without_rows wos); [|done|].
    + intros row conv [Hc Hp]%summary_record_flags [Hc' Hp']. split; congruence.
    + rewrite Forall_forall in *. intros conv Hconv.
      split; [apply Hwoc | apply Hwoc']; by eapply elem_of_submseteq.
  - apply (rows_of_block mp _ (λ conv, is_popular mp conv = Ok true)
      popular_rows popular); [|done|done].
    intros row conv [_ Hp]%summary_record_flags Hp'. congruence.
  - rewrite <-Hcount. by eapply Forall2_length.
Qed.

(** X18.  Every run creates the output directory before anything else (line
    35): it is there afterwards, also when the run gives up on the source
    or ends with an exception. *)
Theorem output_directory_is_created (base : Z) (w : world G) :
  processed_data (preprocess_data json_loads to_parquet base w).2 = true.
Proof.
  destruct (input_collection json_loads (source w)) as [data|] eqn:Hin.
  - destruct (preprocess_data_enters json_loads to_parquet base w data Hin)
      as (w1 & -> & _ & _ & _ & _ & Hdir).
    destruct (process_collection to_parquet base data w1) as [r w'] eqn:Hrun.
    apply process_collection_written in Hrun as (_ & _ & Hdir' & _).
    cbn [snd]. congruence.
  - by rewrite preprocess_data_aborted.
Qed.

End table_layout.

Lemma summary_table_blocks_witness :
  let out :=
    preprocess_data
      (Examples.decoder_of "doc" (VList Examples.six_conversations)) Examples.stores_all 4
      (Examples.fresh "doc") in
  ∃ rows,
    summary_file out.2 = Holds rows ∧
    ∃ mp count with_rows without_rows popular_rows,
      most_popular Examples.six_conversations = Ok (mp, count) ∧
      rows = with_rows ++ without_rows ++ popular_rows ∧
      Forall (λ row, has_concepts row = true ∧
                     is_popular_assignment row = false) with_rows ∧
      Forall (λ row, has_concepts row = false ∧
                     is_popular_assignment row = false) without_rows ∧
      Forall (λ row, is_popular_assignment row = true) popular_rows ∧
      length popular_rows = count.
Proof.
  intros out.
  destruct (summary_file out.2) as [| |rows] eqn:Hrows;
    [discriminate Hrows | discriminate Hrows |].
  exists rows. split; [reflexivity|].
  exact (summary_table_blocks
    (Examples.decoder_of "doc" (VList Examples.six_conversations)) Examples.stores_all 4
    (Examples.fresh "doc") out.2 out.1 (VList Examples.six_conversations)
    Examples.six_conversations rows eq_refl eq_refl eq_refl
    (surjective_pairing out) Hrows).
Defined.

(* ===================================================================== *)
(** * What the two helpers can raise *)
(* ===================================================================== *)

(** X19.  The two helpers of the preprocessor (lines 8-23) read every
    field with a default, so they never raise a [KeyError]:
    [get_student_reading] raises only an [AttributeError], and
    [has_valid_concepts] only that or a [TypeError].  On a dictionary whose
    [assignment] is a dictionary or absent the first always returns, and
    the second returns unless [concepts] is a number other than zero or
    [True]. *)
Theorem helpers_never_raise_key_error (conv : value) :
  (∀ e, get_student_reading conv = Raise e → e = AttributeError) ∧
  (∀ e, has_valid_concepts conv = Raise e →
        e = AttributeError ∨ e = TypeError) ∧
  (∀ d,
     conv = VDict d → optional_dict d "assignment" = true →
     is_ok (get_student_reading conv) = true ∧
     is_ok (has_valid_concepts conv)
     = testable_concepts
         match assoc "assignment" d with
         | Some (VDict a) => default (VList []) (assoc "concepts" a)
         | _ => VList []
         end).
Proof.
  split_and!.
  - intros e. unfold get_student_reading.
    destruct conv as [| | | | |d]; cbn [dict_get mbind result_bind];
      try (by intros [= <-]).
    destruct (default (VDict []) (assoc "assignment" d)) as [| | | | |a];
      cbn [dict_get mbind result_bind]; try (by intros [= <-]).
    by destruct (py_eq _ _).
  - intros e. unfold has_valid_concepts.
    destruct conv as [| | | | |d]; cbn [dict_get mbind result_bind];
      try (intros [= <-]; by left).
    destruct (default (VDict []) (assoc "assignment" d)) as [| | | | |a];
      cbn [dict_get mbind result_bind]; try (intros [= <-]; by left).
    destruct (default (VList []) (assoc "concepts" a)) as [|[]|n|s|l|c];
      unfold all; cbn [truthy iter fmap result_fmap]; try done;
      try (intros [= <-]; by right).
    + destruct (negb (n =? 0)%Z); [intros [= <-]; by right | done].
    + by destruct (negb (String.eqb s "")).
    + by destruct l.
    + by destruct c.
  - intros d -> Ha. unfold optional_dict in Ha.
    unfold get_student_reading, has_valid_concepts. cbn [dict_get].
    destruct (assoc "assignment" d) as [[| | | | |a]|]; try done;
      cbn [default from_option id dict_get mbind result_bind].
    split; [by destruct (py_eq _ _)|].
    destruct (assoc "concepts" a) as [[|[]|n|s|l|c]|];
        cbn [from_option id testable_concepts negb];
        unfold all; cbn [truthy iter fmap result_fmap is_ok]; try done.
    + by destruct (n =? 0)%Z.
    + by destruct (negb (String.eqb s "")).
    + by destruct l.
    + by destruct c.
Qed.

(* ===================================================================== *)
(** * Inside the expanders *)
(* ===================================================================== *)

Lemma warnings_app (page rest : list element) :
  warnings (page ++ rest) = warnings page ++ warnings rest.
Proof.
  induction page as [|e page IH]; [done|]. destruct e; cbn; by rewrite ?IH.
Qed.

Lemma improved_shown_app (page rest : list element) :
  improved_shown (page ++ rest) = improved_shown page + improved_shown rest.
Proof.
  induction page as [|e page IH]; [done|]. destruct e; cbn; rewrite ?IH; lia.
Qed.

(** The teacher's concept for question [i] (lines 123-134): a warning when
    the flow has an entry for the question and the entry names a concept,
    and nothing otherwise. *)
Lemma flow_concept_shows (d : list (string * value)) (i : nat) :
  match assoc "assignment" d with
  | None => true
  | Some a => well_formed_assignment a
  end = true →
  ∃ body,
    (∀ page, flow_concept (VDict d) i page = (Ok (), page ++ body)) ∧
    warnings body =
      String.append "**Teacher asked AI to include this concept:** " <$>
        option_list (flow_entries (VDict d) !! (i - 1) ≫= teacher_concept) ∧
    improved_shown body = 0.
Proof.
  intros Hwf. unfold flow_entries.
  assert (∀ page : list element, (Ok (), page) = (Ok (), page ++ [])) as Hnil.
  { intros page. by rewrite app_nil_r. }
  destruct (assoc "assignment" d) as [a|] eqn:Ha.
  2:{ exists []. split; [|by split]. intros page. unfold flow_concept. crunch.
      apply Hnil. }
  destruct a as [| | | | |ad]; try done. cbn [well_formed_assignment] in Hwf.
  destruct (assoc "conversation_flow" ad) as [flow|] eqn:Hflow.
  2:{ exists []. split; [|by split]. intros page. unfold flow_concept. crunch.
      apply Hnil. }
  destruct flow as [| | | |entries|]; try done.
  destruct (i - 1 <? length entries) eqn:Hi.
  2:{ exists []. split.
      - intros page. unfold flow_concept. crunch. apply Hnil.
      - apply Nat.ltb_ge in Hi. by rewrite lookup_ge_None_2. }
  apply Nat.ltb_lt in Hi as Hlt.
  destruct (lookup_lt_is_Some_2 entries (i - 1) Hlt) as [entry Hentry].
  rewrite forallb_forall in Hwf.
  assert (well_formed_flow_entry entry = true) as Hent.
  { apply Hwf. apply list_elem_of_In. by eapply list_elem_of_lookup_2. }
  rewrite Hentry. cbn [mbind option_bind].
  destruct entry as [| | | | |ed]; try done. cbn [well_formed_flow_entry] in Hent.
  cbn [teacher_concept].
  destruct (assoc "concept" ed) as [concept|] eqn:Hconcept.
  2:{ exists []. split; [|by split]. intros page. unfold flow_concept. crunch.
      apply Hnil. }
  destruct concept as [| | |s| |]; try done.
  { exists []. split; [|by split]. intros page. unfold flow_concept. crunch.
    apply Hnil. }
  destruct (String.eqb s "") eqn:Hs.
  - exists []. split; [|by split]. intros page. unfold flow_concept. crunch.
    apply Hnil.
  - eexists [_].
    split; [intros page; unfold flow_concept; crunch; reflexivity | by split].
Qed.

(** One question: its expander, the teacher's concept, the question and
    the response, and the improved response when there is one. *)
Lemma render_question_shows (d : list (string * value)) (i : nat)
    (question : value) :
  match assoc "assignment" d with
  | None => true
  | Some a => well_formed_assignment a
  end = true →
  well_formed_question question = true →
  is_Some (question_labels !! (i - 1)) →
  ∃ body,
    (∀ page, render_question (VDict d) i question page = (Ok (), page ++ body)) ∧
    warnings body =
      String.append "**Teacher asked AI to include this concept:** " <$>
        option_list (flow_entries (VDict d) !! (i - 1) ≫= teacher_concept) ∧
    improved_shown body = if has_improved question then 1 else 0.
Proof.
  intros Hwf Hq [label Hlabel].
  destruct (flow_concept_shows d i Hwf) as (flow & Hflow & Hflow1 & Hflow2).
  assert (i - 1 < length question_descriptions) as Hlt.
  { apply lookup_lt_Some in Hlabel. exact Hlabel. }
  destruct (lookup_lt_is_Some_2 _ _ Hlt) as [description Hdescription].
  destruct question as [| | | | |qd]; try done.
  cbn [well_formed_question] in Hq. apply andb_prop in Hq as [Hq1 Hq2].
  apply bool_decide_eq_true in Hq1 as [text Htext].
  apply bool_decide_eq_true in Hq2 as [response Hresponse].
  cbn [has_improved].
  destruct (assoc "improved_response" qd) as [improved|] eqn:Himproved;
    [destruct (truthy improved) eqn:Htruthy|].
  - eexists (_ :: _ :: flow ++ [_; _; _; _; _; _]). split_and!.
    + intros page. unfold render_question. crunch. rewrite Hflow. crunch.
      rewrite <-!app_assoc. reflexivity.
    + cbn [warnings]. by rewrite warnings_app, <-Hflow1, app_nil_r.
    + cbn [improved_shown]. by rewrite improved_shown_app, Hflow2.
  - eexists (_ :: _ :: flow ++ [_; _; _; _]). split_and!.
    + intros page. unfold render_question. crunch. rewrite Hflow. crunch.
      rewrite <-!app_assoc. reflexivity.
    + cbn [warnings]. by rewrite warnings_app, <-Hflow1, app_nil_r.
    + cbn [improved_shown]. by rewrite improved_shown_app, Hflow2.
  - eexists (_ :: _ :: flow ++ [_; _; _; _]). split_and!.
    + intros page. unfold render_question. crunch. rewrite Hflow. crunch.
      rewrite <-!app_assoc. reflexivity.
    + cbn [warnings]. by rewrite warnings_app, <-Hflow1, app_nil_r.
    + cbn [improved_shown]. by rewrite improved_shown_app, Hflow2.
Qed.

Lemma omap_take_drop {A B} (f : A → option B) (l : list A) (j m : nat) :
  omap f (take (S m) (drop j l))
  = option_list (l !! j ≫= f) ++ omap f (take m (drop (S j) l)).
Proof.
  destruct (l !! j) as [x|] eqn:Hx.
  - rewrite (drop_S _ _ _ Hx). cbn. by destruct (f x).
  - apply lookup_ge_None in Hx. by rewrite !drop_ge, !take_nil by lia.
Qed.

(** The loop over the questions, entered at position [j]: the warnings and
    the improved responses it shows. *)
Lemma render_questions_from_shows (d : list (string * value))
    (questions : list value) :
  match assoc "assignment" d with
  | None => true
  | Some a => well_formed_assignment a
  end = true →
  forallb well_formed_question questions = true →
  ∀ j,
    ∃ out,
      (∀ page,
         (render_questions_from (VDict d) (S j) questions page).2
         = page ++ out) ∧
      warnings out =
        String.append "**Teacher asked AI to include this concept:** " <$>
          omap teacher_concept
            (take (length questions `min` (6 - j))
               (drop j (flow_entries (VDict d)))) ∧
      improved_shown out =
        length (filter (λ q, has_improved q = true) (take (6 - j) questions)).
Proof.
  intros Hwf. induction questions as [|q questions IH]; intros Hqs j.
  { exists []. split_and!.
    - intros page. by rewrite app_nil_r.
    - done.
    - by rewrite take_nil. }
  cbn [forallb] in Hqs. apply andb_prop in Hqs as [Hq Hqs].
  cbn [render_questions_from length].
  destruct (question_labels !! j) as [label|] eqn:Hlabel.
  - apply lookup_lt_Some in Hlabel as Hj. cbn [length question_labels] in Hj.
    destruct (render_question_shows d (S j) q Hwf Hq)
      as (body & Hbody & Hwarn & Himp).
    { rewrite Nat.sub_1_r. by eexists. }
    rewrite Nat.sub_1_r in Hwarn. cbn [Nat.pred] in Hwarn.
    destruct (IH Hqs (S j)) as (out & Hout & Hwarn' & Himp').
    exists (body ++ out). split_and!.
    + intros page. unfold mbind, eff_bind. rewrite Hbody, Hout.
      by rewrite app_assoc.
    + rewrite warnings_app, Hwarn, Hwarn'.
      replace (S (length questions) `min` (6 - j))
        with (S (length questions `min` (6 - S j))) by lia.
      by rewrite omap_take_drop, fmap_app.
    + rewrite improved_shown_app, Himp, Himp'.
      replace (6 - j) with (S (6 - S j)) by lia.
      cbn [take]. rewrite filter_cons.
      destruct (has_improved q); [by rewrite decide_True | by rewrite decide_False].
  - apply lookup_ge_None in Hlabel as Hj. cbn [length question_labels] in Hj.
    exists []. split_and!.
    + intros page. unfold mbind, eff_bind.
      rewrite render_question_out_of_range by (by rewrite Nat.sub_1_r).
      by rewrite app_nil_r.
    + replace (6 - j) with 0 by lia. by rewrite Nat.min_0_r.
    + by replace (6 - j) with 0 by lia.
Qed.

(** X20.  The concepts a teacher attached to the questions (lines
    123-134): in the Questions tab of a well-formed record the warnings
    are, in order, the concepts that the entries of [conversation_flow]
    name for the questions shown; an entry without a concept gives no
    warning, questions beyond the end of the flow have none, entries
    beyond the last question are ignored, and no lookup is out of range. *)
Theorem teacher_concepts_are_announced (record : value)
    (questions : list value) :
  well_formed_record record = true →
  subscript record "questions" = Ok (VList questions) →
  warnings (render_questions record []).2 =
    String.append "**Teacher asked AI to include this concept:** " <$>
      omap teacher_concept
        (take (length questions `min` 6) (flow_entries record)).
Proof.
  intros Hwf Hqs.
  destruct record as [| | | | |d]; try done.
  cbn [well_formed_record] in Hwf. apply andb_prop in Hwf as [Ha Hq].
  cbn [subscript] in Hqs.
  destruct (assoc "questions" d) as [qs|] eqn:Hquestions; [|done].
  injection Hqs as ->.
  destruct (render_questions_from_shows d questions Ha Hq 0)
    as (out & Hrun & Hwarn & _).
  unfold render_questions, mbind at 1, eff_bind, lift. cbn [subscript].
  rewrite Hquestions. cbn [mbind result_bind iter]. by rewrite Hrun.
Qed.

(** X21.  The improved responses (lines 139-141): the Questions tab of a
    well-formed record announces an improved response for exactly those of
    the questions shown that have a truthy [improved_response]; an absent
    or empty one is passed over. *)
Theorem improved_responses_are_announced (record : value)
    (questions : list value) :
  well_formed_record record = true →
  subscript record "questions" = Ok (VList questions) →
  improved_shown (render_questions record []).2 =
    length (filter (λ q, has_improved q = true) (take 6 questions)).
Proof.
  intros Hwf Hqs.
  destruct record as [| | | | |d]; try done.
  cbn [well_formed_record] in Hwf. apply andb_prop in Hwf as [Ha Hq].
  cbn [subscript] in Hqs.
  destruct (assoc "questions" d) as [qs|] eqn:Hquestions; [|done].
  injection Hqs as ->.
  destruct (render_questions_from_shows d questions Ha Hq 0)
    as (out & Hrun & _ & Himp).
  unfold render_questions, mbind at 1, eff_bind, lift. cbn [subscript].
  rewrite Hquestions. cbn [mbind result_bind iter]. by rewrite Hrun.
Qed.

Lemma teacher_concepts_are_announced_witness :
  warnings
    (render_questions
       (Examples.record_with
          [Examples.question "Q1" "R1"; Examples.question "Q2" "R2";
           Examples.question "Q3" "R3"; Examples.question "Q4" "R4"]) []).2
  = String.append "**Teacher asked AI to include this concept:** " <$>
      omap teacher_concept
        (take (4 `min` 6)
           (flow_entries
              (Examples.record_with
                 [Examples.question "Q1" "R1"; Examples.question "Q2" "R2";
                  Examples.question "Q3" "R3"; Examples.question "Q4" "R4"]))).
Proof.
  exact (teacher_concepts_are_announced
    (Examples.record_with
       [Examples.question "Q1" "R1"; Examples.question "Q2" "R2";
        Examples.question "Q3" "R3"; Examples.question "Q4" "R4"])
    [Examples.question "Q1" "R1"; Examples.question "Q2" "R2";
     Examples.question "Q3" "R3"; Examples.question "Q4" "R4"]
    eq_refl eq_refl).
Defined.

Lemma improved_responses_are_announced_witness :
  improved_shown
    (render_questions
       (Examples.record_with
          [Examples.question "Q1" "R1";
           VDict [("question", VStr "Q2"); ("response", VStr "R2");
                  ("improved_response", VStr "Better")];
           VDict [("question", VStr "Q3"); ("response", VStr "R3");
                  ("improved_response", VStr "")]]) []).2
  = length
      (filter (λ q, has_improved q = true)
         (take 6
            [Examples.question "Q1" "R1";
             VDict [("question", VStr "Q2"); ("response", VStr "R2");
                    ("improved_response", VStr "Better")];
             VDict [("question", VStr "Q3"); ("response", VStr "R3");
                    ("improved_response", VStr "")]])).
Proof.
  exact (improved_responses_are_announced
    (Examples.record_with
       [Examples.question "Q1" "R1";
        VDict [("question", VStr "Q2"); ("response", VStr "R2");
               ("improved_response", VStr "Better")];
        VDict [("question", VStr "Q3"); ("response", VStr "R3");
               ("improved_response", VStr "")]])
    [Examples.question "Q1" "R1";
     VDict [("question", VStr "Q2"); ("response", VStr "R2");
            ("improved_response", VStr "Better")];
     VDict [("question", VStr "Q3"); ("response", VStr "R3");
            ("improved_response", VStr "")]]
    eq_refl eq_refl).
Defined.

(* ===================================================================== *)
(** * What the picker and the detail view cannot do *)
(* ===================================================================== *)

(** X23.  A row without a conversation id among the rows the filter lets
    through breaks the picker (line 68): the table compares no cell equal
    to [None], so the lookup of the label of that option finds no row, and
    the script ends with an uncaught [IndexError], after the sidebar and
    before the picker is shown. *)
Theorem missing_id_breaks_picker (df : list summary_row) (raw : value)
    (user : session) (r : summary_row) :
  let rows := visible (concept_choice user) df in
  r ∈ rows →
  conversation_id r = VNone →
  ∃ page,
    run_app (Files (Some df) (Some raw)) user = (Uncaught IndexError, page) ∧
    metric page = Some (length rows) ∧
    picker page = None ∧
    tabs page = None.
Proof.
  intros rows Hr Hid.
  destruct (app_present df raw user)
    as (sidebar & Hmetric & Hpicker & Htabs & _ & Happ).
  fold rows in Happ, Hmetric.
  exists sidebar. split_and!; try done.
  unfold run_app. rewrite Happ. unfold mbind at 1, eff_bind at 1, lift.
  by rewrite (option_labels_missing_id rows rows r Hr Hid).
Qed.

Lemma missing_id_breaks_picker_witness :
  ∃ page,
    run_app
      (Files (Some [Samples.row (VStr "c1") "First" true;
                    Samples.row VNone "Second" false])
         (Some (VDict [("c1", Examples.record_with [])])))
      (Session 0 0)
    = (Uncaught IndexError, page) ∧
    metric page = Some 2 ∧
    picker page = None ∧
    tabs page = None.
Proof.
  exact (missing_id_breaks_picker
    [Samples.row (VStr "c1") "First" true; Samples.row VNone "Second" false]
    (VDict [("c1", Examples.record_with [])]) (Session 0 0)
    (Samples.row VNone "Second" false)
    ltac:(apply list_elem_of_further, list_elem_of_here) eq_refl).
Defined.

(** *** A page without a line of concepts stays without one *)








